(** * InvestorsUI: the delivery pipeline of [main.py]

    A shallow embedding of the parts of [main.py] that make up the
    confirmation-and-delivery pipeline:

    - the pending-delivery list and [confirm_handler] that fills it,
    - [trade_delivery_thread], the periodic scanner that evicts stale
      entries, mints upload tokens and builds the send jobs,
    - the two outbound queues and their drainers [drain_send_queue] and
      [drain_poll_queue],
    - the upload endpoint [ui_upload_submit] that redeems a token.

    Conventions.  A Python [datetime] is the number of microseconds it
    denotes (type [Z]); a [timedelta] likewise.  An SQLite TEXT timestamp
    of the form [YYYY-MM-DD HH:MM:SS] is the number of whole seconds it
    denotes: SQLite compares such texts as strings, which is the order of
    the seconds they denote for four-digit years.  A table is the list of
    its rows, in insertion order; key constraints are enforced by the
    statements that write to it, as in SQLite. *)

From Stdlib Require Import ZArith Lia Ascii.
From stdpp Require Import base option list numbers strings pretty sorting.

Local Open Scope Z_scope.

(** ** Time *)

Definition usec_per_sec : Z := 1000000.

(** [timedelta(days=d)] *)
Definition timedelta_days (d : Z) : Z := d * 86400 * usec_per_sec.

(** [t.strftime("%Y-%m-%d %H:%M:%S")]: the microsecond field is dropped. *)
Definition strftime_sql (t : Z) : Z := t / usec_per_sec.

(** ** Rows of the tables created by [init_db] *)

Record poll_row := {
  p_poll_id : Z;
  p_question : string;
  p_poll_type : string;
  p_created_at : Z
}.

Record option_row := {
  o_option_id : Z;
  o_poll_id : Z;
  o_option_text : string
}.

Record response_row := {
  r_poll_id : Z;
  r_option_id : Z;
  r_user_id : Z;
  r_username : option string;
  r_confirmed : Z;
  r_responded_at : Z
}.

Record token_row := {
  t_token : string;
  t_poll_id : Z;
  t_option_id : Z;
  t_user_id : Z;
  t_username : option string;
  t_created_at : Z;
  t_expires_at : Z;
  t_used_at : option Z
}.

Record exec_row := {
  e_poll_id : Z;
  e_option_id : Z;
  e_user_id : Z;
  e_screenshot_url : string;
  e_created_at : Z
}.

Record trade_row := {
  tr_poll_id : Z;
  tr_option_id : Z;
  tr_screenshot_url : string;
  tr_created_at : Z
}.

Record db := {
  Poll : list poll_row;
  PollOption : list option_row;
  PollResponse : list response_row;
  UploadToken : list token_row;
  OptionExecution : list exec_row;
  PollOptionTrade : list trade_row
}.

Definition set_PollResponse (rs : list response_row) (d : db) : db :=
  {| Poll := Poll d; PollOption := PollOption d; PollResponse := rs;
     UploadToken := UploadToken d; OptionExecution := OptionExecution d;
     PollOptionTrade := PollOptionTrade d |}.

Definition set_UploadToken (ts : list token_row) (d : db) : db :=
  {| Poll := Poll d; PollOption := PollOption d; PollResponse := PollResponse d;
     UploadToken := ts; OptionExecution := OptionExecution d;
     PollOptionTrade := PollOptionTrade d |}.

Definition set_OptionExecution (es : list exec_row) (d : db) : db :=
  {| Poll := Poll d; PollOption := PollOption d; PollResponse := PollResponse d;
     UploadToken := UploadToken d; OptionExecution := es;
     PollOptionTrade := PollOptionTrade d |}.

(** A selection: [(poll_id, option_id, user_id)]. *)
Definition selection : Type := Z * Z * Z.

Definition token_selection (r : token_row) : selection :=
  (t_poll_id r, t_option_id r, t_user_id r).

Definition exec_selection (r : exec_row) : selection :=
  (e_poll_id r, e_option_id r, e_user_id r).

(** ** Process-wide state *)

(** An entry of [PENDING_DELIVERY].  [added_at] is [time.time()], kept here
    as the microsecond count that [utcfromtimestamp] makes of it. *)
Record item := {
  poll_id : Z;
  option_id : Z;
  user_id : Z;
  added_at : Z
}.

Definition item_selection (i : item) : selection :=
  (poll_id i, option_id i, user_id i).

(** An element of [SEND_QUEUE]:
    [(user_id, path_or_url, caption, button_url)]. *)
Record send_job := {
  j_user_id : Z;
  j_path : string;
  j_caption : string;
  j_button_url : option string
}.

(** What the process reads from its surroundings: the configured base URL,
    the stream of values [secrets.token_urlsafe(24)] returns (indexed by the
    number of draws made so far), and the two library functions that shape
    the name of a saved upload. *)
Record env := {
  PUBLIC_BASE_URL : string;
  token_urlsafe : nat -> string;
  secure_filename : string -> string;
  strftime_stamp : Z -> string
}.

Record state := {
  PENDING_DELIVERY : list item;
  SEND_QUEUE : list send_job;
  POLL_QUEUE : list Z;
  DB : db;
  saved_files : list string;
  draws : nat;
  to_send_buf : list send_job;
  scanner_alive : bool
}.

(** ** Small pieces of Python and of [os.path] *)

(** [s or d] on strings: the empty string is falsy. *)
Definition str_or (s d : string) : string :=
  if decide (s = "") then d else s.

Definition slash : Ascii.ascii := "/"%char.
Definition newline : string := String (Ascii.ascii_of_nat 10) "".

Fixpoint basename_from (acc p : string) : string :=
  match p with
  | EmptyString => acc
  | String c rest =>
      if Ascii.eqb c slash then basename_from "" rest
      else basename_from (acc +:+ String c "") rest
  end.

(** [os.path.basename]: what follows the last slash. *)
Definition basename (p : string) : string := basename_from "" p.

Fixpoint ends_with_slash (p : string) : bool :=
  match p with
  | EmptyString => false
  | String c EmptyString => Ascii.eqb c slash
  | String _ rest => ends_with_slash rest
  end.

(** [os.path.join] of two components. *)
Definition path_join (a b : string) : string :=
  match b with
  | String c _ =>
      if Ascii.eqb c slash then b
      else if decide (a = "") then b
      else if ends_with_slash a then a +:+ b
      else a +:+ "/" +:+ b
  | EmptyString =>
      if decide (a = "") then b
      else if ends_with_slash a then a
      else a +:+ "/"
  end.

Definition UPLOAD_DIR : string := "uploads".

(** ** [confirm_handler]

    The handler is entered here after [q.data] has been split and its
    numbers parsed ([poll_id], [option_id], [yn]); [from_user] is
    [q.from_user.id] and [time_now] is what [time.time()] returns. *)

Definition update_confirmed (confirmed pid oid uid : Z)
    (rs : list response_row) : list response_row :=
  (fun r =>
     if decide (r_poll_id r = pid /\ r_option_id r = oid /\ r_user_id r = uid)
     then {| r_poll_id := r_poll_id r; r_option_id := r_option_id r;
             r_user_id := r_user_id r; r_username := r_username r;
             r_confirmed := confirmed; r_responded_at := r_responded_at r |}
     else r) <$> rs.

(** [any((i["poll_id"], i["option_id"], i["user_id"]) == key for i in PENDING_DELIVERY)] *)
Definition pending_exists (key : selection) (pending : list item) : bool :=
  existsb (fun i => bool_decide (item_selection i = key)) pending.

Definition set_pending (l : list item) (st : state) : state :=
  {| PENDING_DELIVERY := l; SEND_QUEUE := SEND_QUEUE st;
     POLL_QUEUE := POLL_QUEUE st; DB := DB st; saved_files := saved_files st;
     draws := draws st; to_send_buf := to_send_buf st;
     scanner_alive := scanner_alive st |}.

Definition set_DB (d : db) (st : state) : state :=
  {| PENDING_DELIVERY := PENDING_DELIVERY st; SEND_QUEUE := SEND_QUEUE st;
     POLL_QUEUE := POLL_QUEUE st; DB := d; saved_files := saved_files st;
     draws := draws st; to_send_buf := to_send_buf st;
     scanner_alive := scanner_alive st |}.

Definition confirm_handler (pid oid : Z) (yn : string) (from_user : Z)
    (time_now : Z) (st : state) : state :=
  let confirmed := if String.eqb yn "1" then 1 else 0 in
  let st1 :=
    set_DB (set_PollResponse
              (update_confirmed confirmed pid oid from_user
                 (PollResponse (DB st))) (DB st)) st in
  if decide (confirmed = 1) then
    let key := (pid, oid, from_user) in
    if pending_exists key (PENDING_DELIVERY st1) then st1
    else
      set_pending
        (PENDING_DELIVERY st1 ++
           [{| poll_id := pid; option_id := oid; user_id := from_user;
               added_at := time_now |}]) st1
  else st1.

(** ** [trade_delivery_thread] *)

Definition CHECK_INTERVAL_SEC : Z := 15.
Definition TTL : Z := timedelta_days 5.

(** The scanner's join of [PollOptionTrade], [Poll] and [PollOption] for one
    option, and its [fetchone()]: columns [screenshot_url], [question],
    [option_text]. *)
Definition select_trade (d : db) (pid oid : Z) : option (string * string * string) :=
  head (t ← filter (fun t => tr_poll_id t = pid /\ tr_option_id t = oid)
                   (PollOptionTrade d);
        p ← filter (fun p => p_poll_id p = tr_poll_id t) (Poll d);
        o ← filter (fun o => o_poll_id o = tr_poll_id t /\
                             o_option_id o = tr_option_id t) (PollOption d);
        [(tr_screenshot_url t, p_question p, o_option_text o)]).

(** [ORDER BY responded_at DESC LIMIT 1] over the responses of a selection. *)
Fixpoint latest_response (best : option response_row) (rs : list response_row)
    : option response_row :=
  match rs with
  | [] => best
  | r :: rest =>
      match best with
      | Some b =>
          if decide (r_responded_at b < r_responded_at r)
          then latest_response (Some r) rest
          else latest_response best rest
      | None => latest_response (Some r) rest
      end
  end.

Definition select_username (d : db) (sel : selection) : option response_row :=
  latest_response None
    (filter (fun r => (r_poll_id r, r_option_id r, r_user_id r) = sel)
            (PollResponse d)).

(** [urow["username"] if urow and urow.get("username") else None] *)
Definition username_of (urow : option response_row) : option string :=
  match urow with
  | Some r =>
      match r_username r with
      | Some u => if decide (u = "") then None else Some u
      | None => None
      end
  | None => None
  end.

(** [INSERT INTO UploadToken ...]: [token] is the primary key, so the
    statement raises [IntegrityError] ([None] here) when it is taken. *)
Definition insert_token (r : token_row) (d : db) : option db :=
  if existsb (fun r' => String.eqb (t_token r') (t_token r)) (UploadToken d)
  then None
  else Some (set_UploadToken (UploadToken d ++ [r]) d).

Definition make_caption (question opt_text : string) : string :=
  "🗳️ " +:+ question +:+ newline +:+
  "➡️ Selected: " +:+ opt_text +:+ newline +:+ newline +:+
  "📸 Trade screenshot attached".

(** [f"{PUBLIC_BASE_URL}/ui/upload/{token}"] *)
Definition upload_url (E : env) (token : string) : string :=
  PUBLIC_BASE_URL E +:+ "/ui/upload/" +:+ token.

(** The local variables of one pass of the loop, together with the parts
    of the world the pass writes to. *)
Record scan_acc := {
  to_remove_idx : list nat;
  to_send : list send_job;
  scan_db : db;
  scan_draws : nat
}.

(** A pass either runs to the end of the list or is left by an exception;
    either way the tokens committed so far stay in the database. *)
Inductive scan_result :=
| ScanDone (a : scan_acc)
| ScanRaised (a : scan_acc).

(** [now - added_at > TTL] *)
Definition stale (now : Z) (it : item) : bool :=
  bool_decide (now - added_at it > TTL).

Definition mark_removed (idx : nat) (a : scan_acc) : scan_acc :=
  {| to_remove_idx := to_remove_idx a ++ [idx]; to_send := to_send a;
     scan_db := scan_db a; scan_draws := scan_draws a |}.

(** Minting for one item: the row inserted into [UploadToken]. *)
Definition mint_row (E : env) (now current_timestamp : Z) (it : item)
    (a : scan_acc) : token_row :=
  {| t_token := token_urlsafe E (scan_draws a);
     t_poll_id := poll_id it; t_option_id := option_id it;
     t_user_id := user_id it;
     t_username := username_of (select_username (scan_db a) (item_selection it));
     t_created_at := current_timestamp;
     t_expires_at := strftime_sql (now + timedelta_days 2);
     t_used_at := None |}.

(** The body of [for idx, item in enumerate(PENDING_DELIVERY)].
    [lookup_raises poll option] tells whether the artifact query for that
    option raises in this pass (a locked or unreachable database);
    [current_timestamp] is the database clock. *)
Fixpoint scan_loop (E : env) (lookup_raises : Z -> Z -> bool)
    (now current_timestamp : Z) (idx : nat) (items : list item)
    (a : scan_acc) : scan_result :=
  match items with
  | [] => ScanDone a
  | it :: rest =>
      if stale now it then
        scan_loop E lookup_raises now current_timestamp (S idx) rest
          (mark_removed idx a)
      else if lookup_raises (poll_id it) (option_id it) then ScanRaised a
      else
        match select_trade (scan_db a) (poll_id it) (option_id it) with
        | Some (screenshot_url, question, option_text) =>
            if decide (screenshot_url = "") then
              scan_loop E lookup_raises now current_timestamp (S idx) rest a
            else
              let fname := basename screenshot_url in
              let local_path := path_join UPLOAD_DIR fname in
              let caption :=
                make_caption (str_or question "Poll")
                             (str_or option_text "Selected option") in
              let row := mint_row E now current_timestamp it a in
              match insert_token row (scan_db a) with
              | None =>
                  ScanRaised
                    {| to_remove_idx := to_remove_idx a; to_send := to_send a;
                       scan_db := scan_db a; scan_draws := S (scan_draws a) |}
              | Some d' =>
                  let button_url := upload_url E (t_token row) in
                  scan_loop E lookup_raises now current_timestamp (S idx) rest
                    {| to_remove_idx := to_remove_idx a ++ [idx];
                       to_send := to_send a ++
                         [{| j_user_id := user_id it; j_path := local_path;
                             j_caption := caption;
                             j_button_url := Some button_url |}];
                       scan_db := d'; scan_draws := S (scan_draws a) |}
              end
        | None =>
            scan_loop E lookup_raises now current_timestamp (S idx) rest a
        end
  end.

(** [for idx in reversed(to_remove_idx): PENDING_DELIVERY.pop(idx)].  The
    indices come from enumerating this very list while the lock is held,
    so every [pop] is in range (out of range Python raises [IndexError],
    and [delete] leaves the list as it is). *)
Definition pop_all (to_remove : list nat) (pending : list item) : list item :=
  fold_left (fun l idx => delete idx l) (rev to_remove) pending.

(** [to_remove_idx, to_send = [], []] *)
Definition scan_start (st : state) : scan_acc :=
  {| to_remove_idx := []; to_send := []; scan_db := DB st;
     scan_draws := draws st |}.

(** The [for] loop over the whole of [PENDING_DELIVERY]. *)
Definition scan_pass (E : env) (lookup_raises : Z -> Z -> bool)
    (now current_timestamp : Z) (st : state) : scan_result :=
  scan_loop E lookup_raises now current_timestamp 0 (PENDING_DELIVERY st)
    (scan_start st).

(** The part of one iteration that runs under [PENDING_LOCK].  When the
    loop is left by an exception, the removals are not applied, nothing is
    handed over for sending, and the thread ends: nothing in the function
    or around its call in [main] catches the exception. *)
Definition scan_locked (E : env) (lookup_raises : Z -> Z -> bool)
    (now current_timestamp : Z) (st : state) : state :=
  match scan_pass E lookup_raises now current_timestamp st with
  | ScanDone a =>
      {| PENDING_DELIVERY := pop_all (to_remove_idx a) (PENDING_DELIVERY st);
         SEND_QUEUE := SEND_QUEUE st; POLL_QUEUE := POLL_QUEUE st;
         DB := scan_db a; saved_files := saved_files st;
         draws := scan_draws a; to_send_buf := to_send a;
         scanner_alive := scanner_alive st |}
  | ScanRaised a =>
      {| PENDING_DELIVERY := PENDING_DELIVERY st;
         SEND_QUEUE := SEND_QUEUE st; POLL_QUEUE := POLL_QUEUE st;
         DB := scan_db a; saved_files := saved_files st;
         draws := scan_draws a; to_send_buf := [];
         scanner_alive := false |}
  end.

(** One [SEND_QUEUE.put] of the loop that follows the locked part. *)
Definition scan_put (st : state) : state :=
  match to_send_buf st with
  | [] => st
  | j :: rest =>
      {| PENDING_DELIVERY := PENDING_DELIVERY st;
         SEND_QUEUE := SEND_QUEUE st ++ [j]; POLL_QUEUE := POLL_QUEUE st;
         DB := DB st; saved_files := saved_files st; draws := draws st;
         to_send_buf := rest; scanner_alive := scanner_alive st |}
  end.

(** All the puts of one iteration. *)
Definition scan_put_all (st : state) : state :=
  {| PENDING_DELIVERY := PENDING_DELIVERY st;
     SEND_QUEUE := SEND_QUEUE st ++ to_send_buf st;
     POLL_QUEUE := POLL_QUEUE st;
     DB := DB st; saved_files := saved_files st; draws := draws st;
     to_send_buf := []; scanner_alive := scanner_alive st |}.

(** One iteration of [while True] in [trade_delivery_thread], up to the
    [time.sleep]. *)
Definition trade_delivery_iteration (E : env) (lookup_raises : Z -> Z -> bool)
    (now current_timestamp : Z) (st : state) : state :=
  scan_put_all (scan_locked E lookup_raises now current_timestamp st).

(** ** The queue drainers *)

(** The argument [photo] of [send_photo]: an opened local file or the
    string itself. *)
Inductive photo :=
| PhotoFile (path : string)
| PhotoRef (path_or_url : string).

(** A call [app.bot.send_photo(chat_id, photo, caption, reply_markup)]; the
    markup, when there is one, is the single button that opens [url]. *)
Record send_photo_call := {
  sp_chat_id : Z;
  sp_photo : photo;
  sp_caption : string;
  sp_reply_markup : option string
}.

(** A call [app.bot.send_message(GROUP_CHAT_ID, text, reply_markup)] made by
    [post_poll_to_group]; a button is its label and the poll and option of
    its [vote|poll|option] callback data. *)
Record send_message_call := {
  sm_text : string;
  sm_buttons : list (string * Z * Z)
}.

(** The world the drainers talk to: the file system test
    [os.path.exists] and whether a call to the bot API raises. *)
Record outside := {
  path_exists : string -> bool;
  send_photo_raises : send_photo_call -> bool;
  send_message_raises : send_message_call -> bool
}.

(** What a drain tick leaves: the queue, the calls that went through in
    the order they were made, and whether the tick was left by an
    exception. *)
Record drained (J C : Type) := {
  remaining : list J;
  dispatched : list C;
  raised : bool
}.
Arguments remaining {J C} _.
Arguments dispatched {J C} _.
Arguments raised {J C} _.

Definition photo_call (W : outside) (job : send_job) : send_photo_call :=
  let reply_markup :=
    match j_button_url job with
    | Some u => if decide (u = "") then None else Some u
    | None => None
    end in
  {| sp_chat_id := j_user_id job;
     sp_photo := if path_exists W (j_path job) then PhotoFile (j_path job)
                 else PhotoRef (j_path job);
     sp_caption := j_caption job;
     sp_reply_markup := reply_markup |}.

(** [drain_send_queue]: [get_nowait] takes the head of the queue, or
    raises [queue.Empty] on an empty queue, which ends the loop.  The
    [try ... finally] around the dispatch has no [except]: an exception of
    [send_photo] leaves the coroutine. *)
Fixpoint drain_send_queue (W : outside) (queue : list send_job)
    (done : list send_photo_call) : drained send_job send_photo_call :=
  match queue with
  | [] => {| remaining := []; dispatched := done; raised := false |}
  | job :: rest =>
      let call := photo_call W job in
      if send_photo_raises W call
      then {| remaining := rest; dispatched := done; raised := true |}
      else drain_send_queue W rest (done ++ [call])
  end.

(** [ORDER BY option_id] *)
Definition by_option_id (a b : option_row) : Prop :=
  o_option_id a <= o_option_id b.

#[global] Instance by_option_id_dec (a b : option_row) :
  Decision (by_option_id a b) := decide (o_option_id a <= o_option_id b).

(** [get_poll]: the poll with its options in [option_id] order; [None]
    stands for [ValueError("poll not found")]. *)
Definition get_poll (d : db) (pid : Z) : option (poll_row * list option_row) :=
  match head (filter (fun p => p_poll_id p = pid) (Poll d)) with
  | Some p =>
      Some (p, merge_sort by_option_id
                 (filter (fun o => o_poll_id o = pid) (PollOption d)))
  | None => None
  end.

(** [build_keyboard] and the message of [post_poll_to_group]. *)
Definition poll_message (p : poll_row) (opts : list option_row)
    : send_message_call :=
  {| sm_text := "🗳️ " +:+ p_question p;
     sm_buttons :=
       (fun o => (o_option_text o, p_poll_id p, o_option_id o)) <$> opts |}.

(** [post_poll_to_group]: [None] when it raises. *)
Definition post_poll_to_group (W : outside) (d : db) (pid : Z)
    : option send_message_call :=
  match get_poll d pid with
  | Some (p, opts) =>
      let call := poll_message p opts in
      if send_message_raises W call then None else Some call
  | None => None
  end.

(** [drain_poll_queue] *)
Fixpoint drain_poll_queue (W : outside) (d : db) (queue : list Z)
    (done : list send_message_call) : drained Z send_message_call :=
  match queue with
  | [] => {| remaining := []; dispatched := done; raised := false |}
  | pid :: rest =>
      match post_poll_to_group W d pid with
      | Some call => drain_poll_queue W d rest (done ++ [call])
      | None => {| remaining := rest; dispatched := done; raised := true |}
      end
  end.




(** ** [ui_upload_submit] *)

(** The validity query: the token's row if it is unused and unexpired at
    the database clock [current_timestamp]. *)
Definition select_valid_token (d : db) (token : string) (current_timestamp : Z)
    : option token_row :=
  head (filter (fun t => t_token t = token /\ t_used_at t = None /\
                         t_expires_at t > current_timestamp)
               (UploadToken d)).

(** [INSERT INTO OptionExecution ... ON CONFLICT(poll_id, option_id, user_id)
    DO UPDATE SET screenshot_url=excluded.screenshot_url,
    created_at=CURRENT_TIMESTAMP] *)
Definition upsert_execution (sel : selection) (screenshot_url : string)
    (current_timestamp : Z) (rows : list exec_row) : list exec_row :=
  if existsb (fun r => bool_decide (exec_selection r = sel)) rows then
    (fun r =>
       if decide (exec_selection r = sel)
       then {| e_poll_id := e_poll_id r; e_option_id := e_option_id r;
               e_user_id := e_user_id r; e_screenshot_url := screenshot_url;
               e_created_at := current_timestamp |}
       else r) <$> rows
  else
    rows ++ [{| e_poll_id := sel.1.1; e_option_id := sel.1.2;
                e_user_id := sel.2; e_screenshot_url := screenshot_url;
                e_created_at := current_timestamp |}].

(** [UPDATE UploadToken SET used_at=CURRENT_TIMESTAMP WHERE token=?] *)
Definition mark_used (token : string) (current_timestamp : Z)
    (rows : list token_row) : list token_row :=
  (fun t =>
     if decide (t_token t = token)
     then {| t_token := t_token t; t_poll_id := t_poll_id t;
             t_option_id := t_option_id t; t_user_id := t_user_id t;
             t_username := t_username t; t_created_at := t_created_at t;
             t_expires_at := t_expires_at t;
             t_used_at := Some current_timestamp |}
     else t) <$> rows.

(** [f"exec_p{poll_id}_o{option_id}_u{user_id}_{stamp}__{fname}"] *)
Definition saved_name (E : env) (row : token_row) (now : Z) (filename : string)
    : string :=
  "exec_p" +:+ pretty (t_poll_id row) +:+ "_o" +:+ pretty (t_option_id row) +:+
  "_u" +:+ pretty (t_user_id row) +:+ "_" +:+ strftime_stamp E now +:+ "__" +:+
  secure_filename E filename.

(** Where a request stands.  The handler reads the token with one
    statement and writes with a later transaction; other requests can run
    between the two. *)
Inductive upload_pc :=
| Received (token : string) (file : option string)
| Validated (token : string) (row : token_row) (filename : string)
| Responded (status : Z).

(** The first half: the validity query and the check of the file part.
    Nothing is written.  The result is the status of an early response, or
    the row and the file name the second half works with. *)
Definition upload_validate (token : string) (file : option string)
    (current_timestamp : Z) (st : state) : Z + token_row * string :=
  match select_valid_token (DB st) token current_timestamp with
  | None => inl 410
  | Some row =>
      match file with
      | None => inl 400
      | Some filename =>
          if decide (filename = "") then inl 400
          else inr (row, filename)
      end
  end.

(** The second half: save the file, upsert the execution proof, mark the
    token used, commit. *)
Definition upload_store (E : env) (token : string) (row : token_row)
    (filename : string) (now current_timestamp : Z) (st : state) : state :=
  let saved := saved_name E row now filename in
  let save_path := path_join UPLOAD_DIR saved in
  let screenshot_url := "uploads/" +:+ saved in
  let d := DB st in
  let d1 :=
    set_OptionExecution
      (upsert_execution (token_selection row) screenshot_url current_timestamp
         (OptionExecution d)) d in
  let d2 :=
    set_UploadToken (mark_used token current_timestamp (UploadToken d1)) d1 in
  {| PENDING_DELIVERY := PENDING_DELIVERY st; SEND_QUEUE := SEND_QUEUE st;
     POLL_QUEUE := POLL_QUEUE st; DB := d2;
     saved_files := saved_files st ++ [save_path];
     draws := draws st; to_send_buf := to_send_buf st;
     scanner_alive := scanner_alive st |}.

(** One move of a request. *)
Definition upload_step (E : env) (now current_timestamp : Z)
    (pc : upload_pc) (st : state) : upload_pc * state :=
  match pc with
  | Received token file =>
      match upload_validate token file current_timestamp st with
      | inl status => (Responded status, st)
      | inr (row, filename) => (Validated token row filename, st)
      end
  | Validated token row filename =>
      (Responded 200,
       upload_store E token row filename now current_timestamp st)
  | Responded s => (Responded s, st)
  end.

(** [ui_upload_submit] handled with no other request in between: the new
    state and the HTTP status. *)
Definition ui_upload_submit (E : env) (token : string) (file : option string)
    (now current_timestamp : Z) (st : state) : state * Z :=
  match upload_validate token file current_timestamp st with
  | inl status => (st, status)
  | inr (row, filename) =>
      (upload_store E token row filename now current_timestamp st, 200)
  end.

(** ** Requests that overlap

    Flask serves each request on a thread of its own, with its own
    connection.  SQLite runs one statement, and one write transaction, at
    a time, so the moves of the requests interleave at the grain of
    [upload_step]. *)

(** Thread [i] makes its next move, reading [now] and
    [current_timestamp] from the clocks. *)
Definition upload_move (E : env) (i : nat) (now current_timestamp : Z)
    (c : list upload_pc * state) : list upload_pc * state :=
  match c.1 !! i with
  | Some pc =>
      let '(pc', st') := upload_step E now current_timestamp pc c.2 in
      (<[i := pc']> c.1, st')
  | None => c
  end.

Definition upload_schedule (E : env) (sched : list (nat * Z * Z))
    (c : list upload_pc * state) : list upload_pc * state :=
  fold_left (fun c m => upload_move E m.1.1 m.1.2 m.2 c) sched c.

Definition succeeded (pc : upload_pc) : bool :=
  match pc with
  | Responded s => bool_decide (s = 200)
  | _ => false
  end.

Definition successes (pcs : list upload_pc) : nat :=
  length (filter (fun pc => succeeded pc = true) pcs).

(** ** The pipeline as a transition system *)

Inductive event :=
| Confirm (pid oid : Z) (yn : string) (from_user time_now : Z)
| ScanLocked (lookup_raises : Z -> Z -> bool) (now current_timestamp : Z)
| ScanPut
| DrainSend (W : outside)
| DrainPoll (W : outside)
| Upload (token : string) (file : option string) (now current_timestamp : Z)
| OtherWrites (polls : list poll_row) (options : list option_row)
    (responses : list response_row) (trades : list trade_row)
    (announce : list Z).

(** The handlers that are not followed statement by statement
    ([create_poll], [upload_option_screenshot], [vote_handler]) write
    [Poll], [PollOption], [PollResponse] and [PollOptionTrade] and put poll
    ids on [POLL_QUEUE]; [OtherWrites] allows any such write. *)
Definition other_writes (polls : list poll_row) (options : list option_row)
    (responses : list response_row) (trades : list trade_row)
    (announce : list Z) (st : state) : state :=
  {| PENDING_DELIVERY := PENDING_DELIVERY st; SEND_QUEUE := SEND_QUEUE st;
     POLL_QUEUE := POLL_QUEUE st ++ announce;
     DB := {| Poll := polls; PollOption := options; PollResponse := responses;
              UploadToken := UploadToken (DB st);
              OptionExecution := OptionExecution (DB st);
              PollOptionTrade := trades |};
     saved_files := saved_files st; draws := draws st;
     to_send_buf := to_send_buf st; scanner_alive := scanner_alive st |}.

Definition set_SEND_QUEUE (q : list send_job) (st : state) : state :=
  {| PENDING_DELIVERY := PENDING_DELIVERY st; SEND_QUEUE := q;
     POLL_QUEUE := POLL_QUEUE st; DB := DB st; saved_files := saved_files st;
     draws := draws st; to_send_buf := to_send_buf st;
     scanner_alive := scanner_alive st |}.

Definition set_POLL_QUEUE (q : list Z) (st : state) : state :=
  {| PENDING_DELIVERY := PENDING_DELIVERY st; SEND_QUEUE := SEND_QUEUE st;
     POLL_QUEUE := q; DB := DB st; saved_files := saved_files st;
     draws := draws st; to_send_buf := to_send_buf st;
     scanner_alive := scanner_alive st |}.

(** The scanner thread is sequential: a pass starts only when the thread is
    alive and the puts of the previous pass are done; a put needs a job
    left to put. *)
Definition step (E : env) (ev : event) (st : state) : option state :=
  match ev with
  | Confirm pid oid yn from_user time_now =>
      Some (confirm_handler pid oid yn from_user time_now st)
  | ScanLocked lookup_raises now current_timestamp =>
      match scanner_alive st, to_send_buf st with
      | true, [] => Some (scan_locked E lookup_raises now current_timestamp st)
      | _, _ => None
      end
  | ScanPut =>
      match to_send_buf st with
      | [] => None
      | _ :: _ => Some (scan_put st)
      end
  | DrainSend W =>
      Some (set_SEND_QUEUE (remaining (drain_send_queue W (SEND_QUEUE st) [])) st)
  | DrainPoll W =>
      Some (set_POLL_QUEUE
              (remaining (drain_poll_queue W (DB st) (POLL_QUEUE st) [])) st)
  | Upload token file now current_timestamp =>
      Some (ui_upload_submit E token file now current_timestamp st).1
  | OtherWrites polls options responses trades announce =>
      Some (other_writes polls options responses trades announce st)
  end.

Fixpoint run (E : env) (evs : list event) (st : state) : option state :=
  match evs with
  | [] => Some st
  | ev :: evs' =>
      match step E ev st with
      | Some st' => run E evs' st'
      | None => None
      end
  end.

(** The statuses of the upload requests of a run, with their tokens, in
    the order the requests were handled. *)
Fixpoint upload_log (E : env) (evs : list event) (st : state)
    : list (string * Z) :=
  match evs with
  | [] => []
  | ev :: evs' =>
      match step E ev st with
      | Some st' =>
          match ev with
          | Upload token file now current_timestamp =>
              [(token, (ui_upload_submit E token file now current_timestamp st).2)]
          | _ => []
          end ++ upload_log E evs' st'
      | None => []
      end
  end.

(** The primary keys the schema of [init_db] declares on the two tables
    the pipeline writes. *)
Definition keys_ok (d : db) : Prop :=
  NoDup (t_token <$> UploadToken d) /\
  NoDup (exec_selection <$> OptionExecution d).

(** A process starts with an empty pending list and empty queues, over
    whatever database file it finds. *)
Definition initial (st : state) : Prop :=
  PENDING_DELIVERY st = [] /\ SEND_QUEUE st = [] /\ POLL_QUEUE st = [] /\
  to_send_buf st = [] /\ scanner_alive st = true /\ keys_ok (DB st).

Definition reachable (E : env) (st : state) : Prop :=
  exists st0 evs, initial st0 /\ run E evs st0 = Some st.

(** The selection a job was made for: that of the token in its link. *)
Definition job_selection (E : env) (d : db) (j : send_job) : option selection :=
  token_selection <$>
    head (filter (fun r => j_button_url j = Some (upload_url E (t_token r)))
                 (UploadToken d)).

(** The jobs of a queue made for selection [sel]. *)
Definition jobs_for (E : env) (d : db) (sel : selection) (q : list send_job)
    : list send_job :=
  filter (fun j => job_selection E d j = Some sel) q.

(** ** Vocabulary for the properties *)

(** Whether the scanner finds something to send for an item: a joined row
    with a non-empty [screenshot_url]. *)
Definition deliverable (d : db) (it : item) : bool :=
  match select_trade d (poll_id it) (option_id it) with
  | Some (screenshot_url, _, _) => negb (bool_decide (screenshot_url = ""))
  | None => false
  end.

Definition removable (now : Z) (d : db) (it : item) : bool :=
  stale now it || deliverable d it.

Definition delivered (now : Z) (d : db) (it : item) : bool :=
  negb (stale now it) && deliverable d it.

(** The indices a pass marks, counted from [idx]. *)
Fixpoint marked (now : Z) (d : db) (idx : nat) (items : list item) : list nat :=
  match items with
  | [] => []
  | it :: rest =>
      if removable now d it then idx :: marked now d (S idx) rest
      else marked now d (S idx) rest
  end.

(** What ties a delivered item to the token row and the job made for it. *)
Definition minted (E : env) (now : Z) (it : item) (rj : token_row * send_job)
    : Prop :=
  token_selection rj.1 = item_selection it /\
  t_expires_at rj.1 = strftime_sql (now + timedelta_days 2) /\
  t_used_at rj.1 = None /\
  j_user_id rj.2 = user_id it /\
  j_button_url rj.2 = Some (upload_url E (t_token rj.1)).

(** The reading of "a lookup that raises for one item is isolated": the
    scanner thread lives on, and an item whose own lookup does not raise
    and that has something to send is delivered in the same pass. *)
Definition lookup_failures_isolated : Prop :=
  forall (E : env) (f : Z -> Z -> bool) (now cts : Z) (st : state),
    scanner_alive st = true ->
    scanner_alive (scan_locked E f now cts st) = true /\
    forall it : item,
      it ∈ PENDING_DELIVERY st ->
      f (poll_id it) (option_id it) = false ->
      delivered now (DB st) it = true ->
      it ∉ PENDING_DELIVERY (scan_locked E f now cts st).

(** The reading of "every item older than the TTL at scan time is removed
    by the scan pass": whatever else the pass meets, a stale item is gone
    from the pending list after the iteration. *)
Definition stale_items_always_removed : Prop :=
  forall (E : env) (f : Z -> Z -> bool) (now cts : Z) (st : state) (old : item),
    old ∈ PENDING_DELIVERY st ->
    now - added_at old > timedelta_days 5 ->
    old ∉ PENDING_DELIVERY (trade_delivery_iteration E f now cts st).


(** The reading of "a failed dispatch is isolated": every job of the
    backlog whose own dispatch does not raise is dispatched in the tick. *)
Definition dispatch_failures_isolated : Prop :=
  forall (W : outside) (q : list send_job) (j : send_job),
    j ∈ q ->
    send_photo_raises W (photo_call W j) = false ->
    photo_call W j ∈ dispatched (drain_send_queue W q []).

(** The base of the upload link: the configured [PUBLIC_BASE_URL] followed
    by [/ui], the prefix under which [create_app] routes the pages of the
    web UI, the upload endpoint [/ui/upload/<token>] among them. *)
Definition baseUrl (E : env) : string := PUBLIC_BASE_URL E +:+ "/ui".

(** What ties a pending item to the token row minted for it and to the job
    built with that token: the row is for the selection of the item, the
    job is for its user, and the link of the job is
    [{baseUrl}/upload/{token}] with the token of the row, which written out
    is [{PUBLIC_BASE_URL}/ui/upload/{token}]. *)
Definition linked (E : env) (it : item) (rj : token_row * send_job) : Prop :=
  token_selection rj.1 = item_selection it /\
  j_user_id rj.2 = user_id it /\
  j_button_url rj.2 = Some (baseUrl E +:+ "/upload/" +:+ t_token rj.1) /\
  j_button_url rj.2 =
    Some (PUBLIC_BASE_URL E +:+ "/ui/upload/" +:+ t_token rj.1).

(** What every reachable state satisfies: one pending entry per selection,
    and the primary keys of the two tables. *)
Definition pipeline_inv (st : state) : Prop :=
  NoDup (item_selection <$> PENDING_DELIVERY st) /\ keys_ok (DB st).

(** A token is spent when the table has it and every row of it is used. *)
Definition spent (d : db) (token : string) : Prop :=
  (exists r, r ∈ UploadToken d /\ t_token r = token) /\
  forall r, r ∈ UploadToken d -> t_token r = token -> t_used_at r <> None.

(** The reading of "of two concurrent submissions against the same token
    exactly one succeeds": however the moves of two requests that present
    the same token interleave, at most one of them ends with status 200. *)
Definition at_most_one_redemption : Prop :=
  forall (E : env) (st : state) (token : string) (f1 f2 : option string)
         (sched : list (nat * Z * Z)),
    (successes (upload_schedule E sched
                  ([Received token f1; Received token f2], st)).1 <= 1)%nat.

(** The reading of "at most one SendJob per selectionKey is outstanding at
    a time": in every reachable state, [SEND_QUEUE] holds at most one job
    made for a given selection. *)
Definition one_outstanding_job_per_selection : Prop :=
  forall (E : env) (st : state) (sel : selection),
    reachable E st ->
    (length (jobs_for E (DB st) sel (SEND_QUEUE st)) <= 1)%nat.

(** ** A small installation, for the examples

    One poll with one option whose trade screenshot is in place; tokens
    [tok0], [tok1], ... *)

Definition demo_env : env :=
  {| PUBLIC_BASE_URL := "http://127.0.0.1:5000";
     token_urlsafe := fun n => "tok" +:+ pretty n;
     secure_filename := fun s => s;
     strftime_stamp := fun t => pretty (t / usec_per_sec) |}.

Definition demo_db : db :=
  {| Poll := [{| p_poll_id := 1; p_question := "Q"; p_poll_type := "single";
                 p_created_at := 0 |}];
     PollOption := [{| o_option_id := 2; o_poll_id := 1; o_option_text := "A" |}];
     PollResponse := [];
     UploadToken := [];
     OptionExecution := [];
     PollOptionTrade :=
       [{| tr_poll_id := 1; tr_option_id := 2;
           tr_screenshot_url := "uploads/poll1_opt2.png"; tr_created_at := 0 |}] |}.

Definition demo_start : state :=
  {| PENDING_DELIVERY := []; SEND_QUEUE := []; POLL_QUEUE := []; DB := demo_db;
     saved_files := []; draws := 0%nat; to_send_buf := [];
     scanner_alive := true |}.

(** A sender that user 7 has blocked, in front of an empty upload
    directory. *)
Definition blocked_by_7 : outside :=
  {| path_exists := fun _ => false;
     send_photo_raises := fun c => bool_decide (sp_chat_id c = 7);
     send_message_raises := fun _ => false |}.

Definition demo_job (uid : Z) : send_job :=
  {| j_user_id := uid; j_path := "uploads/poll1_opt2.png"; j_caption := "c";
     j_button_url := Some "http://127.0.0.1:5000/ui/upload/tok0" |}.

(** No lookup raises. *)
Definition no_fault (_ _ : Z) : bool := false.

(** The lookups for poll 9 raise. *)
Definition fault_on_9 (pid _ : Z) : bool := bool_decide (pid = 9).

Definition demo_item (pid oid uid t : Z) : item :=
  {| poll_id := pid; option_id := oid; user_id := uid; added_at := t |}.

Definition one_day : Z := timedelta_days 1.

(** The state the installation is in after a run of events. *)
Definition demo_after (evs : list event) : state :=
  default demo_start (run demo_env evs demo_start).

(** User 100 confirms option 2 of poll 1; a pass delivers it. *)
Definition demo_delivery : list event :=
  [Confirm 1 2 "1" 100 0; ScanLocked no_fault one_day 86400; ScanPut].

(** The same, then the user confirms again a second later, and the next
    pass, 15 seconds after the first, runs before the send queue has been
    drained. *)
Definition demo_delivered_twice : list event :=
  demo_delivery ++
  [Confirm 1 2 "1" 100 (one_day + usec_per_sec);
   ScanLocked no_fault (one_day + 15 * usec_per_sec) 86415; ScanPut].

(** A delivery to user 100, the upload with its token, a second delivery
    for the same selection. *)
Definition demo_second_link : list event :=
  demo_delivery ++
  [Upload "tok0" (Some "a.png") (one_day + 60 * usec_per_sec) 86460;
   Confirm 1 2 "1" 100 (2 * one_day);
   ScanLocked no_fault (2 * one_day + 15 * usec_per_sec) 172815; ScanPut].

(** * The rest of [main.py] *)

(** ** SQLite integers *)

(** The integers [sqlite3] binds as a parameter of a statement: those of
    64 bits.  With any other [int] the call of [execute] raises
    [OverflowError] before the statement runs.  The ids that reach a
    handler from outside (the numbers of a route or of callback data) can
    be of any size; the handlers are followed here for ids in this
    range. *)
Definition sqlite_int (z : Z) : Prop := - 2 ^ 63 <= z < 2 ^ 63.

#[global] Instance sqlite_int_dec (z : Z) : Decision (sqlite_int z) :=
  decide (- 2 ^ 63 <= z < 2 ^ 63).

(** ** More of Python's strings *)

(** [s[n:]] *)
Fixpoint string_drop (n : nat) (s : string) : string :=
  match n, s with
  | O, _ => s
  | S n', String _ s' => string_drop n' s'
  | S _, EmptyString => EmptyString
  end.

(** [s.split(m, 1)]: the text in front of the first occurrence of [m] and
    the text behind it; [None] when [m] does not occur in [s]. *)
Fixpoint split_once (m s : string) {struct s} : option (string * string) :=
  if String.prefix m s
  then Some (EmptyString, string_drop (String.length m) s)
  else
    match s with
    | EmptyString => None
    | String c s' =>
        match split_once m s' with
        | Some (a, b) => Some (String c a, b)
        | None => None
        end
    end.

(** [m in s] *)
Definition contains (m s : string) : bool :=
  match split_once m s with
  | Some _ => true
  | None => false
  end.

Fixpoint count_slash (s : string) : nat :=
  match s with
  | EmptyString => 0%nat
  | String c s' =>
      if Ascii.eqb c slash then S (count_slash s') else count_slash s'
  end.

(** ** [_abs_path_from_url] *)

Definition _abs_path_from_url (screenshot_url : string) : option string :=
  if decide (screenshot_url = "") then None
  else
    let marker := "/api/uploads/" in
    match split_once marker screenshot_url with
    | None => None
    | Some (_, rel) => Some (path_join UPLOAD_DIR rel)
    end.

(** ** [upload_option_screenshot] *)

(** [INSERT INTO PollOptionTrade ... ON CONFLICT(poll_id, option_id) DO
    UPDATE SET screenshot_url=excluded.screenshot_url,
    created_at=CURRENT_TIMESTAMP] *)
Definition upsert_trade (pid oid : Z) (screenshot_url : string)
    (current_timestamp : Z) (rows : list trade_row) : list trade_row :=
  if existsb (fun r => bool_decide (tr_poll_id r = pid /\ tr_option_id r = oid))
       rows
  then
    (fun r =>
       if decide (tr_poll_id r = pid /\ tr_option_id r = oid)
       then {| tr_poll_id := tr_poll_id r; tr_option_id := tr_option_id r;
               tr_screenshot_url := screenshot_url;
               tr_created_at := current_timestamp |}
       else r) <$> rows
  else
    rows ++ [{| tr_poll_id := pid; tr_option_id := oid;
                tr_screenshot_url := screenshot_url;
                tr_created_at := current_timestamp |}].

Definition set_PollOptionTrade (ts : list trade_row) (d : db) : db :=
  {| Poll := Poll d; PollOption := PollOption d; PollResponse := PollResponse d;
     UploadToken := UploadToken d; OptionExecution := OptionExecution d;
     PollOptionTrade := ts |}.

(** [os.remove(path)] on the upload directory, whose files are
    [saved_files]. *)
Definition os_remove (path : string) (files : list string) : list string :=
  filter (fun p => p <> path) files.

(** [f"poll{poll_id}_opt{option_id}_{stamp}__{fname}"] *)
Definition trade_file_name (E : env) (pid oid now : Z) (filename : string)
    : string :=
  "poll" +:+ pretty pid +:+ "_opt" +:+ pretty oid +:+ "_" +:+
  strftime_stamp E now +:+ "__" +:+ secure_filename E filename.

(** The upload directory after the handler has dealt with the file of the
    previous screenshot: it is removed when its stored URL parses and the
    file is there. *)
Definition drop_previous (prev : option trade_row) (files : list string)
    : list string :=
  match prev with
  | Some r =>
      if decide (tr_screenshot_url r = "") then files
      else
        match _abs_path_from_url (tr_screenshot_url r) with
        | Some old_abs =>
            if bool_decide (old_abs ∈ files) then os_remove old_abs files
            else files
        | None => files
        end
  | None => files
  end.

(** The handler of [POST /api/polls/<poll_id>/options/<option_id>/screenshot]:
    the new state and the HTTP status.  [content_type] is
    [request.content_type], [file] the file name of the part [file], if
    there is one.  The two ids are taken within [sqlite_int]: with a larger
    one the first query raises and nothing is written. *)
Definition upload_option_screenshot (E : env) (pid oid : Z)
    (content_type : option string) (file : option string)
    (now current_timestamp : Z) (st : state) : state * Z :=
  let d := DB st in
  match head (filter (fun p => p_poll_id p = pid) (Poll d)),
        head (filter (fun o => o_option_id o = oid /\ o_poll_id o = pid)
                     (PollOption d)) with
  | Some _, Some _ =>
      if negb (contains "multipart/form-data" (default "" content_type))
      then (st, 415)
      else
        match file with
        | None => (st, 400)
        | Some filename =>
            if decide (filename = "") then (st, 400)
            else
              let prev :=
                head (filter (fun t => tr_poll_id t = pid /\ tr_option_id t = oid)
                             (PollOptionTrade d)) in
              let files := drop_previous prev (saved_files st) in
              let fname := trade_file_name E pid oid now filename in
              let save_path := path_join UPLOAD_DIR fname in
              let screenshot_url := "uploads/" +:+ fname in
              ({| PENDING_DELIVERY := PENDING_DELIVERY st;
                  SEND_QUEUE := SEND_QUEUE st; POLL_QUEUE := POLL_QUEUE st;
                  DB := set_PollOptionTrade
                          (upsert_trade pid oid screenshot_url current_timestamp
                             (PollOptionTrade d)) d;
                  saved_files := files ++ [save_path];
                  draws := draws st; to_send_buf := to_send_buf st;
                  scanner_alive := scanner_alive st |}, 201)
        end
  | _, _ => (st, 404)
  end.

Definition trade_key (r : trade_row) : Z * Z := (tr_poll_id r, tr_option_id r).

(** The three tests of the handler: the poll and the option of that poll
    are in the database; the content type names [multipart/form-data]; the
    part [file] is there and has a file name. *)
Definition option_found (d : db) (pid oid : Z) : Prop :=
  (exists p, p ∈ Poll d /\ p_poll_id p = pid) /\
  (exists o, o ∈ PollOption d /\ o_option_id o = oid /\ o_poll_id o = pid).

Definition is_multipart (content_type : option string) : Prop :=
  contains "multipart/form-data" (default "" content_type) = true.

Definition has_file (file : option string) : Prop :=
  exists filename, file = Some filename /\ filename <> "".

(** What ties a delivered item to the job made for it: the recipient, the
    local path and the caption come from the item and from the joined row
    of its option. *)
Definition job_of (E : env) (d : db) (it : item) (j : send_job) : Prop :=
  exists (url question option_text token : string),
    select_trade d (poll_id it) (option_id it) = Some (url, question, option_text) /\
    url <> "" /\
    j = {| j_user_id := user_id it;
           j_path := path_join UPLOAD_DIR (basename url);
           j_caption := make_caption (str_or question "Poll")
                                     (str_or option_text "Selected option");
           j_button_url := Some (upload_url E token) |}.

(** The file names the process makes have no slash when the two library
    functions give none: [strftime("%Y%m%dT%H%M%SZ")] gives digits, [T] and
    [Z]; werkzeug's [secure_filename] replaces the path separators. *)
Definition plain_names (E : env) : Prop :=
  (forall t, count_slash (strftime_stamp E t) = 0%nat) /\
  (forall s, count_slash (secure_filename E s) = 0%nat).

(** Every stored trade screenshot URL is [uploads/<name>], with no slash in
    [<name>]. *)
Definition stored_urls_plain (d : db) : Prop :=
  forall r, r ∈ PollOptionTrade d ->
    exists name, tr_screenshot_url r = "uploads/" +:+ name /\
                 count_slash name = 0%nat.

(** The installation of the examples with a [secure_filename] that always
    answers [shot.png]. *)
Definition plain_env : env :=
  {| PUBLIC_BASE_URL := "http://127.0.0.1:5000";
     token_urlsafe := fun n => "tok" +:+ pretty n;
     secure_filename := fun _ => "shot.png";
     strftime_stamp := fun t => pretty (t / usec_per_sec) |}.

Definition multipart : option string := Some "multipart/form-data; boundary=x".

(** ** [ui_upload_form] *)

(** The query of the form: the valid token joined with its poll and its
    option. *)
Definition select_form_row (d : db) (token : string) (current_timestamp : Z)
    : option (token_row * string * string) :=
  head (t ← filter (fun t => t_token t = token /\ t_used_at t = None /\
                             t_expires_at t > current_timestamp)
                   (UploadToken d);
        p ← filter (fun p => p_poll_id p = t_poll_id t) (Poll d);
        o ← filter (fun o => o_poll_id o = t_poll_id t /\
                             o_option_id o = t_option_id t) (PollOption d);
        [(t, p_question p, o_option_text o)]).

(** What the form shows: the question, the option, [username or user_id],
    and the token in the address the form posts to. *)
Record upload_form := {
  uf_question : string;
  uf_option_text : string;
  uf_user : string;
  uf_action : string
}.

(** [GET /ui/upload/<token>]: the status and, with 200, the form. *)
Definition ui_upload_form (token : string) (current_timestamp : Z) (st : state)
    : Z * option upload_form :=
  match select_form_row (DB st) token current_timestamp with
  | None => (410, None)
  | Some (t, question, option_text) =>
      (200,
       Some {| uf_question := question; uf_option_text := option_text;
               uf_user :=
                 match t_username t with
                 | Some u => if decide (u = "") then pretty (t_user_id t) else u
                 | None => pretty (t_user_id t)
                 end;
               uf_action := "/ui/upload/" +:+ token |})
  end.

(** ** [vote_handler]

    The handler is entered here after [q.data] has been split and its
    numbers parsed.  What it writes to the database is followed; of the
    direct messages it sends only their kind is kept.  The ids are taken
    within [sqlite_int]: with a larger one a statement raises and nothing
    is written. *)

Definition response_selection (r : response_row) : selection :=
  (r_poll_id r, r_option_id r, r_user_id r).

(** [user.username or user.full_name or str(user.id)] *)
Definition display_name (username : option string) (full_name : string)
    (uid : Z) : string :=
  match username with
  | Some u => if decide (u = "") then str_or full_name (pretty uid) else u
  | None => str_or full_name (pretty uid)
  end.

(** How a vote ends: the user is asked to confirm the selection, or is told
    that the option was selected before (and whether it was confirmed). *)
Inductive vote_outcome :=
| AskConfirm (pid oid : Z)
| AlreadySelected (confirmed : bool).

(** [DELETE FROM PollResponse WHERE poll_id=? AND user_id=? AND option_id<>?] *)
Definition delete_other_choices (pid uid oid : Z) (rows : list response_row)
    : list response_row :=
  filter (fun r => ~ (r_poll_id r = pid /\ r_user_id r = uid /\
                      r_option_id r <> oid)) rows.

(** The [INSERT] has no [ON CONFLICT] clause: on a row of the same
    [(poll_id, option_id, user_id)] it raises [IntegrityError], nothing is
    committed, and the handler reports the earlier vote. *)
Definition vote_handler (pid oid uid : Z) (username : option string)
    (full_name : string) (current_timestamp : Z) (st : state)
    : state * vote_outcome :=
  let d := DB st in
  match head (filter (fun r => response_selection r = (pid, oid, uid))
                     (PollResponse d)) with
  | Some existing =>
      (st, AlreadySelected (bool_decide (r_confirmed existing = 1)))
  | None =>
      let inserted :=
        PollResponse d ++
          [{| r_poll_id := pid; r_option_id := oid; r_user_id := uid;
              r_username := Some (display_name username full_name uid);
              r_confirmed := 0; r_responded_at := current_timestamp |}] in
      let rows :=
        match head (filter (fun p => p_poll_id p = pid) (Poll d)) with
        | Some p =>
            if decide (p_poll_type p = "single")
            then delete_other_choices pid uid oid inserted
            else inserted
        | None => inserted
        end in
      (set_DB (set_PollResponse rows d) st, AskConfirm pid oid)
  end.

Definition new_vote_row (pid oid uid : Z) (name : string) (cts : Z)
    : response_row :=
  {| r_poll_id := pid; r_option_id := oid; r_user_id := uid;
     r_username := Some name; r_confirmed := 0; r_responded_at := cts |}.

(** ** [list_polls] *)

(** A query argument as [int()] sees it: absent (the default is used), a
    text that [int()] reads as an integer, or a text on which it raises
    [ValueError]. *)
Inductive query_arg :=
| Absent
| IntText (z : Z)
| OtherText.

(** The [try] block reads [limit], then [offset]; a [ValueError] of either
    resets both. *)
Definition parse_paging (limit offset : query_arg) : Z * Z :=
  match limit, offset with
  | OtherText, _ => (50, 0)
  | _, OtherText => (50, 0)
  | _, _ =>
      (match limit with IntText z => z | _ => 50 end,
       match offset with IntText z => z | _ => 0 end)
  end.

(** [limit = max(1, min(200, limit))] and [offset = max(0, offset)] *)
Definition clamp_limit (limit : Z) : Z := Z.max 1 (Z.min 200 limit).
Definition clamp_offset (offset : Z) : Z := Z.max 0 offset.

(** [ORDER BY poll_id DESC] *)
Definition by_poll_id_desc (a b : poll_row) : Prop :=
  p_poll_id b <= p_poll_id a.

#[global] Instance by_poll_id_desc_dec (a b : poll_row) :
  Decision (by_poll_id_desc a b) := decide (p_poll_id b <= p_poll_id a).

(** [SELECT option_id, option_text FROM PollOption WHERE poll_id=? ORDER BY
    option_id] *)
Definition options_of (d : db) (pid : Z) : list option_row :=
  merge_sort by_option_id (filter (fun o => o_poll_id o = pid) (PollOption d)).

(** [GET /api/listpolls]: the status and the polls of the page, each with
    its options.  The limit is between 1 and 200 when it is bound to
    [LIMIT ?]; the offset can be any integer that is not negative, and
    binding one beyond 64 bits to [OFFSET ?] raises [OverflowError], which
    nothing catches: the answer is then 500, with no page. *)
Definition list_polls (limit offset : query_arg) (st : state)
    : Z * list (poll_row * list option_row) :=
  let paging := parse_paging limit offset in
  let limit := clamp_limit paging.1 in
  let offset := clamp_offset paging.2 in
  if decide (sqlite_int offset) then
    (200,
     (fun p => (p, options_of (DB st) (p_poll_id p))) <$>
       take (Z.to_nat limit)
         (drop (Z.to_nat offset) (merge_sort by_poll_id_desc (Poll (DB st)))))
  else (500, []).

(** ** [create_poll]

    The JSON body is taken as read: a question and a poll type that are
    texts or missing, and a list of options, each a dictionary (with its
    [option_text], a text or missing) or another value (with its [str]).
    [str.strip] and [str.lower] are Python's. *)

Inductive option_json :=
| OptionDict (option_text : option string)
| OptionOther (text : string).

Record poll_json := {
  pj_question : option string;
  pj_poll_type : option string;
  pj_options : list option_json
}.

Record text_lib := {
  strip : string -> string;
  lower : string -> string
}.

(** The table [sqlite_sequence]: the largest row id each [AUTOINCREMENT]
    table has ever held. *)
Record sequences := {
  seq_Poll : Z;
  seq_PollOption : Z
}.

(** The row id [AUTOINCREMENT] gives to a new row: one more than the
    largest id the table holds or has ever held. *)
Definition next_rowid (seq : Z) (ids : list Z) : Z :=
  Z.max seq (foldr Z.max 0 ids) + 1.

(** [(opt.get("option_text") or "").strip() if isinstance(opt, dict) else
    str(opt).strip()] *)
Definition option_text_of (T : text_lib) (opt : option_json) : string :=
  match opt with
  | OptionDict (Some s) => strip T s
  | OptionDict None => strip T ""
  | OptionOther s => strip T s
  end.

(** The loop over the options: [None] when an option has no text, the
    point at which the handler rolls back. *)
Fixpoint insert_options (T : text_lib) (pid : Z) (opts : list option_json)
    (rows : list option_row) (seq : Z) : option (list option_row * Z) :=
  match opts with
  | [] => Some (rows, seq)
  | opt :: rest =>
      let txt := option_text_of T opt in
      if decide (txt = "") then None
      else
        let oid := next_rowid seq (o_option_id <$> rows) in
        insert_options T pid rest
          (rows ++ [{| o_option_id := oid; o_poll_id := pid;
                       o_option_text := txt |}]) oid
  end.

(** The poll type the handler stores. *)
Definition stored_poll_type (T : text_lib) (poll_type : option string) : string :=
  let given :=
    lower T (strip T (match poll_type with
                      | Some s => str_or s "single"
                      | None => "single"
                      end)) in
  if decide (given = "single") then given
  else if decide (given = "multi") then given
  else "single".

(** [POST /api/polls]: the sequence table, the state, the status, and with
    201 the poll and its options as the answer shows them. *)
Definition create_poll (T : text_lib) (body : poll_json)
    (current_timestamp : Z) (sq : sequences) (st : state)
    : sequences * state * Z * option (poll_row * list option_row) :=
  let question :=
    strip T (match pj_question body with Some s => s | None => "" end) in
  let poll_type := stored_poll_type T (pj_poll_type body) in
  if decide (question = "") then (sq, st, 400, None)
  else
    match pj_options body with
    | [] => (sq, st, 400, None)
    | options =>
        let d := DB st in
        let pid := next_rowid (seq_Poll sq) (p_poll_id <$> Poll d) in
        let polls :=
          Poll d ++ [{| p_poll_id := pid; p_question := question;
                        p_poll_type := poll_type;
                        p_created_at := current_timestamp |}] in
        match insert_options T pid options (PollOption d) (seq_PollOption sq) with
        | None => (sq, st, 400, None)
        | Some (option_rows, seq_options) =>
            let d' :=
              {| Poll := polls; PollOption := option_rows;
                 PollResponse := PollResponse d; UploadToken := UploadToken d;
                 OptionExecution := OptionExecution d;
                 PollOptionTrade := PollOptionTrade d |} in
            let st' := set_POLL_QUEUE (POLL_QUEUE st ++ [pid]) (set_DB d' st) in
            ({| seq_Poll := pid; seq_PollOption := seq_options |}, st', 201,
             match head (filter (fun p => p_poll_id p = pid) polls) with
             | Some p => Some (p, options_of d' pid)
             | None => None
             end)
        end
    end.

(** The question the handler stores. *)
Definition stored_question (T : text_lib) (body : poll_json) : string :=
  strip T (match pj_question body with Some s => s | None => "" end).

(** The row of the new poll. *)
Definition new_poll_row (T : text_lib) (body : poll_json) (cts : Z)
    (sq : sequences) (st : state) : poll_row :=
  {| p_poll_id := next_rowid (seq_Poll sq) (p_poll_id <$> Poll (DB st));
     p_question := stored_question T body;
     p_poll_type := stored_poll_type T (pj_poll_type body);
     p_created_at := cts |}.

(** The database after the commit, given the rows of [PollOption]. *)
Definition created_db (T : text_lib) (body : poll_json) (cts : Z)
    (sq : sequences) (st : state) (rows : list option_row) : db :=
  {| Poll := Poll (DB st) ++ [new_poll_row T body cts sq st];
     PollOption := rows;
     PollResponse := PollResponse (DB st); UploadToken := UploadToken (DB st);
     OptionExecution := OptionExecution (DB st);
     PollOptionTrade := PollOptionTrade (DB st) |}.

(** A text library that finds nothing to strip and nothing to lower, and a
    request for a poll with two options. *)
Definition plain_text : text_lib :=
  {| strip := fun s => s; lower := fun s => s |}.

Definition demo_body : poll_json :=
  {| pj_question := Some "Buy or sell?"; pj_poll_type := Some "multi";
     pj_options := [OptionDict (Some "Buy"); OptionOther "Sell"] |}.

Definition demo_sequences : sequences :=
  {| seq_Poll := 4; seq_PollOption := 2 |}.

(** A sender that accepts everything, in front of an empty upload
    directory. *)
Definition willing_sender : outside :=
  {| path_exists := fun _ => false;
     send_photo_raises := fun _ => false;
     send_message_raises := fun _ => false |}.

(** * Properties *)

(** ** Appending strings *)

Lemma app_String (c : ascii) (a b : string) :
  String c a +:+ b = String c (a +:+ b).
Proof. reflexivity. Qed.

Lemma app_Empty (b : string) : "" +:+ b = b.
Proof. reflexivity. Qed.

Lemma string_app_assoc (a b c : string) : (a +:+ b) +:+ c = a +:+ (b +:+ c).
Proof.
  induction a as [|x a IH]; rewrite ?app_String, ?app_Empty; [reflexivity|].
  f_equal. exact IH.
Qed.

(** ** Removing by index *)

Lemma pop_all_cons (idx : nat) (l : list nat) (pending : list item) :
  pop_all (idx :: l) pending = delete idx (pop_all l pending).
Proof.
  unfold pop_all. simpl. rewrite fold_left_app. reflexivity.
Qed.

Lemma delete_middle (pre : list item) (x : item) (post : list item) :
  delete (length pre) (pre ++ x :: post) = pre ++ post.
Proof.
  induction pre as [|y pre IH]; simpl; [reflexivity|].
  f_equal. exact IH.
Qed.

Lemma pop_all_marked (now : Z) (d : db) (items pre : list item) :
  pop_all (marked now d (length pre) items) (pre ++ items) =
  pre ++ filter (fun it => removable now d it = false) items.
Proof.
  revert pre. induction items as [|it rest IH]; intros pre; simpl.
  - reflexivity.
  - specialize (IH (pre ++ [it])).
    rewrite length_app in IH. simpl in IH.
    replace (length pre + 1)%nat with (S (length pre)) in IH by lia.
    rewrite <- app_assoc in IH. simpl in IH.
    destruct (removable now d it) eqn:Hr.
    + rewrite pop_all_cons, IH.
      rewrite filter_cons_False by (rewrite Hr; discriminate).
      rewrite <- app_assoc. simpl. apply delete_middle.
    + rewrite IH. rewrite filter_cons_True by exact Hr.
      rewrite <- app_assoc. reflexivity.
Qed.

Lemma insert_token_Some (r : token_row) (d d' : db) :
  insert_token r d = Some d' ->
  d' = set_UploadToken (UploadToken d ++ [r]) d /\
  t_token r ∉ t_token <$> UploadToken d.
Proof.
  unfold insert_token.
  destruct (existsb _ _) eqn:Hex; [discriminate|].
  intros [= <-]. split; [reflexivity|].
  intros Hin. apply list_elem_of_fmap in Hin as (r' & Heq & Hin).
  assert (existsb (fun r' => String.eqb (t_token r') (t_token r))
                  (UploadToken d) = true) as Habs.
  { apply existsb_exists. exists r'. split.
    - apply list_elem_of_In. exact Hin.
    - apply String.eqb_eq. congruence. }
  congruence.
Qed.

Lemma pop_all_marked_0 (now : Z) (d : db) (items : list item) :
  pop_all (marked now d 0 items) items =
  filter (fun it => removable now d it = false) items.
Proof. exact (pop_all_marked now d items []). Qed.

Lemma marked_in_range (now : Z) (d : db) (items : list item) :
  forall idx : nat,
  Forall (fun i => (idx <= i < idx + length items)%nat) (marked now d idx items).
Proof.
  induction items as [|it rest IH]; intros idx; simpl; [constructor|].
  assert (Forall (fun i => (idx <= i < idx + S (length rest))%nat)
            (marked now d (S idx) rest)) as Hrest.
  { eapply Forall_impl; [apply IH|]. simpl. intros i Hi. lia. }
  destruct (removable now d it); [constructor; [lia|exact Hrest]|exact Hrest].
Qed.

Lemma deliverable_static (ts : list token_row) (d : db) (it : item) :
  deliverable (set_UploadToken ts d) it = deliverable d it.
Proof. reflexivity. Qed.

Lemma marked_static (now : Z) (ts : list token_row) (d : db)
    (items : list item) :
  forall idx, marked now (set_UploadToken ts d) idx items = marked now d idx items.
Proof.
  induction items as [|it rest IH]; intros idx; simpl; [reflexivity|].
  unfold removable. rewrite deliverable_static, !IH. reflexivity.
Qed.

Lemma set_UploadToken_same (d : db) : set_UploadToken (UploadToken d) d = d.
Proof. destruct d; reflexivity. Qed.

(** ** One pass of the scanner

    [E] is the environment of the process, [f] tells which lookups raise,
    [now] is the [utcnow()] of the pass and [cts] the database clock. *)

Section Pass.

Variables (E : env) (f : Z -> Z -> bool) (now cts : Z).

(** A pass that runs to the end: the indices it marks, the rows it adds to
    [UploadToken] and the jobs it collects, item by item. *)
Lemma scan_loop_done (items : list item) :
  forall (idx : nat) (a a' : scan_acc),
  scan_loop E f now cts idx items a = ScanDone a' ->
  exists mj : list (token_row * send_job),
    to_remove_idx a' = to_remove_idx a ++ marked now (scan_db a) idx items /\
    scan_db a' = set_UploadToken (UploadToken (scan_db a) ++ mj.*1) (scan_db a) /\
    to_send a' = to_send a ++ mj.*2 /\
    scan_draws a' = (scan_draws a + length mj)%nat /\
    Forall2 (minted E now)
      (filter (fun it => delivered now (scan_db a) it = true) items) mj /\
    (NoDup (t_token <$> UploadToken (scan_db a)) ->
     NoDup (t_token <$> UploadToken (scan_db a'))).
Proof.
  induction items as [|it rest IH]; intros idx a a' Hrun; simpl in Hrun.
  - injection Hrun as <-. exists []. simpl.
    rewrite !app_nil_r, set_UploadToken_same.
    repeat split; try constructor; try done.
  - destruct (stale now it) eqn:Hst.
    { apply IH in Hrun as (mj & Hrm & Hdb & Hsend & Hdr & Hm & Hnd).
      exists mj. simpl in *.
      assert (removable now (scan_db a) it = true) as ->
        by (unfold removable; rewrite Hst; reflexivity).
      rewrite filter_cons_False
        by (unfold delivered; rewrite Hst; discriminate).
      rewrite Hrm, <- app_assoc. auto 10. }
    destruct (f (poll_id it) (option_id it)); [discriminate|].
    assert (forall b, deliverable (scan_db a) it = b ->
                      removable now (scan_db a) it = b /\
                      delivered now (scan_db a) it = b) as Hcase.
    { intros b Hb. unfold removable, delivered. rewrite Hst, Hb. auto. }
    destruct (select_trade (scan_db a) (poll_id it) (option_id it))
      as [[[url q] o]|] eqn:Hsel.
    + destruct (decide (url = "")) as [Hu|Hu].
      * destruct (Hcase false) as [Hr Hd].
        { unfold deliverable. rewrite Hsel.
          rewrite bool_decide_eq_true_2 by exact Hu. reflexivity. }
        apply IH in Hrun as (mj & Hrm & Hdb & Hsend & Hdr & Hm & Hnd).
        exists mj. simpl. rewrite Hr.
        rewrite filter_cons_False by (rewrite Hd; discriminate).
        auto 10.
      * destruct (Hcase true) as [Hr Hd].
        { unfold deliverable. rewrite Hsel.
          rewrite bool_decide_eq_false_2 by exact Hu. reflexivity. }
        destruct (insert_token _ (scan_db a)) as [d'|] eqn:Hins;
          [|discriminate].
        apply insert_token_Some in Hins as [-> Hfresh].
        apply IH in Hrun as (mj & Hrm & Hdb & Hsend & Hdr & Hm & Hnd).
        simpl in Hrm, Hdb, Hsend, Hdr, Hm, Hnd.
        rewrite marked_static in Hrm.
        eexists ((mint_row E now cts it a, _) :: mj). simpl. rewrite Hr.
        rewrite filter_cons_True by exact Hd.
        split; [rewrite Hrm, <- app_assoc; reflexivity|].
        split; [rewrite Hdb, <- app_assoc; reflexivity|].
        split; [rewrite Hsend, <- app_assoc; reflexivity|].
        split; [lia|]. split.
        -- constructor; [|exact Hm]. repeat split; reflexivity.
        -- intros Hnd0. apply Hnd. rewrite fmap_app. simpl.
           apply NoDup_app. split; [exact Hnd0|]. split.
           ++ intros x Hx Hx'. apply list_elem_of_singleton in Hx'.
              subst x. exact (Hfresh Hx).
           ++ apply NoDup_singleton.
    + destruct (Hcase false) as [Hr Hd].
      { unfold deliverable. rewrite Hsel. reflexivity. }
      apply IH in Hrun as (mj & Hrm & Hdb & Hsend & Hdr & Hm & Hnd).
      exists mj. simpl. rewrite Hr.
      rewrite filter_cons_False by (rewrite Hd; discriminate).
      auto 10.
Qed.

(** Whatever way a pass ends, it only appends rows to [UploadToken]; the
    rows are unused and expire two days after [now], and the tokens stay
    distinct. *)
Lemma scan_loop_db (items : list item) :
  forall (idx : nat) (a a' : scan_acc),
  scan_loop E f now cts idx items a = ScanDone a' \/
  scan_loop E f now cts idx items a = ScanRaised a' ->
  exists rows : list token_row,
    scan_db a' = set_UploadToken (UploadToken (scan_db a) ++ rows) (scan_db a) /\
    Forall (fun r => t_expires_at r = strftime_sql (now + timedelta_days 2) /\
                     t_used_at r = None) rows /\
    Forall (fun r => t_token r ∉ t_token <$> UploadToken (scan_db a)) rows /\
    (NoDup (t_token <$> UploadToken (scan_db a)) ->
     NoDup (t_token <$> UploadToken (scan_db a'))).
Proof.
  assert (forall a : scan_acc,
    exists rows : list token_row,
      scan_db a = set_UploadToken (UploadToken (scan_db a) ++ rows) (scan_db a) /\
      Forall (fun r => t_expires_at r = strftime_sql (now + timedelta_days 2) /\
                       t_used_at r = None) rows /\
      Forall (fun r => t_token r ∉ t_token <$> UploadToken (scan_db a)) rows /\
      (NoDup (t_token <$> UploadToken (scan_db a)) ->
       NoDup (t_token <$> UploadToken (scan_db a)))) as Hstay.
  { intros a. exists []. rewrite app_nil_r, set_UploadToken_same. auto. }
  induction items as [|it rest IH]; intros idx a a' Hrun; simpl in Hrun.
  - destruct Hrun as [[= <-]|?]; [apply Hstay|discriminate].
  - destruct (stale now it).
    { apply IH in Hrun. exact Hrun. }
    destruct (f (poll_id it) (option_id it)).
    { destruct Hrun as [?|[= <-]]; [discriminate|apply Hstay]. }
    destruct (select_trade (scan_db a) (poll_id it) (option_id it))
      as [[[url q] o]|]; [|apply IH in Hrun; exact Hrun].
    destruct (decide (url = "")); [apply IH in Hrun; exact Hrun|].
    destruct (insert_token _ (scan_db a)) as [d'|] eqn:Hins.
    + apply insert_token_Some in Hins as [-> Hfresh].
      apply IH in Hrun as (rows & Hdb & Hrows & Hnew & Hnd).
      simpl in Hdb, Hnew, Hnd.
      exists (mint_row E now cts it a :: rows). split; [|split; [|split]].
      * rewrite Hdb, <- app_assoc. reflexivity.
      * constructor; [split; reflexivity|exact Hrows].
      * constructor; [exact Hfresh|].
        eapply Forall_impl; [exact Hnew|]. simpl. intros r Hr Hin.
        apply Hr. rewrite fmap_app. apply elem_of_app. left. exact Hin.
      * intros Hnd0. apply Hnd. rewrite fmap_app. simpl.
        apply NoDup_app. split; [exact Hnd0|]. split.
        -- intros x Hx Hx'. apply list_elem_of_singleton in Hx'.
           subst x. exact (Hfresh Hx).
        -- apply NoDup_singleton.
    + destruct Hrun as [?|[= <-]]; [discriminate|]. simpl. apply Hstay.
Qed.

(** The same, for the state the locked part of an iteration leaves. *)
Lemma scan_locked_db (st : state) :
  exists rows : list token_row,
    DB (scan_locked E f now cts st) =
      set_UploadToken (UploadToken (DB st) ++ rows) (DB st) /\
    Forall (fun r => t_expires_at r = strftime_sql (now + timedelta_days 2) /\
                     t_used_at r = None) rows /\
    Forall (fun r => t_token r ∉ t_token <$> UploadToken (DB st)) rows /\
    (NoDup (t_token <$> UploadToken (DB st)) ->
     NoDup (t_token <$> UploadToken (DB (scan_locked E f now cts st)))).
Proof.
  unfold scan_locked.
  destruct (scan_pass E f now cts st) as [a|a] eqn:Hpass; simpl;
    unfold scan_pass in Hpass;
    apply (scan_loop_db (PENDING_DELIVERY st) 0%nat
             (scan_start st) a); auto.
Qed.

(** A lookup that raises for an item the pass gets to ends the pass. *)
Lemma scan_loop_raises (items : list item) (bad : item) :
  bad ∈ items -> stale now bad = false ->
  f (poll_id bad) (option_id bad) = true ->
  forall (idx : nat) (a : scan_acc),
  exists a', scan_loop E f now cts idx items a = ScanRaised a'.
Proof.
  intros Hin Hfresh Hbad.
  induction items as [|it rest IH]; intros idx a.
  - inversion Hin.
  - simpl. apply elem_of_cons in Hin as [<-|Hin].
    + rewrite Hfresh, Hbad. eauto.
    + specialize (IH Hin).
      destruct (stale now it); [apply IH|].
      destruct (f (poll_id it) (option_id it)); [eauto|].
      destruct (select_trade _ _ _) as [[[url q] o]|]; [|apply IH].
      destruct (decide (url = "")); [apply IH|].
      destruct (insert_token _ _); [apply IH|eauto].
Qed.

(** A pass that is left by an exception stops at one item: the tokens and
    the jobs made so far are those of the items in front of it that had
    something to send, and no lookup raised for a fresh item in front of
    it.  Nothing is made for the item itself or for the items behind it. *)
Lemma scan_loop_stops (items : list item) :
  forall (idx : nat) (a a' : scan_acc),
  scan_loop E f now cts idx items a = ScanRaised a' ->
  exists (pre post : list item) (mj : list (token_row * send_job)),
    items = pre ++ post /\ post <> [] /\
    (forall it, it ∈ pre -> stale now it = false ->
                f (poll_id it) (option_id it) = false) /\
    scan_db a' = set_UploadToken (UploadToken (scan_db a) ++ mj.*1) (scan_db a) /\
    to_send a' = to_send a ++ mj.*2 /\
    Forall2 (minted E now)
      (filter (fun it => delivered now (scan_db a) it = true) pre) mj.
Proof.
  assert (forall (a : scan_acc) (n : nat) (it : item) (rest : list item),
    exists (pre post : list item) (mj : list (token_row * send_job)),
      it :: rest = pre ++ post /\ post <> [] /\
      (forall it, it ∈ pre -> stale now it = false ->
                  f (poll_id it) (option_id it) = false) /\
      scan_db a = set_UploadToken (UploadToken (scan_db a) ++ mj.*1) (scan_db a) /\
      to_send a = to_send a ++ mj.*2 /\
      Forall2 (minted E now)
        (filter (fun it => delivered now (scan_db a) it = true) pre) mj)
    as Hhere.
  { intros a _ it rest. exists [], (it :: rest), []. simpl.
    rewrite !app_nil_r, set_UploadToken_same.
    split; [reflexivity|]. split; [discriminate|].
    split; [intros x Hx; inversion Hx|]. repeat split. constructor. }
  assert (forall (it : item) (pre : list item),
    (stale now it = true \/ f (poll_id it) (option_id it) = false) ->
    (forall x, x ∈ pre -> stale now x = false ->
               f (poll_id x) (option_id x) = false) ->
    forall x, x ∈ it :: pre -> stale now x = false ->
              f (poll_id x) (option_id x) = false) as Hfront.
  { intros it pre Hit Hpre x Hx Hst.
    apply elem_of_cons in Hx as [->|Hx]; [|exact (Hpre x Hx Hst)].
    destruct Hit as [Hit|Hit]; [congruence|exact Hit]. }
  induction items as [|it rest IH]; intros idx a a' Hrun; simpl in Hrun.
  - discriminate.
  - destruct (stale now it) eqn:Hst.
    { apply IH in Hrun as (pre & post & mj & -> & Hpost & Hpre & Hdb & Hsend & Hm).
      exists (it :: pre), post, mj. simpl in *.
      rewrite filter_cons_False
        by (unfold delivered; rewrite Hst; discriminate).
      split; [reflexivity|]. split; [exact Hpost|].
      split; [apply Hfront; [left; exact Hst|exact Hpre]|]. auto. }
    destruct (f (poll_id it) (option_id it)) eqn:Hf.
    { injection Hrun as <-. apply (Hhere a idx). }
    assert (forall b, deliverable (scan_db a) it = b ->
                      delivered now (scan_db a) it = b) as Hcase.
    { intros b Hb. unfold delivered. rewrite Hst, Hb. reflexivity. }
    destruct (select_trade (scan_db a) (poll_id it) (option_id it))
      as [[[url q] o]|] eqn:Hsel.
    + destruct (decide (url = "")) as [Hu|Hu].
      * assert (delivered now (scan_db a) it = false) as Hd.
        { apply Hcase. unfold deliverable. rewrite Hsel.
          rewrite bool_decide_eq_true_2 by exact Hu. reflexivity. }
        apply IH in Hrun
          as (pre & post & mj & -> & Hpost & Hpre & Hdb & Hsend & Hm).
        exists (it :: pre), post, mj.
        rewrite filter_cons_False by (rewrite Hd; discriminate).
        split; [reflexivity|]. split; [exact Hpost|].
        split; [apply Hfront; [right; exact Hf|exact Hpre]|]. auto.
      * assert (delivered now (scan_db a) it = true) as Hd.
        { apply Hcase. unfold deliverable. rewrite Hsel.
          rewrite bool_decide_eq_false_2 by exact Hu. reflexivity. }
        destruct (insert_token _ (scan_db a)) as [d'|] eqn:Hins.
        -- apply insert_token_Some in Hins as [-> _].
           apply IH in Hrun
             as (pre & post & mj & -> & Hpost & Hpre & Hdb & Hsend & Hm).
           simpl in Hdb, Hsend, Hm.
           eexists (it :: pre), post, ((mint_row E now cts it a, _) :: mj).
           rewrite filter_cons_True by exact Hd. simpl.
           split; [reflexivity|]. split; [exact Hpost|].
           split; [apply Hfront; [right; exact Hf|exact Hpre]|].
           split; [rewrite Hdb, <- app_assoc; reflexivity|].
           split; [rewrite Hsend, <- app_assoc; reflexivity|].
           constructor; [|exact Hm]. repeat split; reflexivity.
        -- injection Hrun as <-.
           destruct (Hhere a idx it rest)
             as (pre & post & mj & Hi & Hpost & Hpre & Hdb & Hsend & Hm).
           exists pre, post, mj. simpl. auto 10.
    + assert (delivered now (scan_db a) it = false) as Hd.
      { apply Hcase. unfold deliverable. rewrite Hsel. reflexivity. }
      apply IH in Hrun
        as (pre & post & mj & -> & Hpost & Hpre & Hdb & Hsend & Hm).
      exists (it :: pre), post, mj.
      rewrite filter_cons_False by (rewrite Hd; discriminate).
      split; [reflexivity|]. split; [exact Hpost|].
      split; [apply Hfront; [right; exact Hf|exact Hpre]|]. auto.
Qed.

Lemma scan_locked_queue (st : state) :
  SEND_QUEUE (scan_locked E f now cts st) = SEND_QUEUE st.
Proof. unfold scan_locked. destruct (scan_pass E f now cts st); reflexivity. Qed.

(** The state a completed pass leaves. *)
Lemma scan_locked_done (st : state) (a : scan_acc) :
  scan_pass E f now cts st = ScanDone a ->
  exists mj : list (token_row * send_job),
    PENDING_DELIVERY (scan_locked E f now cts st) =
      filter (fun it => removable now (DB st) it = false) (PENDING_DELIVERY st) /\
    DB (scan_locked E f now cts st) =
      set_UploadToken (UploadToken (DB st) ++ mj.*1) (DB st) /\
    to_send_buf (scan_locked E f now cts st) = mj.*2 /\
    SEND_QUEUE (scan_locked E f now cts st) = SEND_QUEUE st /\
    scanner_alive (scan_locked E f now cts st) = scanner_alive st /\
    Forall2 (minted E now)
      (filter (fun it => delivered now (DB st) it = true) (PENDING_DELIVERY st))
      mj.
Proof.
  intros Hpass. unfold scan_locked. rewrite Hpass. simpl.
  apply scan_loop_done in Hpass as (mj & Hrm & Hdb & Hsend & _ & Hm & _).
  simpl in *. exists mj. rewrite Hrm.
  rewrite pop_all_marked_0.
  auto 10.
Qed.

End Pass.

Lemma stale_spec (now : Z) (it : item) :
  stale now it = true <-> now - added_at it > timedelta_days 5.
Proof. unfold stale, TTL. apply bool_decide_eq_true. Qed.

(** ** The time-to-live of a pending item *)

(** C5, as the code has it.  In a pass that runs to its end, an item that
    is older than five days at the time [now] of the pass is gone from
    [PENDING_DELIVERY] afterwards, whether or not there is something to
    send for its option.  The rows the pass adds to [UploadToken] and the
    jobs it puts on [SEND_QUEUE] are, one for one and in order, those made
    for the items that are not stale and have something to send: none is
    made for a stale item. *)
Theorem stale_item_dropped_silently (E : env) (f : Z -> Z -> bool)
    (now cts : Z) (st : state) (a : scan_acc) (old : item) :
  scan_pass E f now cts st = ScanDone a ->
  old ∈ PENDING_DELIVERY st ->
  now - added_at old > timedelta_days 5 ->
  (old ∉ PENDING_DELIVERY (trade_delivery_iteration E f now cts st)) /\
  exists mj : list (token_row * send_job),
    SEND_QUEUE (trade_delivery_iteration E f now cts st) =
      SEND_QUEUE st ++ mj.*2 /\
    UploadToken (DB (trade_delivery_iteration E f now cts st)) =
      UploadToken (DB st) ++ mj.*1 /\
    Forall2 (minted E now)
      (filter (fun it => stale now it = false /\ deliverable (DB st) it = true)
              (PENDING_DELIVERY st)) mj /\
    (old ∉ filter (fun it => stale now it = false /\
                                    deliverable (DB st) it = true)
                  (PENDING_DELIVERY st)).
Proof.
  intros Hpass Hin Hold. apply stale_spec in Hold.
  destruct (scan_locked_done E f now cts st a Hpass)
    as (mj & Hpend & Hdb & Hbuf & Hq & _ & Hm).
  unfold trade_delivery_iteration, scan_put_all. simpl.
  split.
  - rewrite Hpend. intros Hkept. apply list_elem_of_filter in Hkept as [Hk _].
    unfold removable in Hk. rewrite Hold in Hk. discriminate.
  - exists mj. rewrite Hq, Hbuf, Hdb. simpl.
    split; [reflexivity|]. split; [reflexivity|]. split.
    + erewrite list_filter_iff; [exact Hm|].
      intros it. unfold delivered. simpl.
      destruct (stale now it), (deliverable (DB st) it); simpl; intuition congruence.
    + intros Hx. apply list_elem_of_filter in Hx as [[Hx _] _]. congruence.
Qed.

Lemma stale_item_dropped_silently_witness :
  let st :=
    set_pending [demo_item 1 2 100 0; demo_item 1 2 101 (timedelta_days 5)]
      demo_start in
  let now := timedelta_days 5 + usec_per_sec in
  (demo_item 1 2 100 0 ∉
     PENDING_DELIVERY (trade_delivery_iteration demo_env no_fault now 432001 st)) /\
  j_user_id <$> SEND_QUEUE (trade_delivery_iteration demo_env no_fault now 432001 st)
    = [101].
Proof.
  intros st now.
  assert (exists a, scan_pass demo_env no_fault now 432001 st = ScanDone a)
    as [a Ha] by (eexists; vm_compute; reflexivity).
  destruct (stale_item_dropped_silently demo_env no_fault now 432001 st a
              (demo_item 1 2 100 0) Ha) as [Hgone _].
  - apply list_elem_of_here.
  - vm_compute. reflexivity.
  - split; [exact Hgone | vm_compute; reflexivity].
Defined.

(** C5, as the claim has it, fails: the pass only records the index of a
    stale item; the removals are applied after the loop.  Here the item of
    user 100 is older than five days, the lookup for the item behind it
    raises, and the stale item is still pending after the iteration. *)
Lemma stale_item_kept_when_pass_raises : ~ stale_items_always_removed.
Proof.
  intros H.
  apply (H demo_env fault_on_9 (timedelta_days 5 + usec_per_sec) 432001
           (set_pending [demo_item 1 2 100 0;
                         demo_item 9 9 101 (timedelta_days 5)] demo_start)
           (demo_item 1 2 100 0)).
  - apply list_elem_of_here.
  - vm_compute. reflexivity.
  - vm_compute. apply list_elem_of_here.
Qed.

(** ** A lookup that raises *)

(** C3, as the code has it.  When the artifact lookup raises for an item
    the pass gets to, the exception leaves the loop and the thread.  The
    pass has stopped at an item that is the failing one or lies in front
    of it: the items from there on are not processed, so that the rows
    added to [UploadToken] are, one for one, those minted for the items in
    front of it that had something to send, and the database is otherwise
    as it was.  The pending list is exactly what it was before the pass
    (the failing item is still pending, and so is every other item),
    nothing reaches [SEND_QUEUE], not even the jobs built for the tokens
    minted in this pass, and the scanner thread has ended, so no later pass
    starts. *)
Theorem lookup_failure_ends_scanner (E : env) (f : Z -> Z -> bool)
    (now cts : Z) (st : state) (bad : item) :
  bad ∈ PENDING_DELIVERY st ->
  stale now bad = false ->
  f (poll_id bad) (option_id bad) = true ->
  PENDING_DELIVERY (trade_delivery_iteration E f now cts st) =
    PENDING_DELIVERY st /\
  SEND_QUEUE (trade_delivery_iteration E f now cts st) = SEND_QUEUE st /\
  scanner_alive (trade_delivery_iteration E f now cts st) = false /\
  (forall (f' : Z -> Z -> bool) (now' cts' : Z),
     step E (ScanLocked f' now' cts') (trade_delivery_iteration E f now cts st)
     = None) /\
  exists (pre post : list item) (mj : list (token_row * send_job)),
    PENDING_DELIVERY st = pre ++ post /\
    bad ∈ post /\
    DB (trade_delivery_iteration E f now cts st) =
      set_UploadToken (UploadToken (DB st) ++ mj.*1) (DB st) /\
    Forall2 (minted E now)
      (filter (fun it => delivered now (DB st) it = true) pre) mj.
Proof.
  intros Hin Hfresh Hbad.
  destruct (scan_loop_raises E f now cts _ bad Hin Hfresh Hbad 0%nat
              (scan_start st)) as [a' Hr].
  destruct (scan_loop_stops E f now cts _ _ _ _ Hr)
    as (pre & post & mj & Hitems & _ & Hpre & Hdb & _ & Hm).
  unfold trade_delivery_iteration, scan_put_all, scan_locked, scan_pass.
  rewrite Hr. simpl. rewrite app_nil_r.
  split; [reflexivity|]. split; [reflexivity|]. split; [reflexivity|].
  split; [reflexivity|].
  exists pre, post, mj. split; [exact Hitems|]. split.
  - rewrite Hitems in Hin. apply elem_of_app in Hin as [Hin|Hin]; [|exact Hin].
    specialize (Hpre bad Hin Hfresh). congruence.
  - split; [exact Hdb|exact Hm].
Qed.

Lemma lookup_failure_ends_scanner_witness :
  let st := set_pending [demo_item 1 2 101 0; demo_item 9 9 100 0;
                         demo_item 1 2 102 0] demo_start in
  PENDING_DELIVERY (trade_delivery_iteration demo_env fault_on_9 one_day 86400 st)
    = [demo_item 1 2 101 0; demo_item 9 9 100 0; demo_item 1 2 102 0] /\
  scanner_alive (trade_delivery_iteration demo_env fault_on_9 one_day 86400 st)
    = false /\
  SEND_QUEUE (trade_delivery_iteration demo_env fault_on_9 one_day 86400 st)
    = [] /\
  t_user_id <$>
    UploadToken (DB (trade_delivery_iteration demo_env fault_on_9 one_day 86400 st))
    = [101].
Proof.
  intros st.
  destruct (lookup_failure_ends_scanner demo_env fault_on_9 one_day 86400 st
              (demo_item 9 9 100 0)) as (Hp & Hq & Ha & _ & _).
  - apply list_elem_of_further, list_elem_of_here.
  - vm_compute. reflexivity.
  - vm_compute. reflexivity.
  - split; [exact Hp|]. split; [exact Ha|]. split; [exact Hq|].
    vm_compute. reflexivity.
Defined.

(** C3, as the claim has it, fails: with the lookups of poll 9 raising,
    the pass over the items of polls 9 and 1 ends the scanner thread, and
    the item of poll 1, whose screenshot is in place, is not delivered. *)
Lemma lookup_failure_not_isolated : ~ lookup_failures_isolated.
Proof.
  intros H.
  destruct (H demo_env fault_on_9 one_day 86400
              (set_pending [demo_item 9 9 100 0; demo_item 1 2 101 0] demo_start)
              eq_refl) as [Halive _].
  vm_compute in Halive. discriminate.
Qed.

(** ** Draining *)

Section Draining.

Variable W : outside.

Lemma drain_send_all (q : list send_job) :
  forall done : list send_photo_call,
  (forall j, j ∈ q -> send_photo_raises W (photo_call W j) = false) ->
  drain_send_queue W q done =
    {| remaining := []; dispatched := done ++ (photo_call W <$> q);
       raised := false |}.
Proof.
  induction q as [|j q IH]; intros done Hok; simpl.
  - rewrite app_nil_r. reflexivity.
  - rewrite (Hok j) by apply list_elem_of_here.
    rewrite IH, <- app_assoc; [reflexivity|].
    intros j' Hj'. apply Hok. apply list_elem_of_further. exact Hj'.
Qed.

Lemma drain_send_fails (pre : list send_job) (j : send_job)
    (post : list send_job) :
  forall done : list send_photo_call,
  (forall j', j' ∈ pre -> send_photo_raises W (photo_call W j') = false) ->
  send_photo_raises W (photo_call W j) = true ->
  drain_send_queue W (pre ++ j :: post) done =
    {| remaining := post; dispatched := done ++ (photo_call W <$> pre);
       raised := true |}.
Proof.
  induction pre as [|j0 pre IH]; intros done Hok Hbad; simpl.
  - rewrite Hbad, app_nil_r. reflexivity.
  - rewrite (Hok j0) by apply list_elem_of_here.
    rewrite IH, <- app_assoc; [reflexivity| |exact Hbad].
    intros j' Hj'. apply Hok. apply list_elem_of_further. exact Hj'.
Qed.




End Draining.

(** C4, as the code has it.  When the dispatch of a job raises, the drain
    tick ends there: the jobs in front of it have been dispatched, in
    order; the jobs behind it are not dispatched in this tick and stay on
    the queue, in order; the failed job has been taken off the queue and
    is not put back. *)
Theorem failed_dispatch_ends_tick (W : outside) (pre : list send_job)
    (j : send_job) (post : list send_job) :
  (forall j', j' ∈ pre -> send_photo_raises W (photo_call W j') = false) ->
  send_photo_raises W (photo_call W j) = true ->
  drain_send_queue W (pre ++ j :: post) [] =
    {| remaining := post; dispatched := photo_call W <$> pre; raised := true |}.
Proof.
  intros Hok Hbad. exact (drain_send_fails W pre j post [] Hok Hbad).
Qed.

Lemma failed_dispatch_ends_tick_witness :
  drain_send_queue blocked_by_7 ([demo_job 5] ++ demo_job 7 :: [demo_job 8]) [] =
    {| remaining := [demo_job 8];
       dispatched := photo_call blocked_by_7 <$> [demo_job 5];
       raised := true |}.
Proof.
  apply (failed_dispatch_ends_tick blocked_by_7 [demo_job 5] (demo_job 7)
           [demo_job 8]).
  - intros j' Hj'. apply list_elem_of_singleton in Hj'. subst j'.
    vm_compute. reflexivity.
  - vm_compute. reflexivity.
Defined.

(** C4, as the claim has it, fails: user 7 has blocked the sender, and the
    job for user 8 queued behind the one for user 7 is not dispatched in
    the tick. *)
Lemma failed_dispatch_not_isolated : ~ dispatch_failures_isolated.
Proof.
  intros H.
  specialize (H blocked_by_7 [demo_job 7; demo_job 8] (demo_job 8)).
  simpl in H. apply elem_of_nil in H; [exact H| |reflexivity].
  apply list_elem_of_further, list_elem_of_here.
Qed.






(** ** Tokens: expiry and rejection *)

Lemma two_days_in_seconds (now : Z) :
  strftime_sql (now + timedelta_days 2) = strftime_sql now + 2 * 86400.
Proof.
  unfold strftime_sql, timedelta_days, usec_per_sec.
  replace (now + 2 * 86400 * 1000000) with (now + (2 * 86400) * 1000000) by lia.
  rewrite Z.div_add by lia. reflexivity.
Qed.

Lemma select_valid_token_None (d : db) (token : string) (cts : Z) :
  (forall r, r ∈ UploadToken d -> t_token r = token ->
             t_used_at r <> None \/ t_expires_at r <= cts) ->
  select_valid_token d token cts = None.
Proof.
  intros Hbad. unfold select_valid_token.
  destruct (filter _ (UploadToken d)) as [|r rs] eqn:Hf; [reflexivity|].
  assert (r ∈ filter (fun t => t_token t = token /\ t_used_at t = None /\
                               t_expires_at t > cts) (UploadToken d)) as Hin
    by (rewrite Hf; apply list_elem_of_here).
  apply list_elem_of_filter in Hin as [(Ht & Hu & He) Hin].
  destruct (Hbad r Hin Ht) as [?|?]; [contradiction|lia].
Qed.

Lemma upload_rejected (E : env) (token : string) (file : option string)
    (now cts : Z) (st : state) :
  (forall r, r ∈ UploadToken (DB st) -> t_token r = token ->
             t_used_at r <> None \/ t_expires_at r <= cts) ->
  ui_upload_submit E token file now cts st = (st, 410).
Proof.
  intros Hbad. unfold ui_upload_submit, upload_validate.
  rewrite (select_valid_token_None _ _ _ Hbad). reflexivity.
Qed.

(** C6.  A row the scanner adds to [UploadToken] in a pass at time [now]
    expires two days after [now] (in the seconds of the stored text) and is
    unused.  A submission with a token whose rows are all used, or expired
    at the database clock ([expires_at <= CURRENT_TIMESTAMP]), gets status
    410 and changes nothing; so does a submission one second after the
    expiry of the token. *)
Theorem token_expires_after_two_days (E : env) (f : Z -> Z -> bool)
    (now cts : Z) (st : state) (token : string) (file : option string)
    (unow ucts : Z) :
  (forall r, r ∈ UploadToken (DB st) -> t_token r = token ->
             t_used_at r <> None \/ t_expires_at r <= ucts) ->
  (forall r, r ∈ UploadToken (DB (scan_locked E f now cts st)) ->
     r ∈ UploadToken (DB st) \/
     (t_expires_at r = strftime_sql now + 2 * 86400 /\ t_used_at r = None)) /\
  ui_upload_submit E token file unow ucts st = (st, 410) /\
  (forall r, r ∈ UploadToken (DB st) ->
     NoDup (t_token <$> UploadToken (DB st)) ->
     ui_upload_submit E (t_token r) file unow (t_expires_at r + 1) st = (st, 410)).
Proof.
  intros Hbad. split; [|split].
  - intros r Hr.
    destruct (scan_locked_db E f now cts st) as (rows & Hdb & Hrows & _ & _).
    rewrite Hdb in Hr. simpl in Hr.
    apply elem_of_app in Hr as [Hr|Hr]; [left; exact Hr|right].
    rewrite Forall_forall in Hrows. destruct (Hrows r Hr) as [He Hu].
    rewrite <- two_days_in_seconds. auto.
  - apply upload_rejected. exact Hbad.
  - intros r Hr Hnd. apply upload_rejected.
    intros r' Hr' Htok. right.
    assert (r' = r) as ->; [|lia].
    apply list_elem_of_lookup in Hr as [i Hi].
    apply list_elem_of_lookup in Hr' as [i' Hi'].
    assert (i' = i) as ->; [|congruence].
    eapply NoDup_lookup; [exact Hnd| |].
    + rewrite list_lookup_fmap, Hi'. reflexivity.
    + rewrite list_lookup_fmap, Hi. simpl. congruence.
Qed.

Lemma token_expires_after_two_days_witness :
  let st := set_pending [demo_item 1 2 100 0] demo_start in
  let st' := trade_delivery_iteration demo_env no_fault one_day 86400 st in
  t_expires_at <$> UploadToken (DB st') = [3 * 86400] /\
  ui_upload_submit demo_env "tok0" (Some "shot.png") 0 (3 * 86400 + 1) st'
    = (st', 410).
Proof.
  intros st st'.
  destruct (token_expires_after_two_days demo_env no_fault one_day 86400 st'
              "tok0" (Some "shot.png") 0 (3 * 86400 + 1)) as (_ & Hrej & _).
  - intros r Hr _. right. vm_compute in Hr.
    apply list_elem_of_singleton in Hr. subst r. vm_compute. discriminate.
  - split; [vm_compute; reflexivity | exact Hrej].
Defined.

(** ** The upload link *)

Lemma upload_url_base (E : env) (token : string) :
  upload_url E token = baseUrl E +:+ "/upload/" +:+ token.
Proof.
  unfold upload_url, baseUrl. rewrite string_app_assoc. reflexivity.
Qed.

Lemma minted_linked (E : env) (now : Z) (it : item) (rj : token_row * send_job) :
  minted E now it rj -> linked E it rj.
Proof.
  intros (Hsel & _ & _ & Hu & Hurl).
  split; [exact Hsel|]. split; [exact Hu|].
  split; [rewrite Hurl, upload_url_base; reflexivity|exact Hurl].
Qed.

(** C8.  The rows an iteration adds to [UploadToken] are minted, one for
    one and in order, for pending items that are not stale and have
    something to send (all of them when the pass runs to its end, those in
    front of the item at which it stops otherwise).  The job built with
    each of these tokens is for the user of that very selection, and its
    link is [{baseUrl}/upload/{token}] with the token of that row, where
    [baseUrl] is [PUBLIC_BASE_URL] followed by [/ui]: written out, the
    link is [{PUBLIC_BASE_URL}/ui/upload/{token}].  When the pass runs
    to its end these jobs are what the iteration puts on [SEND_QUEUE], in
    order; when it is left by an exception none of them is. *)
Theorem upload_link_format (E : env) (f : Z -> Z -> bool) (now cts : Z)
    (st : state) :
  exists (served : list item) (mj : list (token_row * send_job)),
    served `prefix_of`
      filter (fun it => delivered now (DB st) it = true) (PENDING_DELIVERY st) /\
    UploadToken (DB (trade_delivery_iteration E f now cts st)) =
      UploadToken (DB st) ++ mj.*1 /\
    Forall2 (linked E) served mj /\
    (SEND_QUEUE (trade_delivery_iteration E f now cts st) =
       SEND_QUEUE st ++ mj.*2 \/
     (SEND_QUEUE (trade_delivery_iteration E f now cts st) = SEND_QUEUE st /\
      scanner_alive (trade_delivery_iteration E f now cts st) = false)).
Proof.
  destruct (scan_pass E f now cts st) as [a|a] eqn:Hpass.
  - destruct (scan_locked_done E f now cts st a Hpass)
      as (mj & _ & Hdb & Hbuf & Hq & _ & Hm).
    exists (filter (fun it => delivered now (DB st) it = true)
                   (PENDING_DELIVERY st)), mj.
    unfold trade_delivery_iteration, scan_put_all. simpl.
    rewrite Hdb, Hq, Hbuf. simpl.
    split; [reflexivity|]. split; [reflexivity|]. split.
    + eapply Forall2_impl; [exact Hm|]. apply minted_linked.
    + left. reflexivity.
  - unfold scan_pass in Hpass.
    destruct (scan_loop_stops E f now cts _ _ _ _ Hpass)
      as (pre & post & mj & Hitems & _ & _ & Hdb & _ & Hm).
    exists (filter (fun it => delivered now (DB st) it = true) pre), mj.
    unfold trade_delivery_iteration, scan_put_all, scan_locked, scan_pass.
    rewrite Hpass. simpl. rewrite Hdb, app_nil_r. simpl.
    split; [rewrite Hitems, filter_app; apply prefix_app_r; reflexivity|].
    split; [reflexivity|]. split.
    + eapply Forall2_impl; [exact Hm|]. apply minted_linked.
    + right. split; reflexivity.
Qed.

(** ** A submission without a file *)

(** C10.  A submission that presents a valid token but no file (no [file]
    part, or one with an empty file name) gets status 400 and leaves the
    state as it was: the token is still valid, and [OptionExecution] and
    the upload directory are untouched. *)
Theorem upload_without_file_changes_nothing (E : env) (token : string)
    (file : option string) (now cts : Z) (st : state) (row : token_row) :
  select_valid_token (DB st) token cts = Some row ->
  file = None \/ file = Some "" ->
  ui_upload_submit E token file now cts st = (st, 400) /\
  select_valid_token (DB (ui_upload_submit E token file now cts st).1) token cts
    = Some row /\
  OptionExecution (DB (ui_upload_submit E token file now cts st).1)
    = OptionExecution (DB st) /\
  saved_files (ui_upload_submit E token file now cts st).1 = saved_files st.
Proof.
  intros Hvalid Hfile.
  assert (ui_upload_submit E token file now cts st = (st, 400)) as Heq.
  { unfold ui_upload_submit, upload_validate. rewrite Hvalid.
    destruct Hfile as [-> | ->]; reflexivity. }
  rewrite Heq. simpl. auto.
Qed.

Lemma upload_without_file_changes_nothing_witness :
  let st := trade_delivery_iteration demo_env no_fault one_day 86400
              (set_pending [demo_item 1 2 100 0] demo_start) in
  ui_upload_submit demo_env "tok0" None 0 90000 st = (st, 400).
Proof.
  intros st.
  assert (exists row, select_valid_token (DB st) "tok0" 90000 = Some row)
    as [row Hrow] by (eexists; vm_compute; reflexivity).
  destruct (upload_without_file_changes_nothing demo_env "tok0" None 0 90000
              st row Hrow) as [Heq _].
  - left. reflexivity.
  - exact Heq.
Defined.

(** ** Invariants of the pipeline *)

Lemma pending_exists_spec (key : selection) (pending : list item) :
  pending_exists key pending = true <-> key ∈ item_selection <$> pending.
Proof.
  unfold pending_exists. rewrite existsb_exists. split.
  - intros (it & Hin & Heq). apply bool_decide_eq_true in Heq. subst key.
    apply list_elem_of_fmap. exists it. split; [reflexivity|].
    apply list_elem_of_In. exact Hin.
  - intros Hin. apply list_elem_of_fmap in Hin as (it & -> & Hin).
    exists it. split; [apply list_elem_of_In; exact Hin|].
    apply bool_decide_eq_true. reflexivity.
Qed.

Lemma confirm_handler_pending (pid oid : Z) (yn : string) (uid t : Z)
    (st : state) :
  PENDING_DELIVERY (confirm_handler pid oid yn uid t st) = PENDING_DELIVERY st \/
  (((pid, oid, uid) ∉ item_selection <$> PENDING_DELIVERY st) /\
   PENDING_DELIVERY (confirm_handler pid oid yn uid t st) =
     PENDING_DELIVERY st ++
       [{| poll_id := pid; option_id := oid; user_id := uid; added_at := t |}]).
Proof.
  unfold confirm_handler.
  destruct (decide _); [|left; reflexivity]. simpl.
  destruct (pending_exists _ _) eqn:Hex; [left; reflexivity|right].
  split; [|reflexivity].
  intros Hin. apply pending_exists_spec in Hin. congruence.
Qed.

Lemma confirm_handler_present (pid oid : Z) (yn : string) (uid t : Z)
    (st : state) :
  (pid, oid, uid) ∈ item_selection <$> PENDING_DELIVERY st ->
  PENDING_DELIVERY (confirm_handler pid oid yn uid t st) = PENDING_DELIVERY st.
Proof.
  intros Hin.
  destruct (confirm_handler_pending pid oid yn uid t st) as [H|[H _]];
    [exact H|contradiction].
Qed.

Lemma confirm_handler_tables (pid oid : Z) (yn : string) (uid t : Z)
    (st : state) :
  UploadToken (DB (confirm_handler pid oid yn uid t st)) = UploadToken (DB st) /\
  OptionExecution (DB (confirm_handler pid oid yn uid t st)) =
    OptionExecution (DB st).
Proof.
  unfold confirm_handler.
  destruct (decide _); [|split; reflexivity]. simpl.
  destruct (pending_exists _ _); split; reflexivity.
Qed.

Lemma scan_locked_pending (E : env) (f : Z -> Z -> bool) (now cts : Z)
    (st : state) :
  sublist (PENDING_DELIVERY (scan_locked E f now cts st)) (PENDING_DELIVERY st).
Proof.
  destruct (scan_pass E f now cts st) as [a|a] eqn:Hpass.
  - destruct (scan_locked_done E f now cts st a Hpass) as (mj & -> & _).
    apply sublist_filter.
  - unfold scan_locked. rewrite Hpass. reflexivity.
Qed.

(** The upsert keeps one row per selection. *)
Lemma upsert_execution_keys (sel : selection) (url : string) (cts : Z)
    (rows : list exec_row) :
  (sel ∈ exec_selection <$> rows ->
   exec_selection <$> upsert_execution sel url cts rows = exec_selection <$> rows) /\
  (sel ∉ exec_selection <$> rows ->
   exec_selection <$> upsert_execution sel url cts rows =
     (exec_selection <$> rows) ++ [sel]).
Proof.
  unfold upsert_execution.
  destruct (existsb _ rows) eqn:Hex.
  - split; intros Hin.
    + rewrite <- list_fmap_compose. apply list_fmap_ext.
      intros i r _. simpl. destruct (decide _); reflexivity.
    + exfalso. apply Hin. apply existsb_exists in Hex as (r & Hr & Heq).
      apply bool_decide_eq_true in Heq. subst sel.
      apply list_elem_of_fmap. exists r. split; [reflexivity|].
      apply list_elem_of_In. exact Hr.
  - split; intros Hin.
    + exfalso. apply list_elem_of_fmap in Hin as (r & -> & Hr).
      assert (existsb (fun r0 => bool_decide (exec_selection r0 = exec_selection r))
                rows = true) as Habs; [|congruence].
      apply existsb_exists. exists r. split; [apply list_elem_of_In; exact Hr|].
      apply bool_decide_eq_true. reflexivity.
    + rewrite fmap_app. simpl. destruct sel as [[a b] c]. reflexivity.
Qed.

Lemma upsert_execution_NoDup (sel : selection) (url : string) (cts : Z)
    (rows : list exec_row) :
  NoDup (exec_selection <$> rows) ->
  NoDup (exec_selection <$> upsert_execution sel url cts rows).
Proof.
  intros Hnd.
  destruct (upsert_execution_keys sel url cts rows) as [Hin Hout].
  destruct (decide (sel ∈ exec_selection <$> rows)) as [H|H].
  - rewrite Hin by exact H. exact Hnd.
  - rewrite Hout by exact H. apply NoDup_app. split; [exact Hnd|]. split.
    + intros x Hx Hx'. apply list_elem_of_singleton in Hx'. subst x. auto.
    + apply NoDup_singleton.
Qed.

(** After the upsert, the row of the selection carries the new values. *)
Lemma upsert_execution_value (sel : selection) (url : string) (cts : Z)
    (rows : list exec_row) :
  (exists r, r ∈ upsert_execution sel url cts rows /\ exec_selection r = sel) /\
  (forall r, r ∈ upsert_execution sel url cts rows -> exec_selection r = sel ->
     e_screenshot_url r = url /\ e_created_at r = cts) /\
  (forall r, r ∈ upsert_execution sel url cts rows -> exec_selection r <> sel ->
     r ∈ rows).
Proof.
  unfold upsert_execution.
  destruct (existsb _ rows) eqn:Hex.
  - split; [|split].
    + apply existsb_exists in Hex as (r & Hr & Heq).
      apply bool_decide_eq_true in Heq.
      eexists. split.
      * apply list_elem_of_fmap. exists r. split; [reflexivity|].
        apply list_elem_of_In. exact Hr.
      * simpl. rewrite decide_True by exact Heq. exact Heq.
    + intros r Hr Hsel. apply list_elem_of_fmap in Hr as (r0 & -> & Hr0).
      simpl in *. destruct (decide (exec_selection r0 = sel)); [auto|].
      contradiction.
    + intros r Hr Hsel. apply list_elem_of_fmap in Hr as (r0 & -> & Hr0).
      simpl in *. destruct (decide (exec_selection r0 = sel)) as [He|He];
        [|exact Hr0].
      exfalso. apply Hsel. exact He.
  - assert (forall r, r ∈ rows -> exec_selection r <> sel) as Hno.
    { intros r Hr Heq.
      assert (existsb (fun r0 => bool_decide (exec_selection r0 = sel)) rows
              = true) as Habs; [|congruence].
      apply existsb_exists. exists r. split; [apply list_elem_of_In; exact Hr|].
      apply bool_decide_eq_true. exact Heq. }
    split; [|split].
    + eexists. split; [apply elem_of_app; right; apply list_elem_of_here|].
      destruct sel as [[a b] c]. reflexivity.
    + intros r Hr Hsel. apply elem_of_app in Hr as [Hr|Hr].
      * exfalso. exact (Hno r Hr Hsel).
      * apply list_elem_of_singleton in Hr. subst r. auto.
    + intros r Hr Hsel. apply elem_of_app in Hr as [Hr|Hr]; [exact Hr|].
      apply list_elem_of_singleton in Hr. subst r.
      exfalso. apply Hsel. destruct sel as [[a b] c]. reflexivity.
Qed.

Lemma mark_used_tokens (token : string) (cts : Z) (rows : list token_row) :
  t_token <$> mark_used token cts rows = t_token <$> rows.
Proof.
  unfold mark_used. rewrite <- list_fmap_compose. apply list_fmap_ext.
  intros i r _. simpl. destruct (decide _); reflexivity.
Qed.

(** The tables a submission writes. *)
Lemma ui_upload_submit_tables (E : env) (token : string) (file : option string)
    (now cts : Z) (st : state) :
  (ui_upload_submit E token file now cts st = (st, 410)) \/
  (ui_upload_submit E token file now cts st = (st, 400)) \/
  exists (row : token_row) (filename : string),
    select_valid_token (DB st) token cts = Some row /\
    file = Some filename /\ filename <> "" /\
    ui_upload_submit E token file now cts st =
      (upload_store E token row filename now cts st, 200).
Proof.
  unfold ui_upload_submit, upload_validate.
  destruct (select_valid_token (DB st) token cts) as [row|]; [|left; reflexivity].
  destruct file as [filename|]; [|right; left; reflexivity].
  destruct (decide (filename = "")); [right; left; reflexivity|].
  right; right. exists row, filename. auto.
Qed.

Lemma step_inv (E : env) (ev : event) (st st' : state) :
  pipeline_inv st -> step E ev st = Some st' -> pipeline_inv st'.
Proof.
  intros [Hp [Ht He]] Hstep. unfold pipeline_inv, keys_ok.
  destruct ev as [pid oid yn uid t|f now cts| |W|W|token file now cts|
                  polls options responses trades announce]; simpl in Hstep.
  - injection Hstep as <-.
    destruct (confirm_handler_tables pid oid yn uid t st) as [-> ->].
    split; [|split; assumption].
    destruct (confirm_handler_pending pid oid yn uid t st) as [->|[Hnew ->]];
      [exact Hp|].
    rewrite fmap_app. apply NoDup_app. split; [exact Hp|]. split.
    + intros x Hx Hx'. apply list_elem_of_singleton in Hx'. subst x.
      exact (Hnew Hx).
    + apply NoDup_singleton.
  - destruct (scanner_alive st); [|discriminate].
    destruct (to_send_buf st); [|discriminate].
    injection Hstep as <-. split; [|split].
    + eapply sublist_NoDup; [exact Hp|].
      apply fmap_sublist, scan_locked_pending.
    + destruct (scan_locked_db E f now cts st) as (rows & _ & _ & _ & Hnd).
      exact (Hnd Ht).
    + destruct (scan_locked_db E f now cts st) as (rows & -> & _). exact He.
  - destruct (to_send_buf st) eqn:Hbuf; [discriminate|].
    injection Hstep as <-. unfold scan_put. rewrite Hbuf. simpl. auto.
  - injection Hstep as <-. simpl. auto.
  - injection Hstep as <-. simpl. auto.
  - injection Hstep as <-.
    destruct (ui_upload_submit_tables E token file now cts st)
      as [->|[->|(row & filename & _ & _ & _ & ->)]]; simpl; auto.
    split; [exact Hp|]. split.
    + rewrite mark_used_tokens. exact Ht.
    + apply upsert_execution_NoDup. exact He.
  - injection Hstep as <-. simpl. auto.
Qed.

Lemma run_inv (E : env) (evs : list event) :
  forall st st' : state,
  pipeline_inv st -> run E evs st = Some st' -> pipeline_inv st'.
Proof.
  induction evs as [|ev evs IH]; intros st st' Hinv Hrun; simpl in Hrun.
  - injection Hrun as <-. exact Hinv.
  - destruct (step E ev st) as [st1|] eqn:Hstep; [|discriminate].
    eapply IH; [|exact Hrun]. eapply step_inv; eassumption.
Qed.

Lemma reachable_inv (E : env) (st : state) :
  reachable E st -> pipeline_inv st.
Proof.
  intros (st0 & evs & Hinit & Hrun).
  eapply run_inv; [|exact Hrun].
  destruct Hinit as (Hp & _ & _ & _ & _ & Hk).
  split; [rewrite Hp; constructor|exact Hk].
Qed.

Lemma NoDup_fmap_elem_eq {A B : Type} (g : A -> B) (l : list A) (x y : A) :
  NoDup (g <$> l) -> x ∈ l -> y ∈ l -> g x = g y -> x = y.
Proof.
  intros Hnd Hx Hy Heq.
  apply list_elem_of_lookup in Hx as [i Hi].
  apply list_elem_of_lookup in Hy as [k Hk].
  assert (i = k) as ->; [|congruence].
  eapply NoDup_lookup; [exact Hnd| |].
  - rewrite list_lookup_fmap, Hi. reflexivity.
  - rewrite list_lookup_fmap, Hk. simpl. congruence.
Qed.

Lemma demo_after_reachable (evs : list event) (st : state) :
  run demo_env evs demo_start = Some st -> reachable demo_env st.
Proof.
  intros Hrun. exists demo_start, evs. split; [|exact Hrun].
  repeat split; constructor.
Qed.

(** ** One execution proof per selection *)

(** C9.  In every reachable state [OptionExecution] has at most one row
    per [(poll_id, option_id, user_id)].  A submission that succeeds keeps
    it so: when the selection of its token already has a row, no row is
    added, and afterwards the row of that selection carries the
    [screenshot_url] and the [created_at] of this submission; the rows of
    other selections are those that were there. *)
Theorem one_execution_row_per_selection (E : env) (st : state)
    (token : string) (file : option string) (now cts : Z) :
  reachable E st ->
  (ui_upload_submit E token file now cts st).2 = 200 ->
  exists (row : token_row) (filename : string),
    select_valid_token (DB st) token cts = Some row /\
    file = Some filename /\
    NoDup (exec_selection <$> OptionExecution (DB st)) /\
    NoDup (exec_selection <$>
             OptionExecution (DB (ui_upload_submit E token file now cts st).1)) /\
    (token_selection row ∈ exec_selection <$> OptionExecution (DB st) ->
     exec_selection <$>
       OptionExecution (DB (ui_upload_submit E token file now cts st).1) =
     exec_selection <$> OptionExecution (DB st)) /\
    (exists r,
       r ∈ OptionExecution (DB (ui_upload_submit E token file now cts st).1) /\
       exec_selection r = token_selection row) /\
    (forall r,
       r ∈ OptionExecution (DB (ui_upload_submit E token file now cts st).1) ->
       exec_selection r = token_selection row ->
       e_screenshot_url r = "uploads/" +:+ saved_name E row now filename /\
       e_created_at r = cts) /\
    (forall r,
       r ∈ OptionExecution (DB (ui_upload_submit E token file now cts st).1) ->
       exec_selection r <> token_selection row ->
       r ∈ OptionExecution (DB st)).
Proof.
  intros Hreach Hok.
  destruct (reachable_inv E st Hreach) as [_ [_ He]].
  destruct (ui_upload_submit_tables E token file now cts st)
    as [Heq|[Heq|(row & filename & Hsel & Hfile & _ & Heq)]];
    rewrite Heq in Hok; simpl in Hok; try discriminate.
  rewrite Heq. simpl.
  exists row, filename.
  destruct (upsert_execution_keys (token_selection row)
              ("uploads/" +:+ saved_name E row now filename) cts
              (OptionExecution (DB st))) as [Hkeys _].
  destruct (upsert_execution_value (token_selection row)
              ("uploads/" +:+ saved_name E row now filename) cts
              (OptionExecution (DB st))) as (Hex & Hval & Hoth).
  split; [exact Hsel|]. split; [exact Hfile|]. split; [exact He|].
  split; [apply upsert_execution_NoDup; exact He|]. auto.
Qed.

Lemma one_execution_row_per_selection_witness :
  exec_selection <$>
    OptionExecution
      (DB (ui_upload_submit demo_env "tok1" (Some "b.png") (3 * one_day) 259200
             (demo_after demo_second_link)).1) = [(1, 2, 100)] /\
  exec_selection <$> OptionExecution (DB (demo_after demo_second_link))
    = [(1, 2, 100)].
Proof.
  assert (reachable demo_env (demo_after demo_second_link)) as Hreach.
  { apply (demo_after_reachable demo_second_link). vm_compute. reflexivity. }
  destruct (one_execution_row_per_selection demo_env
              (demo_after demo_second_link) "tok1" (Some "b.png")
              (3 * one_day) 259200 Hreach)
    as (row & filename & Hsel & _ & _ & _ & Hsame & _).
  - vm_compute. reflexivity.
  - assert (exec_selection <$> OptionExecution (DB (demo_after demo_second_link))
            = [(1, 2, 100)]) as Hbefore by (vm_compute; reflexivity).
    split; [|exact Hbefore].
    rewrite Hsame; [exact Hbefore|].
    vm_compute in Hsel. injection Hsel as <-.
    rewrite Hbefore. apply list_elem_of_here.
Defined.

(** ** Redeeming a token *)

Lemma elem_of_mark_used (token : string) (cts : Z) (rows : list token_row)
    (r : token_row) :
  r ∈ mark_used token cts rows ->
  exists r0, r0 ∈ rows /\ t_token r = t_token r0 /\
    ((t_token r0 = token /\ t_used_at r = Some cts) \/
     (t_token r0 <> token /\ r = r0)).
Proof.
  unfold mark_used. intros Hr.
  apply list_elem_of_fmap in Hr as (r0 & -> & Hr0).
  exists r0. split; [exact Hr0|].
  destruct (decide (t_token r0 = token)); simpl; auto.
Qed.

Lemma select_valid_token_Some (d : db) (token : string) (cts : Z)
    (row : token_row) :
  select_valid_token d token cts = Some row ->
  row ∈ UploadToken d /\ t_token row = token /\ t_used_at row = None /\
  t_expires_at row > cts.
Proof.
  unfold select_valid_token. intros Hsel.
  destruct (filter _ (UploadToken d)) as [|r rs] eqn:Hf; [discriminate|].
  injection Hsel as ->.
  assert (row ∈ filter (fun t => t_token t = token /\ t_used_at t = None /\
                                 t_expires_at t > cts) (UploadToken d)) as Hin
    by (rewrite Hf; apply list_elem_of_here).
  apply list_elem_of_filter in Hin as [(? & ? & ?) ?]. auto.
Qed.

Lemma spent_rejected (E : env) (token : string) (file : option string)
    (now cts : Z) (st : state) :
  spent (DB st) token ->
  ui_upload_submit E token file now cts st = (st, 410).
Proof.
  intros [_ Hused]. apply upload_rejected. intros r Hr Ht. left. auto.
Qed.

Lemma mark_used_spent (token token' : string) (cts : Z)
    (rows : list token_row) :
  ((exists r, r ∈ rows /\ t_token r = token) /\
   (token = token' \/
    forall r, r ∈ rows -> t_token r = token -> t_used_at r <> None)) ->
  (exists r, r ∈ mark_used token' cts rows /\ t_token r = token) /\
  forall r, r ∈ mark_used token' cts rows -> t_token r = token ->
            t_used_at r <> None.
Proof.
  intros [(r0 & Hr0 & Ht0) Hused]. split.
  - eexists. split.
    + unfold mark_used. apply list_elem_of_fmap. exists r0.
      split; [reflexivity|exact Hr0].
    + simpl. destruct (decide _); exact Ht0.
  - intros r Hr Ht.
    apply elem_of_mark_used in Hr as (r1 & Hr1 & Htok & [[Heq Hu]|[Hne ->]]).
    + rewrite Hu. discriminate.
    + destruct Hused as [->|Hused]; [congruence|]. apply Hused; assumption.
Qed.

(** A submission that succeeds spends its token. *)
Lemma success_spends (E : env) (token : string) (file : option string)
    (now cts : Z) (st : state) :
  (ui_upload_submit E token file now cts st).2 = 200 ->
  spent (DB (ui_upload_submit E token file now cts st).1) token.
Proof.
  intros Hok.
  destruct (ui_upload_submit_tables E token file now cts st)
    as [Heq|[Heq|(row & filename & Hsel & _ & _ & Heq)]];
    rewrite Heq in Hok; simpl in Hok; try discriminate.
  rewrite Heq. simpl.
  apply select_valid_token_Some in Hsel as (Hin & Ht & _).
  apply mark_used_spent. split; [eauto|left; reflexivity].
Qed.

(** No step of the pipeline makes a spent token valid again. *)
Lemma step_spent (E : env) (ev : event) (st st' : state) (token : string) :
  spent (DB st) token -> step E ev st = Some st' -> spent (DB st') token.
Proof.
  intros Hsp Hstep.
  destruct ev as [pid oid yn uid t|f now cts| |W|W|token' file now cts|
                  polls options responses trades announce]; simpl in Hstep.
  - injection Hstep as <-. unfold spent.
    destruct (confirm_handler_tables pid oid yn uid t st) as [-> _]. exact Hsp.
  - destruct (scanner_alive st); [|discriminate].
    destruct (to_send_buf st); [|discriminate].
    injection Hstep as <-.
    destruct (scan_locked_db E f now cts st) as (rows & Hdb & _ & Hnew & _).
    unfold spent. rewrite Hdb. simpl.
    destruct Hsp as [(r0 & Hr0 & Ht0) Hused]. split.
    + exists r0. split; [apply elem_of_app; left; exact Hr0|exact Ht0].
    + intros r Hr Ht. apply elem_of_app in Hr as [Hr|Hr]; [auto|].
      rewrite Forall_forall in Hnew. exfalso. apply (Hnew r Hr).
      rewrite Ht, <- Ht0. apply list_elem_of_fmap. eauto.
  - destruct (to_send_buf st) eqn:Hbuf; [discriminate|].
    injection Hstep as <-. unfold scan_put. rewrite Hbuf. exact Hsp.
  - injection Hstep as <-. exact Hsp.
  - injection Hstep as <-. exact Hsp.
  - injection Hstep as <-.
    destruct (ui_upload_submit_tables E token' file now cts st)
      as [->|[->|(row & filename & _ & _ & _ & ->)]]; simpl; try exact Hsp.
    apply mark_used_spent. destruct Hsp as [Hex Hused]. auto.
  - injection Hstep as <-. exact Hsp.
Qed.

Lemma spent_no_success (E : env) (token : string) (evs : list event) :
  forall st : state,
  spent (DB st) token -> (token, 200) ∉ upload_log E evs st.
Proof.
  induction evs as [|ev evs IH]; intros st Hsp Hin; simpl in Hin.
  - inversion Hin.
  - destruct (step E ev st) as [st'|] eqn:Hstep; [|inversion Hin].
    apply elem_of_app in Hin as [Hin|Hin].
    + destruct ev; try (inversion Hin; fail).
      apply list_elem_of_singleton in Hin. injection Hin as -> Hst.
      rewrite (spent_rejected E token0 file now current_timestamp st Hsp) in Hst.
      discriminate.
    + exact (IH st' (step_spent E ev st st' token Hsp Hstep) Hin).
Qed.

(** C1, as the code has it.  When the submissions are handled one after
    the other (each runs its validity query after the commit of the one
    before), at most one submission per token ever succeeds, whatever else
    the pipeline does in between; a submission that follows a successful
    one with the same token finds the token used and gets status 410,
    changing nothing. *)
Theorem one_redemption_when_not_overlapping (E : env) (token : string)
    (evs : list event) (st : state) :
  (length (filter (fun x => x = (token, 200%Z)) (upload_log E evs st)) <= 1)%nat /\
  (forall (file file' : option string) (now cts now' cts' : Z),
     (ui_upload_submit E token file now cts st).2 = 200 ->
     ui_upload_submit E token file' now' cts'
       (ui_upload_submit E token file now cts st).1 =
     ((ui_upload_submit E token file now cts st).1, 410)).
Proof.
  split.
  2: { intros file file' now cts now' cts' Hok.
       apply spent_rejected, success_spends, Hok. }
  revert st. induction evs as [|ev evs IH]; intros st; simpl.
  - lia.
  - destruct (step E ev st) as [st'|] eqn:Hstep; [|simpl; lia].
    rewrite filter_app, length_app.
    destruct ev as [pid oid yn uid t|f now cts| |W|W|token' file now cts|
                    polls options responses trades announce];
      try (simpl; apply IH).
    destruct (decide ((token', (ui_upload_submit E token' file now cts st).2)
                      = (token, 200))) as [Heq|Hne].
    + injection Heq as -> Hok.
      rewrite filter_cons_True by (rewrite Hok; reflexivity).
      rewrite filter_nil. simpl.
      simpl in Hstep. injection Hstep as <-.
      pose proof (success_spends E token file now cts st Hok) as Hsp.
      pose proof (spent_no_success E token evs _ Hsp) as Hno.
      destruct (filter _ (upload_log E evs _)) as [|x xs] eqn:Hf; [simpl; lia|].
      exfalso. apply Hno.
      assert (x ∈ filter (fun x => x = (token, 200))
                (upload_log E evs (ui_upload_submit E token file now cts st).1))
        as Hx by (rewrite Hf; apply list_elem_of_here).
      apply list_elem_of_filter in Hx as [-> Hx]. exact Hx.
    + rewrite filter_cons_False by exact Hne. rewrite filter_nil. simpl.
      apply IH.
Qed.

Lemma one_redemption_when_not_overlapping_witness :
  (ui_upload_submit demo_env "tok0" (Some "b.png") usec_per_sec 90001
     (ui_upload_submit demo_env "tok0" (Some "a.png") 0 90000
        (demo_after demo_delivery)).1).2 = 410.
Proof.
  destruct (one_redemption_when_not_overlapping demo_env "tok0" []
              (demo_after demo_delivery)) as [_ Hsecond].
  rewrite (Hsecond (Some "a.png") (Some "b.png") 0 90000 usec_per_sec 90001).
  - reflexivity.
  - vm_compute. reflexivity.
Defined.

(** C1, as the claim has it, fails: two submissions with the token [tok0]
    that both run their validity query before either commits both end with
    status 200. *)
Lemma two_overlapping_redemptions_succeed : ~ at_most_one_redemption.
Proof.
  intros H.
  specialize (H demo_env (demo_after demo_delivery) "tok0"
                (Some "a.png") (Some "b.png")
                [(0%nat, 0, 90000); (1%nat, 0, 90000);
                 (0%nat, usec_per_sec, 90001); (1%nat, 2 * usec_per_sec, 90002)]).
  vm_compute in H. lia.
Qed.

(** ** One pending entry and one job per selection *)

(** C2, as the code has it.  In every reachable state [PENDING_DELIVERY]
    holds at most one entry per selection, and confirming a selection that
    is pending leaves the list as it is.  The locked part of a pass does
    not touch [SEND_QUEUE]; the jobs it hands over to be put afterwards are
    made, one for one, for entries of distinct selections, and none of
    those selections is pending when the lock is released. *)
Theorem one_pending_entry_and_removal_before_put (E : env) (st : state) :
  reachable E st ->
  NoDup (item_selection <$> PENDING_DELIVERY st) /\
  (forall (pid oid : Z) (yn : string) (uid t : Z),
     (pid, oid, uid) ∈ item_selection <$> PENDING_DELIVERY st ->
     PENDING_DELIVERY (confirm_handler pid oid yn uid t st) =
       PENDING_DELIVERY st) /\
  (forall (f : Z -> Z -> bool) (now cts : Z),
     SEND_QUEUE (scan_locked E f now cts st) = SEND_QUEUE st /\
     exists (sent : list item) (mj : list (token_row * send_job)),
       to_send_buf (scan_locked E f now cts st) = mj.*2 /\
       Forall2 (minted E now) sent mj /\
       sublist sent (PENDING_DELIVERY st) /\
       NoDup (item_selection <$> sent) /\
       forall it, it ∈ sent ->
         item_selection it ∉
           item_selection <$> PENDING_DELIVERY (scan_locked E f now cts st)).
Proof.
  intros Hreach.
  destruct (reachable_inv E st Hreach) as [Hnd _].
  split; [exact Hnd|]. split.
  { intros pid oid yn uid t. apply confirm_handler_present. }
  intros f now cts. split; [apply scan_locked_queue|].
  destruct (scan_pass E f now cts st) as [a|a] eqn:Hpass.
  - destruct (scan_locked_done E f now cts st a Hpass)
      as (mj & Hpend & _ & Hbuf & _ & _ & Hm).
    exists (filter (fun it => delivered now (DB st) it = true)
                   (PENDING_DELIVERY st)), mj.
    split; [exact Hbuf|]. split; [exact Hm|].
    split; [apply sublist_filter|]. split.
    + eapply sublist_NoDup; [exact Hnd|].
      apply fmap_sublist, sublist_filter.
    + intros it Hit Hin. rewrite Hpend in Hin.
      apply list_elem_of_filter in Hit as [Hdel Hit].
      apply list_elem_of_fmap in Hin as (it' & Hkey & Hin').
      apply list_elem_of_filter in Hin' as [Hkeep Hin'].
      assert (it = it') as <-
        by exact (NoDup_fmap_elem_eq item_selection _ it it' Hnd Hit Hin' Hkey).
      unfold delivered in Hdel. unfold removable in Hkeep.
      destruct (stale now it), (deliverable (DB st) it); discriminate.
  - exists [], []. unfold scan_locked. rewrite Hpass. simpl.
    repeat split; try constructor.
    + apply sublist_nil_l.
    + intros it Hit. inversion Hit.
Qed.

Lemma one_pending_entry_and_removal_before_put_witness :
  NoDup (item_selection <$>
           PENDING_DELIVERY (demo_after [Confirm 1 2 "1" 100 0;
                                         Confirm 1 2 "1" 100 5])) /\
  SEND_QUEUE (scan_locked demo_env no_fault one_day 86400
                (demo_after [Confirm 1 2 "1" 100 0; Confirm 1 2 "1" 100 5]))
    = [].
Proof.
  destruct (one_pending_entry_and_removal_before_put demo_env
              (demo_after [Confirm 1 2 "1" 100 0; Confirm 1 2 "1" 100 5]))
    as (Hnd & _ & Hscan).
  - apply (demo_after_reachable [Confirm 1 2 "1" 100 0; Confirm 1 2 "1" 100 5]).
    vm_compute. reflexivity.
  - split; [exact Hnd|].
    destruct (Hscan no_fault one_day 86400) as [Hq _]. exact Hq.
Defined.

(** C2, as the claim has it, fails in its last part: user 100 confirms
    option 2 of poll 1, a pass hands the job over and puts it, the user
    confirms the same option again before [SEND_QUEUE] is drained, and the
    next pass puts a second job for the same selection. *)
Lemma two_jobs_for_one_selection : ~ one_outstanding_job_per_selection.
Proof.
  intros H.
  specialize (H demo_env (demo_after demo_delivered_twice) (1, 2, 100)).
  assert (reachable demo_env (demo_after demo_delivered_twice)) as Hreach.
  { apply (demo_after_reachable demo_delivered_twice). vm_compute. reflexivity. }
  specialize (H Hreach). vm_compute in H. lia.
Qed.

(** * The rest of [main.py]: properties *)

(** ** Strings *)

Lemma prefix_split (m s : string) :
  String.prefix m s = true -> s = m +:+ string_drop (String.length m) s.
Proof.
  revert s. induction m as [|c m IH]; intros s Hp; simpl.
  - destruct s; reflexivity.
  - destruct s as [|c' s]; simpl in Hp; [discriminate|].
    destruct (Ascii.ascii_dec c c') as [->|]; [|discriminate].
    rewrite app_String. f_equal. apply IH. exact Hp.
Qed.

Lemma prefix_app (m b : string) : String.prefix m (m +:+ b) = true.
Proof.
  induction m as [|c m IH]; rewrite ?app_String, ?app_Empty; simpl.
  - destruct b; reflexivity.
  - destruct (Ascii.ascii_dec c c); [exact IH|contradiction].
Qed.

Lemma string_drop_app (m b : string) :
  string_drop (String.length m) (m +:+ b) = b.
Proof.
  induction m as [|c m IH]; rewrite ?app_String, ?app_Empty; simpl;
    [reflexivity|exact IH].
Qed.

Lemma split_once_eq (m s : string) :
  split_once m s =
  if String.prefix m s
  then Some (EmptyString, string_drop (String.length m) s)
  else
    match s with
    | EmptyString => None
    | String c s' =>
        match split_once m s' with
        | Some (a, b) => Some (String c a, b)
        | None => None
        end
    end.
Proof. destruct s; reflexivity. Qed.

(** [split_once] finds an occurrence ... *)
Lemma split_once_Some (m s a b : string) :
  split_once m s = Some (a, b) -> s = a +:+ m +:+ b.
Proof.
  revert a b. induction s as [|c s IH]; intros a b; rewrite split_once_eq.
  - destruct (String.prefix m "") eqn:Hp; [|discriminate].
    intros [= <- <-]. rewrite app_Empty. exact (prefix_split m "" Hp).
  - destruct (String.prefix m (String c s)) eqn:Hp.
    + intros [= <- <-]. rewrite app_Empty.
      exact (prefix_split m (String c s) Hp).
    + destruct (split_once m s) as [[a' b']|]; [|discriminate].
      intros [= <- <-]. rewrite app_String. f_equal. apply IH. reflexivity.
Qed.

(** ... and misses none. *)
Lemma split_once_None (m s : string) :
  split_once m s = None -> forall a b, s <> a +:+ m +:+ b.
Proof.
  induction s as [|c s IH]; rewrite split_once_eq.
  - destruct (String.prefix m "") eqn:Hp; [discriminate|].
    intros _ a b Heq. destruct a; [|discriminate].
    rewrite app_Empty in Heq. rewrite Heq, prefix_app in Hp. discriminate.
  - destruct (String.prefix m (String c s)) eqn:Hp; [discriminate|].
    destruct (split_once m s) as [[a' b']|] eqn:Hs; [discriminate|].
    intros _ a b Heq. destruct a as [|c' a].
    + rewrite app_Empty in Heq. rewrite Heq, prefix_app in Hp. discriminate.
    + rewrite app_String in Heq. injection Heq as -> Heq.
      exact (IH eq_refl a b Heq).
Qed.

Lemma count_slash_app (a b : string) :
  count_slash (a +:+ b) = (count_slash a + count_slash b)%nat.
Proof.
  induction a as [|c a IH]; rewrite ?app_String, ?app_Empty; simpl;
    [reflexivity|].
  destruct (Ascii.eqb c slash); simpl; rewrite IH; reflexivity.
Qed.

(** The occurrence [split_once] finds is the first one. *)
Lemma split_once_first (m s a b : string) :
  split_once m s = Some (a, b) ->
  forall a' b', s = a' +:+ m +:+ b' -> (String.length a <= String.length a')%nat.
Proof.
  revert a b. induction s as [|c s IH]; intros a b; rewrite split_once_eq.
  - destruct (String.prefix m ""); [|discriminate].
    intros [= <- <-] a' b' _. simpl. lia.
  - destruct (String.prefix m (String c s)) eqn:Hp.
    + intros [= <- <-] a' b' _. simpl. lia.
    + destruct (split_once m s) as [[a0 b0]|] eqn:Hs; [|discriminate].
      intros [= <- <-] a' b' Heq. destruct a' as [|c' a'].
      * rewrite app_Empty in Heq. rewrite Heq, prefix_app in Hp. discriminate.
      * rewrite app_String in Heq. injection Heq as -> Heq.
        simpl. apply le_n_S. exact (IH a0 b0 eq_refl a' b' Heq).
Qed.

Lemma prefix_slash (c : ascii) (rel : string) :
  String.prefix "/" (String c rel) = Ascii.eqb c slash.
Proof.
  change (String.prefix "/" (String c rel))
    with (if Ascii.ascii_dec "/" c then String.prefix "" rel else false).
  destruct (Ascii.ascii_dec "/" c) as [<-|Hne].
  - destruct rel; reflexivity.
  - destruct (Ascii.eqb_spec c slash) as [->|_]; [contradiction|reflexivity].
Qed.

Lemma path_join_uploads (rel : string) :
  path_join UPLOAD_DIR rel =
  if String.prefix "/" rel then rel else "uploads/" +:+ rel.
Proof.
  destruct rel as [|c rel]; [reflexivity|].
  rewrite prefix_slash. unfold path_join.
  destruct (Ascii.eqb c slash); reflexivity.
Qed.

(** ** Where a stored screenshot URL points *)

(** X1.  [_abs_path_from_url] gives nothing exactly for the empty string
    and for a string without [/api/uploads/].  Otherwise it takes the text
    [rel] behind the first [/api/uploads/] and gives [uploads/rel], unless
    [rel] begins with a slash: then it gives [rel] itself, a path that is
    not under the upload directory. *)
Theorem abs_path_from_url_spec (url : string) :
  match _abs_path_from_url url with
  | None => url = "" \/ forall a b, url <> a +:+ "/api/uploads/" +:+ b
  | Some p =>
      url <> "" /\
      exists a rel : string,
        url = a +:+ "/api/uploads/" +:+ rel /\
        (forall a' b', url = a' +:+ "/api/uploads/" +:+ b' ->
                       (String.length a <= String.length a')%nat) /\
        p = if String.prefix "/" rel then rel else "uploads/" +:+ rel
  end.
Proof.
  unfold _abs_path_from_url.
  destruct (decide (url = "")) as [->|Hne]; [left; reflexivity|].
  destruct (split_once "/api/uploads/" url) as [[a rel]|] eqn:Hs.
  - split; [exact Hne|]. exists a, rel.
    split; [exact (split_once_Some _ _ _ _ Hs)|].
    split; [exact (split_once_first _ _ _ _ Hs)|].
    apply path_join_uploads.
  - right. exact (split_once_None _ _ Hs).
Qed.

Lemma split_once_slashes (m s a b : string) :
  split_once m s = Some (a, b) -> (count_slash m <= count_slash s)%nat.
Proof.
  intros Hs. rewrite (split_once_Some m s a b Hs), !count_slash_app. lia.
Qed.

(** A URL under [uploads/] with a plain name has no [/api/uploads/]. *)
Lemma stored_url_not_resolved (name : string) :
  count_slash name = 0%nat ->
  _abs_path_from_url ("uploads/" +:+ name) = None.
Proof.
  intros Hname. unfold _abs_path_from_url.
  destruct (decide _) as [|_]; [reflexivity|].
  destruct (split_once "/api/uploads/" ("uploads/" +:+ name))
    as [[a rel]|] eqn:Hs; [|reflexivity].
  apply split_once_slashes in Hs.
  rewrite count_slash_app, Hname in Hs. simpl in Hs. lia.
Qed.

(** ** File names *)

Lemma count_slash_digit (x : N) (s : string) :
  count_slash (String (pretty_N_char x) s) = count_slash s.
Proof. unfold pretty_N_char. repeat case_match; reflexivity. Qed.

Lemma pretty_N_go_no_slash (x : N) :
  forall s, count_slash s = 0%nat -> count_slash (pretty_N_go x s) = 0%nat.
Proof.
  induction (N.lt_wf_0 x) as [x _ IH]; intros s Hs.
  assert (x = 0 \/ 0 < x)%N as [->|Hpos] by lia.
  - rewrite pretty_N_go_0. exact Hs.
  - rewrite pretty_N_go_step by exact Hpos. apply IH.
    + apply N.div_lt; lia.
    + rewrite count_slash_digit. exact Hs.
Qed.

Lemma pretty_N_no_slash (x : N) : count_slash (pretty x) = 0%nat.
Proof.
  unfold pretty, pretty_N. destruct (decide (x = 0%N)); [reflexivity|].
  apply pretty_N_go_no_slash. reflexivity.
Qed.

(** The decimal text of an integer has no slash. *)
Lemma pretty_Z_no_slash (z : Z) : count_slash (pretty z) = 0%nat.
Proof.
  destruct z as [|p|p]; unfold pretty, pretty_Z.
  - reflexivity.
  - apply (pretty_N_no_slash (N.pos p)).
  - rewrite count_slash_app.
    rewrite (pretty_N_no_slash (N.pos p) : count_slash (pretty p) = 0%nat).
    reflexivity.
Qed.

Lemma basename_from_no_slash (p : string) :
  forall acc, count_slash acc = 0%nat -> count_slash (basename_from acc p) = 0%nat.
Proof.
  induction p as [|c p IH]; intros acc Hacc; simpl; [exact Hacc|].
  destruct (Ascii.eqb c slash) eqn:Hc; apply IH; [reflexivity|].
  rewrite count_slash_app, Hacc. simpl. rewrite Hc. reflexivity.
Qed.

Lemma basename_from_plain (name : string) :
  forall acc, count_slash name = 0%nat -> basename_from acc name = acc +:+ name.
Proof.
  induction name as [|c name IH]; intros acc Hn; simpl.
  - clear Hn. induction acc as [|x acc IHa]; rewrite ?app_String, ?app_Empty;
      [reflexivity|]. f_equal. exact IHa.
  - simpl in Hn. destruct (Ascii.eqb c slash); [discriminate|].
    rewrite IH by exact Hn. rewrite string_app_assoc. reflexivity.
Qed.

Lemma basename_from_dir (dir name : string) :
  forall acc, basename_from acc (dir +:+ "/" +:+ name) = basename_from "" name.
Proof.
  induction dir as [|c dir IH]; intros acc; rewrite ?app_String, ?app_Empty.
  - reflexivity.
  - simpl. destruct (Ascii.eqb c slash); apply IH.
Qed.

(** [basename] gives the last component, and never a slash. *)
Lemma basename_of_stored_url (name : string) :
  count_slash name = 0%nat -> basename ("uploads/" +:+ name) = name.
Proof.
  intros Hn. unfold basename.
  change ("uploads/" +:+ name) with ("uploads" +:+ "/" +:+ name).
  rewrite (basename_from_dir "uploads" name "").
  rewrite basename_from_plain by exact Hn. reflexivity.
Qed.

Lemma path_join_plain (name : string) :
  count_slash name = 0%nat -> path_join UPLOAD_DIR name = "uploads/" +:+ name.
Proof.
  intros Hn. rewrite path_join_uploads.
  destruct name as [|c name]; [reflexivity|].
  rewrite prefix_slash. simpl in Hn.
  destruct (Ascii.eqb c slash); [discriminate|reflexivity].
Qed.

Lemma trade_file_name_no_slash (E : env) (pid oid now : Z) (filename : string) :
  count_slash (strftime_stamp E now) = 0%nat ->
  count_slash (secure_filename E filename) = 0%nat ->
  count_slash (trade_file_name E pid oid now filename) = 0%nat.
Proof.
  intros Hstamp Hsec. unfold trade_file_name.
  rewrite !count_slash_app, !pretty_Z_no_slash, Hstamp, Hsec. reflexivity.
Qed.

(** ** The trade screenshot of an option *)

Lemma upsert_trade_exists (pid oid : Z) (rows : list trade_row) :
  existsb (fun r => bool_decide (tr_poll_id r = pid /\ tr_option_id r = oid)) rows
    = true <->
  (pid, oid) ∈ trade_key <$> rows.
Proof.
  rewrite existsb_exists. split.
  - intros (r & Hr & Hk). apply bool_decide_eq_true in Hk as [<- <-].
    apply list_elem_of_fmap. exists r. split; [reflexivity|].
    apply list_elem_of_In. exact Hr.
  - intros Hin. apply list_elem_of_fmap in Hin as (r & Hk & Hr).
    exists r. split; [apply list_elem_of_In; exact Hr|].
    apply bool_decide_eq_true. unfold trade_key in Hk.
    injection Hk as -> ->. auto.
Qed.

Lemma upsert_trade_spec (pid oid : Z) (url : string) (cts : Z)
    (rows : list trade_row) :
  (exists r, r ∈ upsert_trade pid oid url cts rows /\ trade_key r = (pid, oid)) /\
  (forall r, r ∈ upsert_trade pid oid url cts rows -> trade_key r = (pid, oid) ->
     tr_screenshot_url r = url /\ tr_created_at r = cts) /\
  (forall r, trade_key r <> (pid, oid) ->
     (r ∈ upsert_trade pid oid url cts rows <-> r ∈ rows)) /\
  (NoDup (trade_key <$> rows) ->
   NoDup (trade_key <$> upsert_trade pid oid url cts rows)).
Proof.
  unfold upsert_trade.
  destruct (existsb _ rows) eqn:Hex.
  - apply upsert_trade_exists in Hex.
    split; [|split; [|split]].
    + apply list_elem_of_fmap in Hex as (r & Hk & Hr).
      eexists. split.
      * apply list_elem_of_fmap. exists r. split; [reflexivity|exact Hr].
      * unfold trade_key in Hk. injection Hk as -> ->.
        rewrite decide_True by auto. reflexivity.
    + intros r Hr Hk. apply list_elem_of_fmap in Hr as (r0 & -> & Hr0).
      destruct (decide _) as [_|Hne]; [auto|].
      exfalso. apply Hne. unfold trade_key in Hk. injection Hk as -> ->. auto.
    + intros r Hk. split.
      * intros Hr. apply list_elem_of_fmap in Hr as (r0 & -> & Hr0).
        destruct (decide _) as [[Hp Ho]|_]; [|exact Hr0].
        exfalso. apply Hk. unfold trade_key. simpl. congruence.
      * intros Hr. apply list_elem_of_fmap. exists r. split; [|exact Hr].
        destruct (decide _) as [[Hp Ho]|_]; [|reflexivity].
        exfalso. apply Hk. unfold trade_key. congruence.
    + intros Hnd. rewrite <- list_fmap_compose.
      erewrite list_fmap_ext; [exact Hnd|].
      intros i r _. simpl. destruct (decide _); reflexivity.
  - assert ((pid, oid) ∉ trade_key <$> rows) as Hnew.
    { intros Hin. apply upsert_trade_exists in Hin. congruence. }
    split; [|split; [|split]].
    + eexists. split; [apply elem_of_app; right; apply list_elem_of_here|].
      reflexivity.
    + intros r Hr Hk. apply elem_of_app in Hr as [Hr|Hr].
      * exfalso. apply Hnew. rewrite <- Hk.
        apply list_elem_of_fmap. eauto.
      * apply list_elem_of_singleton in Hr. subst r. auto.
    + intros r Hk. rewrite elem_of_app, list_elem_of_singleton. split.
      * intros [Hr| ->]; [exact Hr|]. exfalso. apply Hk. reflexivity.
      * auto.
    + intros Hnd. rewrite fmap_app. apply NoDup_app.
      split; [exact Hnd|]. split; [|apply NoDup_singleton].
      intros x Hx Hx'. apply list_elem_of_singleton in Hx'. subst x.
      exact (Hnew Hx).
Qed.

(** The four ways the handler ends. *)
Lemma upload_option_screenshot_cases (E : env) (pid oid : Z)
    (content_type file : option string) (now cts : Z) (st : state) :
  let d := DB st in
  let found :=
    is_Some (head (filter (fun p => p_poll_id p = pid) (Poll d))) /\
    is_Some (head (filter (fun o => o_option_id o = oid /\ o_poll_id o = pid)
                          (PollOption d))) in
  let multipart :=
    contains "multipart/form-data" (default "" content_type) = true in
  (~ found /\ upload_option_screenshot E pid oid content_type file now cts st
              = (st, 404)) \/
  (found /\ ~ multipart /\
   upload_option_screenshot E pid oid content_type file now cts st = (st, 415)) \/
  (found /\ multipart /\ (file = None \/ file = Some "") /\
   upload_option_screenshot E pid oid content_type file now cts st = (st, 400)) \/
  (found /\ multipart /\
   exists filename, file = Some filename /\ filename <> "" /\
     upload_option_screenshot E pid oid content_type file now cts st =
       ({| PENDING_DELIVERY := PENDING_DELIVERY st;
           SEND_QUEUE := SEND_QUEUE st; POLL_QUEUE := POLL_QUEUE st;
           DB := set_PollOptionTrade
                   (upsert_trade pid oid
                      ("uploads/" +:+ trade_file_name E pid oid now filename) cts
                      (PollOptionTrade d)) d;
           saved_files :=
             drop_previous
               (head (filter (fun t => tr_poll_id t = pid /\ tr_option_id t = oid)
                             (PollOptionTrade d)))
               (saved_files st) ++
             [path_join UPLOAD_DIR (trade_file_name E pid oid now filename)];
           draws := draws st; to_send_buf := to_send_buf st;
           scanner_alive := scanner_alive st |}, 201)).
Proof.
  intros d found multipart. subst d found multipart.
  unfold upload_option_screenshot.
  destruct (head (filter _ (Poll (DB st)))) as [p|] eqn:Hp.
  2: { left. split; [|reflexivity]. intros [[? Habs] _]. discriminate. }
  destruct (head (filter _ (PollOption (DB st)))) as [o|] eqn:Ho.
  2: { left. split; [|reflexivity]. intros [_ [? Habs]]. discriminate. }
  right.
  assert (is_Some (Some p) /\ is_Some (Some o)) as Hfound by (split; eauto).
  destruct (contains _ _) eqn:Hc; simpl.
  2: { left. split; [exact Hfound|]. split; [discriminate|reflexivity]. }
  right.
  destruct file as [filename|].
  2: { left. auto. }
  destruct (decide (filename = "")) as [->|Hne].
  { left. auto. }
  right. split; [exact Hfound|]. split; [reflexivity|].
  exists filename. auto.
Qed.

Lemma head_filter_is_Some {A : Type} (P : A -> Prop)
    `{forall x, Decision (P x)} (l : list A) :
  is_Some (head (filter P l)) <-> exists x, x ∈ l /\ P x.
Proof.
  split.
  - intros [x Hx]. exists x.
    assert (x ∈ filter P l) as Hin.
    { destruct (filter P l); [discriminate|].
      injection Hx as ->. apply list_elem_of_here. }
    apply list_elem_of_filter in Hin as [HP Hin]. auto.
  - intros (x & Hin & HP).
    assert (x ∈ filter P l) as Hf by (apply list_elem_of_filter; auto).
    destruct (filter P l); [inversion Hf|]. simpl. eauto.
Qed.

Lemma option_found_heads (d : db) (pid oid : Z) :
  option_found d pid oid <->
  is_Some (head (filter (fun p => p_poll_id p = pid) (Poll d))) /\
  is_Some (head (filter (fun o => o_option_id o = oid /\ o_poll_id o = pid)
                        (PollOption d))).
Proof.
  unfold option_found. rewrite !head_filter_is_Some. reflexivity.
Qed.

(** X3.  For a poll id and an option id that SQLite can bind,
    [upload_option_screenshot] makes its tests in this order.  It answers
    404 exactly when the poll, or the option of that poll, is not in the
    database, whatever the request holds.  When they are there, it answers
    415 exactly when the content type does not name [multipart/form-data].
    When that is right too, it answers 400 exactly when there is no part
    [file] or its file name is empty, and 201 otherwise.  With 404, 415
    and 400 nothing is written: the state is as it was. *)
Theorem screenshot_upload_rejections (E : env) (pid oid : Z)
    (content_type file : option string) (now cts : Z) (st : state) :
  sqlite_int pid -> sqlite_int oid ->
  ((upload_option_screenshot E pid oid content_type file now cts st).2 = 404 <->
   ~ option_found (DB st) pid oid) /\
  ((upload_option_screenshot E pid oid content_type file now cts st).2 = 415 <->
   option_found (DB st) pid oid /\ ~ is_multipart content_type) /\
  ((upload_option_screenshot E pid oid content_type file now cts st).2 = 400 <->
   option_found (DB st) pid oid /\ is_multipart content_type /\
   ~ has_file file) /\
  ((upload_option_screenshot E pid oid content_type file now cts st).2 = 201 <->
   option_found (DB st) pid oid /\ is_multipart content_type /\
   has_file file) /\
  ((upload_option_screenshot E pid oid content_type file now cts st).2 <> 201 ->
   (upload_option_screenshot E pid oid content_type file now cts st).1 = st).
Proof.
  intros _ _. unfold is_multipart, has_file.
  pose proof (option_found_heads (DB st) pid oid) as Hfound.
  destruct (upload_option_screenshot_cases E pid oid content_type file now cts st)
    as [[Hnf ->]|[(Hf & Hm & ->)|[(Hf & Hm & Hfile & ->)|
        (Hf & Hm & filename & -> & Hne & ->)]]]; simpl.
  - rewrite <- Hfound in Hnf.
    split; [tauto|]. split; [split; [discriminate|tauto]|].
    split; [split; [discriminate|tauto]|].
    split; [split; [discriminate|tauto]|]. reflexivity.
  - rewrite <- Hfound in Hf.
    split; [split; [discriminate|tauto]|]. split; [tauto|].
    split; [split; [discriminate|tauto]|].
    split; [split; [discriminate|tauto]|]. reflexivity.
  - rewrite <- Hfound in Hf.
    assert (~ exists filename, file = Some filename /\ filename <> "") as Hno.
    { intros (fn & -> & Hfn). destruct Hfile as [?|Heq];
        [discriminate|]. injection Heq as ->. contradiction. }
    split; [split; [discriminate|tauto]|].
    split; [split; [discriminate|tauto]|].
    split; [tauto|].
    split; [split; [discriminate|tauto]|]. reflexivity.
  - rewrite <- Hfound in Hf.
    assert (exists fn, Some filename = Some fn /\ fn <> "") as Hyes by eauto.
    split; [split; [discriminate|tauto]|].
    split; [split; [discriminate|tauto]|].
    split; [split; [discriminate|tauto]|].
    split; [tauto|]. contradiction.
Qed.

Lemma screenshot_upload_rejections_witness :
  (upload_option_screenshot plain_env 1 2 (Some "application/json")
     (Some "a.png") one_day 86400 demo_start).2 = 415.
Proof.
  destruct (screenshot_upload_rejections plain_env 1 2 (Some "application/json")
              (Some "a.png") one_day 86400 demo_start)
    as (_ & [_ H415] & _).
  - vm_compute. split; [discriminate|reflexivity].
  - vm_compute. split; [discriminate|reflexivity].
  - apply H415. split.
    + split.
      * eexists. split; [apply list_elem_of_here|reflexivity].
      * eexists. split; [apply list_elem_of_here|]. split; reflexivity.
    + vm_compute. discriminate.
Defined.

(** X4.  A successful [upload_option_screenshot] leaves exactly the table
    it found, with the row of this option replaced or added: the keys
    [(poll_id, option_id)] stay distinct, the row of the option carries the
    URL [uploads/<file name>] and the time of this upload, the rows of other
    options are untouched, and the file has been saved under
    [uploads/<file name>]. *)
Theorem screenshot_upload_keeps_one_row (E : env) (pid oid : Z)
    (content_type file : option string) (now cts : Z) (st : state) :
  (upload_option_screenshot E pid oid content_type file now cts st).2 = 201 ->
  exists filename : string,
    file = Some filename /\
    (NoDup (trade_key <$> PollOptionTrade (DB st)) ->
     NoDup (trade_key <$>
              PollOptionTrade
                (DB (upload_option_screenshot E pid oid content_type file
                       now cts st).1))) /\
    (exists r,
       r ∈ PollOptionTrade
             (DB (upload_option_screenshot E pid oid content_type file
                    now cts st).1) /\
       trade_key r = (pid, oid)) /\
    (forall r,
       r ∈ PollOptionTrade
             (DB (upload_option_screenshot E pid oid content_type file
                    now cts st).1) ->
       trade_key r = (pid, oid) ->
       tr_screenshot_url r = "uploads/" +:+ trade_file_name E pid oid now filename /\
       tr_created_at r = cts) /\
    (forall r, trade_key r <> (pid, oid) ->
       (r ∈ PollOptionTrade
              (DB (upload_option_screenshot E pid oid content_type file
                     now cts st).1) <->
        r ∈ PollOptionTrade (DB st))) /\
    path_join UPLOAD_DIR (trade_file_name E pid oid now filename) ∈
      saved_files (upload_option_screenshot E pid oid content_type file
                     now cts st).1.
Proof.
  intros Hok.
  destruct (upload_option_screenshot_cases E pid oid content_type file now cts st)
    as [[_ Heq]|[(_ & _ & Heq)|[(_ & _ & _ & Heq)|
        (_ & _ & filename & -> & _ & Heq)]]];
    rewrite Heq in Hok; simpl in Hok; try discriminate.
  rewrite Heq. simpl. exists filename.
  destruct (upsert_trade_spec pid oid
              ("uploads/" +:+ trade_file_name E pid oid now filename) cts
              (PollOptionTrade (DB st))) as (Hex & Hval & Hoth & Hnd).
  split; [reflexivity|]. split; [exact Hnd|]. split; [exact Hex|].
  split; [exact Hval|]. split; [exact Hoth|].
  apply elem_of_app. right. apply list_elem_of_here.
Qed.

Lemma screenshot_upload_keeps_one_row_witness :
  exists r,
    r ∈ PollOptionTrade
          (DB (upload_option_screenshot demo_env 1 2
                 (Some "multipart/form-data; boundary=x") (Some "new.png")
                 one_day 86400 demo_start).1) /\
    trade_key r = (1, 2).
Proof.
  destruct (screenshot_upload_keeps_one_row demo_env 1 2
              (Some "multipart/form-data; boundary=x") (Some "new.png")
              one_day 86400 demo_start) as (filename & _ & _ & Hex & _).
  - vm_compute. reflexivity.
  - exact Hex.
Defined.

Lemma drop_previous_plain (r : trade_row) (files : list string) (name : string) :
  tr_screenshot_url r = "uploads/" +:+ name -> count_slash name = 0%nat ->
  drop_previous (Some r) files = files.
Proof.
  intros Hurl Hname. unfold drop_previous.
  destruct (decide _); [reflexivity|].
  rewrite Hurl, (stored_url_not_resolved name Hname). reflexivity.
Qed.

(** X5.  The URLs the handler stores never contain [/api/uploads/], the
    marker it looks for before it removes the previous file.  So when the
    stored URLs have the form the handler itself writes, a successful
    upload keeps that form and removes no file: every file of the upload
    directory is still there afterwards, the replaced screenshot
    included. *)
Theorem replaced_screenshot_file_is_kept (E : env) (pid oid : Z)
    (content_type file : option string) (now cts : Z) (st : state) :
  plain_names E ->
  stored_urls_plain (DB st) ->
  stored_urls_plain
    (DB (upload_option_screenshot E pid oid content_type file now cts st).1) /\
  forall p, p ∈ saved_files st ->
    p ∈ saved_files (upload_option_screenshot E pid oid content_type file
                       now cts st).1.
Proof.
  intros [Hstamp Hsec] Hplain.
  destruct (upload_option_screenshot_cases E pid oid content_type file now cts st)
    as [[_ ->]|[(_ & _ & ->)|[(_ & _ & _ & ->)|
        (_ & _ & filename & -> & _ & ->)]]]; simpl; auto.
  split.
  - intros r Hr.
    destruct (upsert_trade_spec pid oid
                ("uploads/" +:+ trade_file_name E pid oid now filename) cts
                (PollOptionTrade (DB st))) as (_ & Hval & Hoth & _).
    destruct (decide (trade_key r = (pid, oid))) as [Hk|Hk].
    + destruct (Hval r Hr Hk) as [-> _]. eexists. split; [reflexivity|].
      apply trade_file_name_no_slash; auto.
    + apply Hplain. apply Hoth; assumption.
  - intros p Hp. apply elem_of_app. left.
    destruct (head (filter _ (PollOptionTrade (DB st)))) as [r|] eqn:Hprev;
      [|exact Hp].
    assert (r ∈ PollOptionTrade (DB st)) as Hr.
    { apply head_Some_elem_of in Hprev.
      apply list_elem_of_filter in Hprev as [_ Hr]. exact Hr. }
    destruct (Hplain r Hr) as (name & Hurl & Hname).
    rewrite (drop_previous_plain r _ name Hurl Hname). exact Hp.
Qed.

(** ** More on a pass of the scanner *)

Lemma filter_none {A : Type} (P : A -> Prop) `{forall x, Decision (P x)}
    (l : list A) :
  (forall x, x ∈ l -> ~ P x) -> filter P l = [].
Proof.
  induction l as [|x l IH]; intros Hno; [reflexivity|].
  rewrite filter_cons_False by (apply Hno, list_elem_of_here).
  apply IH. intros y Hy. apply Hno, list_elem_of_further, Hy.
Qed.

Lemma filter_all {A : Type} (P : A -> Prop) `{forall x, Decision (P x)}
    (l : list A) :
  (forall x, x ∈ l -> P x) -> filter P l = l.
Proof.
  induction l as [|x l IH]; intros Hall; [reflexivity|].
  rewrite filter_cons_True by (apply Hall, list_elem_of_here).
  f_equal. apply IH. intros y Hy. apply Hall, list_elem_of_further, Hy.
Qed.

Section PassJobs.

Variables (E : env) (f : Z -> Z -> bool) (now cts : Z).

Lemma select_trade_static (ts : list token_row) (d : db) (pid oid : Z) :
  select_trade (set_UploadToken ts d) pid oid = select_trade d pid oid.
Proof. reflexivity. Qed.

(** The jobs of a pass that runs to its end, item by item. *)
Lemma scan_loop_jobs (items : list item) :
  forall (idx : nat) (a a' : scan_acc),
  scan_loop E f now cts idx items a = ScanDone a' ->
  exists js : list send_job,
    to_send a' = to_send a ++ js /\
    Forall2 (job_of E (scan_db a))
      (filter (fun it => delivered now (scan_db a) it = true) items) js.
Proof.
  induction items as [|it rest IH]; intros idx a a' Hrun; simpl in Hrun.
  - injection Hrun as <-. exists []. rewrite app_nil_r.
    split; [reflexivity|constructor].
  - destruct (stale now it) eqn:Hst.
    { apply IH in Hrun as (js & Hsend & Hjobs). exists js.
      rewrite filter_cons_False
        by (unfold delivered; rewrite Hst; discriminate).
      auto. }
    destruct (f (poll_id it) (option_id it)); [discriminate|].
    destruct (select_trade (scan_db a) (poll_id it) (option_id it))
      as [[[url q] o]|] eqn:Hsel.
    + destruct (decide (url = "")) as [Hu|Hu].
      * apply IH in Hrun as (js & Hsend & Hjobs). exists js.
        rewrite filter_cons_False; [auto|].
        unfold delivered, deliverable. rewrite Hst, Hsel.
        rewrite bool_decide_eq_true_2 by exact Hu. discriminate.
      * destruct (insert_token _ (scan_db a)) as [d'|] eqn:Hins;
          [|discriminate].
        apply insert_token_Some in Hins as [-> _].
        apply IH in Hrun as (js & Hsend & Hjobs). simpl in Hsend, Hjobs.
        eexists (_ :: js).
        rewrite filter_cons_True.
        2: { unfold delivered, deliverable. rewrite Hst, Hsel.
             rewrite bool_decide_eq_false_2 by exact Hu. reflexivity. }
        split; [rewrite Hsend, <- app_assoc; reflexivity|].
        constructor; [|exact Hjobs].
        exists url, q, o, (t_token (mint_row E now cts it a)).
        split; [exact Hsel|]. split; [exact Hu|reflexivity].
    + apply IH in Hrun as (js & Hsend & Hjobs). exists js.
      rewrite filter_cons_False; [auto|].
      unfold delivered, deliverable. rewrite Hst, Hsel. discriminate.
Qed.

(** The jobs an iteration that runs to its end puts on [SEND_QUEUE]. *)
Lemma iteration_jobs (st : state) (a : scan_acc) :
  scan_pass E f now cts st = ScanDone a ->
  exists js : list send_job,
    SEND_QUEUE (trade_delivery_iteration E f now cts st) = SEND_QUEUE st ++ js /\
    PENDING_DELIVERY (trade_delivery_iteration E f now cts st) =
      filter (fun it => removable now (DB st) it = false) (PENDING_DELIVERY st) /\
    Forall2 (job_of E (DB st))
      (filter (fun it => delivered now (DB st) it = true) (PENDING_DELIVERY st))
      js.
Proof.
  intros Hpass.
  destruct (scan_locked_done E f now cts st a Hpass)
    as (mj & Hpend & _ & Hbuf & Hq & _ & _).
  pose proof Hpass as Hjobs. unfold scan_pass in Hjobs.
  apply scan_loop_jobs in Hjobs as (js & Hsend & Hjobs). simpl in Hsend, Hjobs.
  exists js. unfold trade_delivery_iteration, scan_put_all. simpl.
  rewrite Hq, Hpend. split; [|split; [reflexivity|exact Hjobs]].
  f_equal. unfold scan_locked. rewrite Hpass. simpl. exact Hsend.
Qed.

End PassJobs.

(** X6.  In a pass that runs to its end, a pending item that is not older
    than five days and has nothing to send yet stays in [PENDING_DELIVERY],
    as it is (its [added_at] too, so its five days run from the first
    confirmation); the items that stay keep their order.  When no item of
    the list is stale or has something to send, the pass changes nothing
    at all. *)
Theorem item_without_artifact_stays_pending (E : env) (f : Z -> Z -> bool)
    (now cts : Z) (st : state) (a : scan_acc) :
  scan_pass E f now cts st = ScanDone a ->
  (forall it, it ∈ PENDING_DELIVERY st -> stale now it = false ->
     deliverable (DB st) it = false ->
     it ∈ PENDING_DELIVERY (trade_delivery_iteration E f now cts st)) /\
  sublist (PENDING_DELIVERY (trade_delivery_iteration E f now cts st))
          (PENDING_DELIVERY st) /\
  ((forall it, it ∈ PENDING_DELIVERY st ->
      stale now it = false /\ deliverable (DB st) it = false) ->
   to_send_buf st = [] ->
   trade_delivery_iteration E f now cts st = st).
Proof.
  intros Hpass.
  destruct (iteration_jobs E f now cts st a Hpass) as (js & Hq & Hpend & Hjobs).
  split; [|split].
  - intros it Hin Hst Hdel. rewrite Hpend. apply list_elem_of_filter.
    split; [|exact Hin]. unfold removable. rewrite Hst, Hdel. reflexivity.
  - rewrite Hpend. apply sublist_filter.
  - intros Hnone Hbuf.
    destruct (scan_locked_done E f now cts st a Hpass)
      as (mj & Hp & Hdb & Hb & Hsq & Hal & Hm).
    assert (filter (fun it => delivered now (DB st) it = true)
              (PENDING_DELIVERY st) = []) as Hnodel.
    { apply filter_none. intros it Hin.
      destruct (Hnone it Hin) as [Hs Hd]. unfold delivered.
      rewrite Hs, Hd. discriminate. }
    assert (filter (fun it => removable now (DB st) it = false)
              (PENDING_DELIVERY st) = PENDING_DELIVERY st) as Hall.
    { apply filter_all. intros it Hin.
      destruct (Hnone it Hin) as [Hs Hd]. unfold removable.
      rewrite Hs, Hd. reflexivity. }
    rewrite Hnodel in Hm. apply Forall2_nil_inv_l in Hm. subst mj.
    assert (DB (scan_locked E f now cts st) = DB st) as HD.
    { rewrite Hdb. simpl. rewrite app_nil_r. apply set_UploadToken_same. }
    assert (draws (scan_locked E f now cts st) = draws st) as Hdraws.
    { unfold scan_locked. rewrite Hpass. simpl.
      unfold scan_pass in Hpass.
      apply scan_loop_done in Hpass as (mj & _ & _ & _ & Hdr & Hm2 & _).
      simpl in Hdr, Hm2. rewrite Hnodel in Hm2.
      apply Forall2_nil_inv_l in Hm2. subst mj. simpl in Hdr. lia. }
    assert (POLL_QUEUE (scan_locked E f now cts st) = POLL_QUEUE st) as HPQ
      by (unfold scan_locked; rewrite Hpass; reflexivity).
    assert (saved_files (scan_locked E f now cts st) = saved_files st) as HF
      by (unfold scan_locked; rewrite Hpass; reflexivity).
    unfold trade_delivery_iteration, scan_put_all.
    rewrite Hp, HD, Hb, Hsq, Hal, Hall, Hdraws, HPQ, HF. simpl.
    rewrite app_nil_r. destruct st; simpl in *. subst. reflexivity.
Qed.

(** ** From the admin's upload to the user's photo *)

Lemma job_of_path (E : env) (d : db) (it : item) (j : send_job) :
  job_of E d it j ->
  j_user_id j = user_id it /\
  exists b, j_path j = "uploads/" +:+ b /\ count_slash b = 0%nat.
Proof.
  intros (url & q & o & tok & _ & _ & ->). simpl. split; [reflexivity|].
  exists (basename url).
  assert (count_slash (basename url) = 0%nat) as Hb
    by (apply basename_from_no_slash; reflexivity).
  split; [apply path_join_plain; exact Hb|exact Hb].
Qed.

Lemma string_app_empty_r (a : string) : a +:+ "" = a.
Proof.
  induction a as [|c a IH]; rewrite ?app_String, ?app_Empty; [reflexivity|].
  f_equal. exact IH.
Qed.

(** [basename] cuts a path behind its last slash. *)
Lemma basename_from_split (p : string) :
  forall acc, count_slash acc = 0%nat ->
  exists dir, acc +:+ p = dir +:+ basename_from acc p /\
              (dir = "" \/ exists d, dir = d +:+ "/").
Proof.
  induction p as [|c p IH]; intros acc Hacc; simpl.
  - exists "". rewrite string_app_empty_r, app_Empty. auto.
  - destruct (Ascii.eqb c slash) eqn:Hc.
    + apply Ascii.eqb_eq in Hc. subst c.
      destruct (IH "" eq_refl) as (dir & Hsplit & Hdir).
      rewrite app_Empty in Hsplit.
      exists (acc +:+ "/" +:+ dir). split.
      * change (String slash p) with ("/" +:+ p).
        rewrite !string_app_assoc. do 2 f_equal. exact Hsplit.
      * right. destruct Hdir as [->|[d ->]].
        -- exists acc. rewrite string_app_empty_r. reflexivity.
        -- exists (acc +:+ "/" +:+ d). rewrite !string_app_assoc. reflexivity.
    + destruct (IH (acc +:+ String c "")) as (dir & Hsplit & Hdir).
      { rewrite count_slash_app, Hacc. simpl. rewrite Hc. reflexivity. }
      exists dir. split; [|exact Hdir].
      rewrite <- Hsplit, string_app_assoc. reflexivity.
Qed.

Lemma basename_split (url : string) :
  exists dir, url = dir +:+ basename url /\
              (dir = "" \/ exists d, dir = d +:+ "/") /\
              count_slash (basename url) = 0%nat.
Proof.
  destruct (basename_from_split url "" eq_refl) as (dir & Hsplit & Hdir).
  rewrite app_Empty in Hsplit. exists dir.
  split; [exact Hsplit|]. split; [exact Hdir|].
  apply basename_from_no_slash. reflexivity.
Qed.

(** X7.  Every job an iteration puts on [SEND_QUEUE] is made for a pending
    item whose option has a stored URL, and goes to the user of that item.
    The path of its photo is [uploads/] followed by the last component of
    that URL, that is, by what follows its last slash: a text without a
    slash, whatever the URL is (it is empty when the URL ends in a
    slash). *)
Theorem job_paths_stay_in_upload_dir (E : env) (f : Z -> Z -> bool)
    (now cts : Z) (st : state) :
  exists (served : list item) (js : list send_job),
    SEND_QUEUE (trade_delivery_iteration E f now cts st) = SEND_QUEUE st ++ js /\
    served `sublist_of` PENDING_DELIVERY st /\
    Forall2
      (fun it j =>
         exists url question option_text dir : string,
           select_trade (DB st) (poll_id it) (option_id it) =
             Some (url, question, option_text) /\
           url = dir +:+ basename url /\
           (dir = "" \/ exists d, dir = d +:+ "/") /\
           count_slash (basename url) = 0%nat /\
           j_user_id j = user_id it /\
           j_path j = "uploads/" +:+ basename url)
      served js.
Proof.
  destruct (scan_pass E f now cts st) as [a|a] eqn:Hpass.
  - destruct (iteration_jobs E f now cts st a Hpass) as (js & Hq & _ & Hjobs).
    exists (filter (fun it => delivered now (DB st) it = true)
                   (PENDING_DELIVERY st)), js.
    split; [exact Hq|]. split; [apply sublist_filter|].
    eapply Forall2_impl; [exact Hjobs|]. simpl.
    intros it j (url & q & o & tok & Hsel & _ & ->). simpl.
    destruct (basename_split url) as (dir & Hsplit & Hdir & Hb).
    exists url, q, o, dir.
    split; [exact Hsel|]. split; [exact Hsplit|]. split; [exact Hdir|].
    split; [exact Hb|]. split; [reflexivity|].
    apply path_join_plain. exact Hb.
  - exists [], []. split; [|split; [apply sublist_nil_l|constructor]].
    unfold trade_delivery_iteration, scan_put_all, scan_locked.
    rewrite Hpass. reflexivity.
Qed.

Lemma select_trade_heads (d : db) (pid oid : Z) (t : trade_row)
    (p : poll_row) (o : option_row) :
  head (filter (fun t => tr_poll_id t = pid /\ tr_option_id t = oid)
               (PollOptionTrade d)) = Some t ->
  head (filter (fun p => p_poll_id p = pid) (Poll d)) = Some p ->
  head (filter (fun o => o_poll_id o = pid /\ o_option_id o = oid)
               (PollOption d)) = Some o ->
  select_trade d pid oid =
    Some (tr_screenshot_url t, p_question p, o_option_text o).
Proof.
  intros Ht Hp Ho. unfold select_trade.
  destruct (filter _ (PollOptionTrade d)) as [|t' ts] eqn:Hft; [discriminate|].
  injection Ht as ->.
  assert (tr_poll_id t = pid /\ tr_option_id t = oid) as [Hpid Hoid].
  { assert (t ∈ filter (fun t => tr_poll_id t = pid /\ tr_option_id t = oid)
                (PollOptionTrade d)) as Hin
      by (rewrite Hft; apply list_elem_of_here).
    apply list_elem_of_filter in Hin as [Hk _]. exact Hk. }
  simpl. rewrite Hpid, Hoid.
  destruct (filter _ (Poll d)) as [|p' ps]; [discriminate|].
  injection Hp as ->. simpl.
  destruct (filter _ (PollOption d)) as [|o' os]; [discriminate|].
  injection Ho as ->. reflexivity.
Qed.

(** X8.  Once the admin's upload of the screenshot of an option has
    succeeded, the next pass that runs to its end delivers every pending
    item of that option that is not stale: the item leaves the pending
    list and a job for its user is on [SEND_QUEUE], with the last component
    of the stored URL as the photo.  When the file names have no slash,
    that photo path is the path under which the upload saved the file. *)
Theorem uploaded_screenshot_is_delivered (E : env) (pid oid : Z)
    (content_type file : option string) (unow ucts : Z) (st : state)
    (f : Z -> Z -> bool) (now cts : Z) (a : scan_acc) (it : item) :
  (upload_option_screenshot E pid oid content_type file unow ucts st).2 = 201 ->
  it ∈ PENDING_DELIVERY st ->
  poll_id it = pid -> option_id it = oid ->
  stale now it = false ->
  scan_pass E f now cts
    (upload_option_screenshot E pid oid content_type file unow ucts st).1
    = ScanDone a ->
  (it ∉ PENDING_DELIVERY
          (trade_delivery_iteration E f now cts
             (upload_option_screenshot E pid oid content_type file
                unow ucts st).1)) /\
  exists (j : send_job) (filename : string),
    file = Some filename /\
    j ∈ SEND_QUEUE
          (trade_delivery_iteration E f now cts
             (upload_option_screenshot E pid oid content_type file
                unow ucts st).1) /\
    j_user_id j = user_id it /\
    j_path j =
      path_join UPLOAD_DIR
        (basename ("uploads/" +:+ trade_file_name E pid oid unow filename)) /\
    (plain_names E ->
     j_path j = path_join UPLOAD_DIR (trade_file_name E pid oid unow filename) /\
     j_path j ∈ saved_files
                  (upload_option_screenshot E pid oid content_type file
                     unow ucts st).1).
Proof.
  intros Hok Hin Hpid Hoid Hfresh Hpass.
  destruct (upload_option_screenshot_cases E pid oid content_type file
              unow ucts st)
    as [[_ Heq]|[(_ & _ & Heq)|[(_ & _ & _ & Heq)|
        ([Hpoll Hopt] & _ & filename & -> & _ & Heq)]]];
    rewrite Heq in Hok; simpl in Hok; try discriminate.
  clear Hok. rewrite Heq in Hpass |- *. cbn [fst snd] in Hpass |- *.
  set (url := "uploads/" +:+ trade_file_name E pid oid unow filename) in *.
  set (st1 := {| PENDING_DELIVERY := PENDING_DELIVERY st |}) in *.
  destruct Hpoll as [p Hp]. destruct Hopt as [o Ho].
  destruct (upsert_trade_spec pid oid url ucts (PollOptionTrade (DB st)))
    as ((r0 & Hr0 & Hk0) & Hval & _ & _).
  assert (exists t, head (filter (fun t => tr_poll_id t = pid /\ tr_option_id t = oid)
                                 (PollOptionTrade (DB st1))) = Some t /\
                    tr_screenshot_url t = url) as (t & Ht & Hurl).
  { destruct (filter (fun t => tr_poll_id t = pid /\ tr_option_id t = oid)
                     (PollOptionTrade (DB st1))) as [|t ts] eqn:Hft.
    - exfalso. unfold trade_key in Hk0. injection Hk0 as Hk1 Hk2.
      eapply (filter_nil_not_elem_of _ _ r0 Hft); [auto|exact Hr0].
    - exists t. split; [reflexivity|].
      assert (t ∈ filter (fun t => tr_poll_id t = pid /\ tr_option_id t = oid)
                  (PollOptionTrade (DB st1))) as Hint
        by (rewrite Hft; apply list_elem_of_here).
      apply list_elem_of_filter in Hint as [[Hk1 Hk2] Hint].
      apply (Hval t Hint). unfold trade_key. congruence. }
  assert (select_trade (DB st1) pid oid =
            Some (url, p_question p, o_option_text o)) as Hsel.
  { rewrite <- Hurl. apply select_trade_heads; [exact Ht|exact Hp|].
    rewrite <- Ho. f_equal. apply list_filter_iff. intros x. tauto. }
  assert (url <> "") as Hne by discriminate.
  assert (deliverable (DB st1) it = true) as Hdel.
  { unfold deliverable. rewrite Hpid, Hoid, Hsel.
    rewrite bool_decide_eq_false_2 by exact Hne. reflexivity. }
  destruct (iteration_jobs E f now cts st1 a Hpass) as (js & Hq & Hpend & Hjobs).
  split.
  - rewrite Hpend. intros Hkept. apply list_elem_of_filter in Hkept as [Hk _].
    unfold removable in Hk. rewrite Hfresh, Hdel in Hk. discriminate.
  - assert (it ∈ filter (fun it => delivered now (DB st1) it = true)
                   (PENDING_DELIVERY st1)) as Hit.
    { apply list_elem_of_filter. split; [|exact Hin].
      unfold delivered. rewrite Hfresh, Hdel. reflexivity. }
    apply list_elem_of_lookup in Hit as [i Hi].
    destruct (Forall2_lookup_l _ _ _ _ _ Hjobs Hi) as (j & Hj & Hjob).
    exists j, filename. split; [reflexivity|]. split.
    { rewrite Hq. apply elem_of_app. right.
      apply list_elem_of_lookup. eauto. }
    destruct Hjob as (url' & q' & o' & tok & Hsel' & _ & ->). simpl.
    rewrite Hpid, Hoid, Hsel in Hsel'. injection Hsel' as <- <- <-.
    split; [reflexivity|]. split; [reflexivity|].
    intros [Hstamp Hsec].
    assert (count_slash (trade_file_name E pid oid unow filename) = 0%nat)
      as Hplain by (apply trade_file_name_no_slash; auto).
    unfold url. rewrite (basename_of_stored_url _ Hplain).
    split; [reflexivity|].
    apply elem_of_app. right. apply list_elem_of_here.
Qed.

Lemma plain_env_plain : plain_names plain_env.
Proof.
  split; [intros t; apply pretty_Z_no_slash|intros s; reflexivity].
Qed.

Lemma demo_db_plain : stored_urls_plain demo_db.
Proof.
  intros r Hr. apply list_elem_of_singleton in Hr. subst r.
  exists "poll1_opt2.png". split; reflexivity.
Qed.

Lemma replaced_screenshot_file_is_kept_witness :
  let st1 := (upload_option_screenshot plain_env 1 2 multipart (Some "a.png")
                one_day 86400 demo_start).1 in
  "uploads/poll1_opt2_86400__shot.png" ∈
    saved_files (upload_option_screenshot plain_env 1 2 multipart (Some "b.png")
                   (2 * one_day) 172800 st1).1.
Proof.
  intros st1.
  destruct (replaced_screenshot_file_is_kept plain_env 1 2 multipart
              (Some "a.png") one_day 86400 demo_start plain_env_plain
              demo_db_plain) as [Hplain1 _].
  destruct (replaced_screenshot_file_is_kept plain_env 1 2 multipart
              (Some "b.png") (2 * one_day) 172800 st1 plain_env_plain Hplain1)
    as [_ Hkept].
  apply Hkept. vm_compute. apply list_elem_of_here.
Defined.

Lemma item_without_artifact_stays_pending_witness :
  PENDING_DELIVERY
    (trade_delivery_iteration demo_env no_fault one_day 86400
       (set_pending [demo_item 1 3 100 0] demo_start))
  = [demo_item 1 3 100 0].
Proof.
  assert (exists a, scan_pass demo_env no_fault one_day 86400
                      (set_pending [demo_item 1 3 100 0] demo_start)
                    = ScanDone a) as [a Ha]
    by (eexists; vm_compute; reflexivity).
  destruct (item_without_artifact_stays_pending demo_env no_fault one_day 86400
              (set_pending [demo_item 1 3 100 0] demo_start) a Ha)
    as (_ & _ & Hsame).
  rewrite Hsame; [reflexivity| |reflexivity].
  intros it Hit. apply list_elem_of_singleton in Hit. subst it.
  split; vm_compute; reflexivity.
Defined.

Lemma uploaded_screenshot_is_delivered_witness :
  exists j : send_job,
    j ∈ SEND_QUEUE
          (trade_delivery_iteration plain_env no_fault one_day 86400
             (upload_option_screenshot plain_env 1 2 multipart (Some "a.png")
                one_day 86400
                (set_pending [demo_item 1 2 100 0] demo_start)).1) /\
    j_user_id j = 100.
Proof.
  assert (exists a, scan_pass plain_env no_fault one_day 86400
                      (upload_option_screenshot plain_env 1 2 multipart
                         (Some "a.png") one_day 86400
                         (set_pending [demo_item 1 2 100 0] demo_start)).1
                    = ScanDone a)
    as [a Ha] by (eexists; vm_compute; reflexivity).
  destruct (uploaded_screenshot_is_delivered plain_env 1 2 multipart
              (Some "a.png") one_day 86400
              (set_pending [demo_item 1 2 100 0] demo_start)
              no_fault one_day 86400 a
              (demo_item 1 2 100 0)) as [_ (j & filename & _ & Hin & Huser & _)].
  - vm_compute. reflexivity.
  - apply list_elem_of_here.
  - reflexivity.
  - reflexivity.
  - vm_compute. reflexivity.
  - exact Ha.
  - exists j. split; [exact Hin|exact Huser].
Defined.

(** ** The upload form and the submission *)

Lemma head_elem_of {A : Type} (l : list A) (x : A) : head l = Some x -> x ∈ l.
Proof. destruct l; [discriminate|]. intros [= ->]. apply list_elem_of_here. Qed.

Lemma head_is_Some_elem {A : Type} (l : list A) (x : A) :
  x ∈ l -> is_Some (head l).
Proof. destruct l; [intros H; inversion H|]. intros _. simpl. eauto. Qed.

Lemma select_form_row_valid (d : db) (token : string) (cts : Z)
    (t : token_row) (q o : string) :
  select_form_row d token cts = Some (t, q, o) ->
  t ∈ UploadToken d /\ t_token t = token /\ t_used_at t = None /\
  t_expires_at t > cts /\
  (exists p, p ∈ Poll d /\ p_poll_id p = t_poll_id t /\ p_question p = q) /\
  (exists r, r ∈ PollOption d /\ o_poll_id r = t_poll_id t /\
             o_option_id r = t_option_id t /\ o_option_text r = o).
Proof.
  unfold select_form_row. intros Hh. apply head_elem_of in Hh.
  apply list_elem_of_bind in Hh as (t' & Hh & Ht').
  apply list_elem_of_filter in Ht' as [(Htok & Hu & He) Ht'].
  apply list_elem_of_bind in Hh as (p & Hh & Hp).
  apply list_elem_of_filter in Hp as [Hpk Hp].
  apply list_elem_of_bind in Hh as (r & Hh & Hr).
  apply list_elem_of_filter in Hr as [[Hr1 Hr2] Hr].
  apply list_elem_of_singleton in Hh. injection Hh as -> -> ->.
  repeat split; eauto 10.
Qed.

(** X9.  When the form is served for a token (status 200), it shows the
    question and the option of a valid row of that token, and a submission
    of a file with the same token at the same database time is accepted
    (status 200).  A spent token gets 410 from the form as well. *)
Theorem form_served_means_submission_accepted (E : env) (token : string)
    (cts : Z) (st : state) :
  ((ui_upload_form token cts st).1 = 200 ->
   (forall (filename : string) (now : Z), filename <> "" ->
      (ui_upload_submit E token (Some filename) now cts st).2 = 200) /\
   exists (form : upload_form) (t : token_row),
     (ui_upload_form token cts st).2 = Some form /\
     t ∈ UploadToken (DB st) /\ t_token t = token /\
     (exists p, p ∈ Poll (DB st) /\ p_poll_id p = t_poll_id t /\
                p_question p = uf_question form) /\
     (exists o, o ∈ PollOption (DB st) /\ o_poll_id o = t_poll_id t /\
                o_option_id o = t_option_id t /\
                o_option_text o = uf_option_text form) /\
     uf_action form = "/ui/upload/" +:+ token) /\
  (spent (DB st) token -> ui_upload_form token cts st = (410, None)).
Proof.
  split.
  - unfold ui_upload_form.
    destruct (select_form_row (DB st) token cts) as [[[t q] o]|] eqn:Hrow;
      [|discriminate].
    intros _.
    destruct (select_form_row_valid _ _ _ _ _ _ Hrow)
      as (Hin & Htok & Hu & He & Hp & Ho).
    split.
    + intros filename now Hne.
      unfold ui_upload_submit, upload_validate, select_valid_token.
      destruct (head_is_Some_elem
                  (filter (fun t => t_token t = token /\ t_used_at t = None /\
                                    t_expires_at t > cts)
                          (UploadToken (DB st))) t) as [row ->].
      { apply list_elem_of_filter. auto. }
      rewrite decide_False by exact Hne. reflexivity.
    + eexists _, t. simpl. split; [reflexivity|]. auto 10.
  - intros [_ Hused]. unfold ui_upload_form.
    destruct (select_form_row (DB st) token cts) as [[[t q] o]|] eqn:Hrow;
      [|reflexivity].
    destruct (select_form_row_valid _ _ _ _ _ _ Hrow)
      as (Hin & Htok & Hu & _).
    exfalso. exact (Hused t Hin Htok Hu).
Qed.

Lemma form_served_means_submission_accepted_witness :
  (ui_upload_submit demo_env "tok0" (Some "a.png") 0 90000
     (demo_after demo_delivery)).2 = 200.
Proof.
  destruct (form_served_means_submission_accepted demo_env "tok0" 90000
              (demo_after demo_delivery)) as [Hform _].
  destruct Hform as [Hsubmit _]; [vm_compute; reflexivity|].
  apply Hsubmit. discriminate.
Defined.

Lemma filter_fmap_fixed {A : Type} (P : A -> Prop) `{forall x, Decision (P x)}
    (g : A -> A) (l : list A) :
  (forall x, P (g x) <-> P x) -> (forall x, P x -> g x = x) ->
  filter P (g <$> l) = filter P l.
Proof.
  intros Hiff Hfix. induction l as [|x l IH]; [reflexivity|].
  rewrite fmap_cons. destruct (decide (P x)) as [Hx|Hx].
  - rewrite (filter_cons_True P (g x)) by (apply Hiff; exact Hx).
    rewrite (filter_cons_True P x) by exact Hx.
    rewrite IH, (Hfix x Hx). reflexivity.
  - rewrite (filter_cons_False P (g x)) by (rewrite Hiff; exact Hx).
    rewrite (filter_cons_False P x) by exact Hx. exact IH.
Qed.

(** X10.  A submission only ever touches the rows of its own token:
    whether it succeeds or not, every other token is valid afterwards
    exactly when it was valid before. *)
Theorem redeeming_leaves_other_tokens_alone (E : env) (token token' : string)
    (file : option string) (now cts cts' : Z) (st : state) :
  token' <> token ->
  select_valid_token (DB (ui_upload_submit E token file now cts st).1) token' cts'
  = select_valid_token (DB st) token' cts'.
Proof.
  intros Hne.
  destruct (ui_upload_submit_tables E token file now cts st)
    as [->|[->|(row & filename & _ & _ & _ & ->)]]; try reflexivity.
  unfold select_valid_token. simpl. unfold mark_used. f_equal.
  apply filter_fmap_fixed.
  - intros t. destruct (decide (t_token t = token)); simpl; [|tauto].
    split; intros (Ht & _); congruence.
  - intros t (Ht & _). rewrite decide_False by congruence. reflexivity.
Qed.

Lemma redeeming_leaves_other_tokens_alone_witness :
  is_Some
    (select_valid_token
       (DB (ui_upload_submit demo_env "tok0" (Some "a.png") 0 90000
              (demo_after demo_delivered_twice)).1) "tok1" 90001).
Proof.
  rewrite (redeeming_leaves_other_tokens_alone demo_env "tok0" "tok1"
             (Some "a.png") 0 90000 90001 (demo_after demo_delivered_twice)).
  - vm_compute. eauto.
  - discriminate.
Defined.

Lemma saved_name_path (E : env) (row : token_row) (now : Z) (filename : string) :
  path_join UPLOAD_DIR (saved_name E row now filename) =
  "uploads/" +:+ saved_name E row now filename.
Proof. rewrite path_join_uploads. reflexivity. Qed.

Lemma upload_store_fields (E : env) (token : string) (row : token_row)
    (filename : string) (now cts : Z) (st : state) :
  saved_files (upload_store E token row filename now cts st) =
    saved_files st ++ [path_join UPLOAD_DIR (saved_name E row now filename)] /\
  OptionExecution (DB (upload_store E token row filename now cts st)) =
    upsert_execution (token_selection row)
      ("uploads/" +:+ saved_name E row now filename) cts
      (OptionExecution (DB st)) /\
  UploadToken (DB (upload_store E token row filename now cts st)) =
    mark_used token cts (UploadToken (DB st)).
Proof. repeat split. Qed.

(** X11.  A submission that succeeds stamps [used_at] with the database
    time on every row of its token, saves exactly one file, and records as
    [screenshot_url] the very path under which it saved the file; the
    files that were there before are still there. *)
Theorem submission_saves_what_it_records (E : env) (token : string)
    (file : option string) (now cts : Z) (st : state) :
  (ui_upload_submit E token file now cts st).2 = 200 ->
  exists path : string,
    saved_files (ui_upload_submit E token file now cts st).1 =
      saved_files st ++ [path] /\
    (exists r,
       r ∈ OptionExecution (DB (ui_upload_submit E token file now cts st).1) /\
       e_screenshot_url r = path /\ e_created_at r = cts) /\
    (forall t,
       t ∈ UploadToken (DB (ui_upload_submit E token file now cts st).1) ->
       t_token t = token -> t_used_at t = Some cts).
Proof.
  intros Hok.
  destruct (ui_upload_submit_tables E token file now cts st)
    as [Heq|[Heq|(row & filename & Hsel & _ & _ & Heq)]];
    rewrite Heq in Hok; simpl in Hok; try discriminate.
  rewrite Heq. cbn [fst snd].
  destruct (upload_store_fields E token row filename now cts st)
    as (-> & -> & ->).
  exists ("uploads/" +:+ saved_name E row now filename).
  split; [rewrite saved_name_path; reflexivity|]. split.
  - destruct (upsert_execution_value (token_selection row)
                ("uploads/" +:+ saved_name E row now filename) cts
                (OptionExecution (DB st))) as ((r & Hr & Hk) & Hval & _).
    exists r. split; [exact Hr|]. exact (Hval r Hr Hk).
  - intros t Ht Htok.
    apply elem_of_mark_used in Ht as (t0 & _ & Heqt & [[_ Hu]|[Hne ->]]);
      [exact Hu|congruence].
Qed.

Lemma submission_saves_what_it_records_witness :
  saved_files (ui_upload_submit demo_env "tok0" (Some "a.png") 0 90000
                 (demo_after demo_delivery)).1
  = ["uploads/exec_p1_o2_u100_0__a.png"].
Proof.
  destruct (submission_saves_what_it_records demo_env "tok0" (Some "a.png")
              0 90000 (demo_after demo_delivery)) as (path & Hfiles & _).
  - vm_compute. reflexivity.
  - vm_compute. reflexivity.
Defined.

(** ** The stored URLs and [_abs_path_from_url] *)

Lemma saved_name_no_slash (E : env) (row : token_row) (now : Z)
    (filename : string) :
  plain_names E -> count_slash (saved_name E row now filename) = 0%nat.
Proof.
  intros [Hstamp Hsec]. unfold saved_name.
  rewrite !count_slash_app, !pretty_Z_no_slash, Hstamp, Hsec. reflexivity.
Qed.

(** X2.  Both upload handlers store URLs on which [_abs_path_from_url]
    gives nothing.  When the two library functions that shape a file name
    give no slash, the URL a successful [upload_option_screenshot] leaves
    in the row of its option, and the URL a successful [ui_upload_submit]
    leaves in the row of the selection of its token, are [uploads/<name>]
    with no slash in [<name>]; such a URL does not contain
    [/api/uploads/], so [_abs_path_from_url] answers [None] for it. *)
Theorem abs_path_from_url_of_stored_url (E : env) (st : state) :
  plain_names E ->
  (forall (pid oid : Z) (content_type file : option string) (now cts : Z)
          (r : trade_row),
     (upload_option_screenshot E pid oid content_type file now cts st).2 = 201 ->
     r ∈ PollOptionTrade
           (DB (upload_option_screenshot E pid oid content_type file
                  now cts st).1) ->
     trade_key r = (pid, oid) ->
     (exists name, tr_screenshot_url r = "uploads/" +:+ name /\
                   count_slash name = 0%nat) /\
     _abs_path_from_url (tr_screenshot_url r) = None) /\
  (forall (token : string) (file : option string) (now cts : Z),
     (ui_upload_submit E token file now cts st).2 = 200 ->
     exists (t : token_row) (r : exec_row) (name : string),
       select_valid_token (DB st) token cts = Some t /\
       r ∈ OptionExecution (DB (ui_upload_submit E token file now cts st).1) /\
       exec_selection r = token_selection t /\
       e_screenshot_url r = "uploads/" +:+ name /\
       count_slash name = 0%nat /\
       _abs_path_from_url (e_screenshot_url r) = None).
Proof.
  intros Hplain. split.
  - intros pid oid content_type file now cts r Hok Hin Hkey.
    destruct (upload_option_screenshot_cases E pid oid content_type file now cts st)
      as [[_ Heq]|[(_ & _ & Heq)|[(_ & _ & _ & Heq)|
          (_ & _ & filename & -> & _ & Heq)]]];
      rewrite Heq in Hok, Hin; simpl in Hok, Hin; try discriminate.
    destruct (upsert_trade_spec pid oid
                ("uploads/" +:+ trade_file_name E pid oid now filename) cts
                (PollOptionTrade (DB st))) as (_ & Hval & _).
    destruct (Hval r Hin Hkey) as [Hurl _].
    assert (count_slash (trade_file_name E pid oid now filename) = 0%nat)
      as Hname by (destruct Hplain; apply trade_file_name_no_slash; auto).
    rewrite Hurl. split; [eauto|].
    apply stored_url_not_resolved. exact Hname.
  - intros token file now cts Hok.
    destruct (ui_upload_submit_tables E token file now cts st)
      as [Heq|[Heq|(row & filename & Hsel & -> & _ & Heq)]];
      rewrite Heq in Hok |- *; simpl in Hok; try discriminate.
    cbn [fst].
    destruct (upload_store_fields E token row filename now cts st)
      as (_ & Hexec & _).
    destruct (upsert_execution_value (token_selection row)
                ("uploads/" +:+ saved_name E row now filename) cts
                (OptionExecution (DB st))) as ((r & Hin & Hkey) & Hval & _).
    destruct (Hval r Hin Hkey) as [Hurl _].
    pose proof (saved_name_no_slash E row now filename Hplain) as Hname.
    exists row, r, (saved_name E row now filename).
    split; [exact Hsel|]. split; [rewrite Hexec; exact Hin|].
    split; [exact Hkey|]. split; [exact Hurl|]. split; [exact Hname|].
    rewrite Hurl. apply stored_url_not_resolved. exact Hname.
Qed.

Lemma abs_path_from_url_of_stored_url_witness :
  _abs_path_from_url "uploads/poll1_opt2_86400__shot.png" = None.
Proof.
  destruct (abs_path_from_url_of_stored_url plain_env demo_start plain_env_plain)
    as [Hadmin _].
  destruct (Hadmin 1 2 multipart (Some "a.png") one_day 86400
              {| tr_poll_id := 1; tr_option_id := 2;
                 tr_screenshot_url := "uploads/poll1_opt2_86400__shot.png";
                 tr_created_at := 86400 |}) as [_ Hnone].
  - vm_compute. reflexivity.
  - vm_compute. apply list_elem_of_here.
  - reflexivity.
  - exact Hnone.
Defined.

(** ** Confirming and cancelling *)

Lemma update_confirmed_spec (c pid oid uid : Z) (rows : list response_row) :
  Forall2
    (fun r r' =>
       response_selection r' = response_selection r /\
       r_username r' = r_username r /\ r_responded_at r' = r_responded_at r /\
       (response_selection r = (pid, oid, uid) -> r_confirmed r' = c) /\
       (response_selection r <> (pid, oid, uid) -> r' = r))
    rows (update_confirmed c pid oid uid rows).
Proof.
  unfold update_confirmed. apply Forall2_fmap_r, Forall_Forall2_diag.
  apply Forall_forall. intros r _. simpl.
  destruct (decide (r_poll_id r = pid /\ r_option_id r = oid /\
                    r_user_id r = uid)) as [(Hp & Ho & Hu)|Hne]; simpl.
  - repeat split; auto. intros Hk. exfalso. apply Hk.
    unfold response_selection. congruence.
  - repeat split; auto. intros Hk. exfalso. apply Hne.
    unfold response_selection in Hk. injection Hk as -> -> ->. auto.
Qed.

(** X12.  Cancelling (any answer other than [1]) never touches the pending
    list: a selection that was confirmed before stays pending and will
    still be delivered.  It only sets [confirmed] to 0 on the rows of the
    selection in [PollResponse]; the other rows stay as they are. *)
Theorem cancel_does_not_withdraw (pid oid : Z) (yn : string) (uid t : Z)
    (st : state) :
  yn <> "1" ->
  PENDING_DELIVERY (confirm_handler pid oid yn uid t st) = PENDING_DELIVERY st /\
  SEND_QUEUE (confirm_handler pid oid yn uid t st) = SEND_QUEUE st /\
  Forall2
    (fun r r' =>
       response_selection r' = response_selection r /\
       (response_selection r = (pid, oid, uid) -> r_confirmed r' = 0) /\
       (response_selection r <> (pid, oid, uid) -> r' = r))
    (PollResponse (DB st))
    (PollResponse (DB (confirm_handler pid oid yn uid t st))).
Proof.
  intros Hyn. unfold confirm_handler.
  destruct (String.eqb_spec yn "1") as [->|_]; [contradiction|].
  rewrite decide_False by discriminate. simpl.
  split; [reflexivity|]. split; [reflexivity|].
  eapply Forall2_impl; [apply update_confirmed_spec|].
  simpl. intros r r' (Hk & _ & _ & Hc & Ho). auto.
Qed.

Lemma cancel_does_not_withdraw_witness :
  PENDING_DELIVERY
    (confirm_handler 1 2 "0" 100 5 (demo_after [Confirm 1 2 "1" 100 0]))
  = [demo_item 1 2 100 0].
Proof.
  destruct (cancel_does_not_withdraw 1 2 "0" 100 5
              (demo_after [Confirm 1 2 "1" 100 0])) as [Hp _].
  - discriminate.
  - rewrite Hp. reflexivity.
Defined.

(** X13.  For ids that SQLite can bind (with a larger one the [UPDATE]
    raises before the pending list is looked at), confirming (answer [1])
    a selection that is not pending appends one entry for it, stamped with
    the time of the confirmation, whether or not [PollResponse] has a row
    for the selection: the handler does not look.  It sets [confirmed] to 1
    on the rows of the selection and leaves the other rows as they are. *)
Theorem confirm_enqueues_without_looking_at_votes (pid oid uid t : Z)
    (st : state) :
  sqlite_int pid -> sqlite_int oid -> sqlite_int uid ->
  (pid, oid, uid) ∉ item_selection <$> PENDING_DELIVERY st ->
  PENDING_DELIVERY (confirm_handler pid oid "1" uid t st) =
    PENDING_DELIVERY st ++
      [{| poll_id := pid; option_id := oid; user_id := uid; added_at := t |}] /\
  Forall2
    (fun r r' =>
       response_selection r' = response_selection r /\
       (response_selection r = (pid, oid, uid) -> r_confirmed r' = 1) /\
       (response_selection r <> (pid, oid, uid) -> r' = r))
    (PollResponse (DB st))
    (PollResponse (DB (confirm_handler pid oid "1" uid t st))).
Proof.
  intros _ _ _ Hnew. split.
  - destruct (confirm_handler_pending pid oid "1" uid t st) as [Hsame|[_ H]];
      [|exact H].
    exfalso. unfold confirm_handler in Hsame. simpl in Hsame.
    destruct (pending_exists _ _) eqn:Hex.
    + apply pending_exists_spec in Hex. exact (Hnew Hex).
    + simpl in Hsame. apply (f_equal length) in Hsame.
      rewrite length_app in Hsame. simpl in Hsame. lia.
  - unfold confirm_handler. simpl.
    assert (Forall2
      (fun r r' =>
         response_selection r' = response_selection r /\
         (response_selection r = (pid, oid, uid) -> r_confirmed r' = 1) /\
         (response_selection r <> (pid, oid, uid) -> r' = r))
      (PollResponse (DB st))
      (update_confirmed 1 pid oid uid (PollResponse (DB st)))) as Hrows.
    { eapply Forall2_impl; [apply update_confirmed_spec|].
      simpl. intros r r' (Hk & _ & _ & Hc & Ho). auto. }
    destruct (pending_exists _ _); exact Hrows.
Qed.

Lemma confirm_enqueues_without_looking_at_votes_witness :
  PENDING_DELIVERY (confirm_handler 1 2 "1" 100 7 demo_start)
  = [demo_item 1 2 100 7].
Proof.
  destruct (confirm_enqueues_without_looking_at_votes 1 2 100 7 demo_start)
    as [Hp _].
  - vm_compute. split; [discriminate|reflexivity].
  - vm_compute. split; [discriminate|reflexivity].
  - vm_compute. split; [discriminate|reflexivity].
  - intros Hin. inversion Hin.
  - exact Hp.
Defined.

(** ** Voting *)

Lemma pretty_N_go_nonempty (x : N) :
  forall s, s <> "" -> pretty_N_go x s <> "".
Proof.
  induction (N.lt_wf_0 x) as [x _ IH]; intros s Hs.
  assert (x = 0 \/ 0 < x)%N as [->|Hpos] by lia.
  - rewrite pretty_N_go_0. exact Hs.
  - rewrite pretty_N_go_step by exact Hpos. apply IH.
    + apply N.div_lt; lia.
    + discriminate.
Qed.

Lemma pretty_N_nonempty (x : N) : pretty x <> "".
Proof.
  unfold pretty, pretty_N. destruct (decide (x = 0%N)); [discriminate|].
  rewrite pretty_N_go_step by lia. apply pretty_N_go_nonempty. discriminate.
Qed.

(** The decimal text of an integer is not empty. *)
Lemma pretty_Z_nonempty (z : Z) : pretty z <> "".
Proof.
  destruct z as [|p|p]; unfold pretty, pretty_Z.
  - discriminate.
  - apply (pretty_N_nonempty (N.pos p)).
  - discriminate.
Qed.

Lemma display_name_nonempty (username : option string) (full_name : string)
    (uid : Z) :
  display_name username full_name uid <> "".
Proof.
  assert (str_or full_name (pretty uid) <> "") as Hor.
  { unfold str_or. destruct (decide (full_name = "")); [|assumption].
    apply pretty_Z_nonempty. }
  unfold display_name. destruct username as [u|]; [|exact Hor].
  destruct (decide (u = "")); assumption.
Qed.

(** The two ways a vote ends. *)
Lemma vote_handler_cases (pid oid uid : Z) (username : option string)
    (full_name : string) (cts : Z) (st : state) :
  ((pid, oid, uid) ∈ response_selection <$> PollResponse (DB st) /\
   exists c, vote_handler pid oid uid username full_name cts st
             = (st, AlreadySelected c)) \/
  (((pid, oid, uid) ∉ response_selection <$> PollResponse (DB st)) /\
   exists rows,
     vote_handler pid oid uid username full_name cts st
     = (set_DB (set_PollResponse rows (DB st)) st, AskConfirm pid oid) /\
     ((exists p, head (filter (fun p => p_poll_id p = pid) (Poll (DB st))) = Some p /\
                 p_poll_type p = "single" /\
                 rows = delete_other_choices pid uid oid
                          (PollResponse (DB st) ++
                             [new_vote_row pid oid uid
                                (display_name username full_name uid) cts])) \/
      ((forall p, head (filter (fun p => p_poll_id p = pid) (Poll (DB st))) = Some p ->
                  p_poll_type p <> "single") /\
       rows = PollResponse (DB st) ++
                [new_vote_row pid oid uid
                   (display_name username full_name uid) cts]))).
Proof.
  unfold vote_handler.
  destruct (head (filter _ (PollResponse (DB st)))) as [existing|] eqn:Hex.
  - left. split; [|eauto].
    apply head_elem_of, list_elem_of_filter in Hex as [Hk Hin].
    apply list_elem_of_fmap. eauto.
  - right. split.
    + intros Hin. apply list_elem_of_fmap in Hin as (r & Hk & Hr).
      apply head_None in Hex.
      eapply (filter_nil_not_elem_of _ _ r Hex); [|exact Hr].
      simpl. congruence.
    + eexists. split; [reflexivity|].
      destruct (head (filter _ (Poll (DB st)))) as [p|] eqn:Hp.
      * destruct (decide (p_poll_type p = "single")) as [Hs|Hs].
        -- left. exists p. auto.
        -- right. split; [|reflexivity]. intros p' [= <-]. exact Hs.
      * right. split; [|reflexivity]. intros p' Habs. discriminate.
Qed.

(** X14.  [PollResponse] keeps at most one row per
    [(poll_id, option_id, user_id)] across a vote.  A second vote for an
    option the user has a row for changes nothing: the state is as it was,
    and the user is told the option was selected before. *)
Theorem vote_keeps_one_response_per_selection (pid oid uid : Z)
    (username : option string) (full_name : string) (cts : Z) (st : state) :
  NoDup (response_selection <$> PollResponse (DB st)) ->
  NoDup (response_selection <$>
           PollResponse (DB (vote_handler pid oid uid username full_name
                               cts st).1)) /\
  ((pid, oid, uid) ∈ response_selection <$> PollResponse (DB st) ->
   exists c, vote_handler pid oid uid username full_name cts st
             = (st, AlreadySelected c)).
Proof.
  intros Hnd.
  destruct (vote_handler_cases pid oid uid username full_name cts st)
    as [[Hin (c & Heq)]|[Hnew (rows & Heq & Hrows)]].
  - rewrite Heq. split; [exact Hnd|eauto].
  - split; [|contradiction]. rewrite Heq. simpl.
    assert (NoDup (response_selection <$>
                     (PollResponse (DB st) ++
                        [new_vote_row pid oid uid
                           (display_name username full_name uid) cts])))
      as Hnd'.
    { rewrite fmap_app. apply NoDup_app. split; [exact Hnd|].
      split; [|apply NoDup_singleton].
      intros x Hx Hx'. apply list_elem_of_singleton in Hx'. subst x.
      exact (Hnew Hx). }
    destruct Hrows as [(p & _ & _ & ->)|[_ ->]]; [|exact Hnd'].
    eapply sublist_NoDup; [exact Hnd'|].
    apply fmap_sublist, sublist_filter.
Qed.

Lemma vote_keeps_one_response_per_selection_witness :
  exists c,
    vote_handler 1 2 100 (Some "ann") "Ann" 20
      (vote_handler 1 2 100 (Some "ann") "Ann" 10 demo_start).1
    = ((vote_handler 1 2 100 (Some "ann") "Ann" 10 demo_start).1,
       AlreadySelected c).
Proof.
  destruct (vote_keeps_one_response_per_selection 1 2 100 (Some "ann") "Ann" 20
              (vote_handler 1 2 100 (Some "ann") "Ann" 10 demo_start).1)
    as [_ Hdup].
  - vm_compute. apply NoDup_singleton.
  - apply Hdup. vm_compute. apply list_elem_of_here.
Defined.

(** X15.  For ids that SQLite can bind (with a larger one a statement of
    the handler raises and nothing is written), on a poll of type
    [single], a recorded vote leaves the user with
    exactly one row for that poll: the new, unconfirmed row of the option
    just voted; the user's rows for the other options of the poll are
    deleted, confirmed or not.  The rows of other users and of other polls
    are untouched, and so is the pending list: a delivery that is pending
    for an option the user has moved away from is not withdrawn.  On any
    other poll the new row is simply appended. *)
Theorem single_choice_poll_keeps_last_vote (pid oid uid : Z)
    (username : option string) (full_name : string) (cts : Z) (st : state)
    (p : poll_row) :
  sqlite_int pid -> sqlite_int oid -> sqlite_int uid ->
  (pid, oid, uid) ∉ response_selection <$> PollResponse (DB st) ->
  head (filter (fun p => p_poll_id p = pid) (Poll (DB st))) = Some p ->
  (p_poll_type p = "single" ->
   filter (fun r => r_poll_id r = pid /\ r_user_id r = uid)
          (PollResponse (DB (vote_handler pid oid uid username full_name
                               cts st).1))
   = [new_vote_row pid oid uid (display_name username full_name uid) cts] /\
   filter (fun r => ~ (r_poll_id r = pid /\ r_user_id r = uid))
          (PollResponse (DB (vote_handler pid oid uid username full_name
                               cts st).1))
   = filter (fun r => ~ (r_poll_id r = pid /\ r_user_id r = uid))
            (PollResponse (DB st))) /\
  (p_poll_type p <> "single" ->
   PollResponse (DB (vote_handler pid oid uid username full_name cts st).1)
   = PollResponse (DB st) ++
       [new_vote_row pid oid uid (display_name username full_name uid) cts]) /\
  PENDING_DELIVERY (vote_handler pid oid uid username full_name cts st).1
  = PENDING_DELIVERY st.
Proof.
  intros _ _ _ Hnew Hp.
  destruct (vote_handler_cases pid oid uid username full_name cts st)
    as [[Hin _]|[_ (rows & Heq & Hrows)]]; [contradiction|].
  rewrite Heq. simpl. split; [|split; [|reflexivity]].
  - intros Hsingle.
    destruct Hrows as [(p' & Hp' & _ & ->)|[Hnot _]].
    2: { exfalso. exact (Hnot p Hp Hsingle). }
    unfold delete_other_choices. rewrite !list_filter_filter, !filter_app.
    split.
    + rewrite filter_none.
      * rewrite filter_cons_True; [reflexivity|]. simpl. tauto.
      * intros r Hr [[Hrp Hru] Hk]. apply Hnew.
        apply list_elem_of_fmap. exists r. split; [|exact Hr].
        unfold response_selection. f_equal; [f_equal|]; try congruence.
        destruct (decide (r_option_id r = oid)) as [->|Hne]; [reflexivity|].
        exfalso. apply Hk. auto.
    + rewrite filter_cons_False by (simpl; tauto). rewrite app_nil_r.
      apply list_filter_iff. intros r. tauto.
  - intros Hmulti.
    destruct Hrows as [(p' & Hp' & Hs & _)|[_ ->]]; [|reflexivity].
    rewrite Hp in Hp'. injection Hp' as <-. contradiction.
Qed.

Lemma single_choice_poll_keeps_last_vote_witness :
  let st := confirm_handler 1 3 "1" 100 5
              (vote_handler 1 3 100 None "Ann" 1 demo_start).1 in
  filter (fun r => r_poll_id r = 1 /\ r_user_id r = 100)
         (PollResponse (DB (vote_handler 1 2 100 None "Ann" 9 st).1))
  = [new_vote_row 1 2 100 "Ann" 9] /\
  PENDING_DELIVERY (vote_handler 1 2 100 None "Ann" 9 st).1
  = [demo_item 1 3 100 5].
Proof.
  intros st.
  destruct (single_choice_poll_keeps_last_vote 1 2 100 None "Ann" 9 st
              {| p_poll_id := 1; p_question := "Q"; p_poll_type := "single";
                 p_created_at := 0 |}) as (Hsingle & _ & Hpending).
  - vm_compute. split; [discriminate|reflexivity].
  - vm_compute. split; [discriminate|reflexivity].
  - vm_compute. split; [discriminate|reflexivity].
  - vm_compute. intros Hin. apply list_elem_of_singleton in Hin. discriminate.
  - vm_compute. reflexivity.
  - destruct (Hsingle eq_refl) as [Hrows _].
    split; [exact Hrows|]. rewrite Hpending. vm_compute. reflexivity.
Defined.

Lemma filter_fmap_comm {A : Type} (P : A -> Prop) `{forall x, Decision (P x)}
    (g : A -> A) (l : list A) :
  (forall x, P (g x) <-> P x) -> filter P (g <$> l) = g <$> filter P l.
Proof.
  intros Hiff. induction l as [|x l IH]; [reflexivity|].
  rewrite fmap_cons. destruct (decide (P x)) as [Hx|Hx].
  - rewrite (filter_cons_True P (g x)) by (apply Hiff; exact Hx).
    rewrite (filter_cons_True P x) by exact Hx.
    rewrite fmap_cons, IH. reflexivity.
  - rewrite (filter_cons_False P (g x)) by (rewrite Hiff; exact Hx).
    rewrite (filter_cons_False P x) by exact Hx. exact IH.
Qed.

(** After a recorded vote the selection has exactly the new row. *)
Lemma vote_recorded_rows (pid oid uid : Z) (username : option string)
    (full_name : string) (cts : Z) (st : state) :
  (pid, oid, uid) ∉ response_selection <$> PollResponse (DB st) ->
  filter (fun r => response_selection r = (pid, oid, uid))
         (PollResponse (DB (vote_handler pid oid uid username full_name
                              cts st).1))
  = [new_vote_row pid oid uid (display_name username full_name uid) cts].
Proof.
  intros Hnew.
  destruct (vote_handler_cases pid oid uid username full_name cts st)
    as [[Hin _]|[_ (rows & Heq & Hrows)]]; [contradiction|].
  rewrite Heq. simpl.
  assert (filter (fun r => response_selection r = (pid, oid, uid))
                 (PollResponse (DB st)) = []) as Hnone.
  { apply filter_none. intros r Hr Hk. apply Hnew.
    apply list_elem_of_fmap. eauto. }
  destruct Hrows as [(p & _ & _ & ->)|[_ ->]].
  - unfold delete_other_choices. rewrite list_filter_filter, filter_app.
    rewrite filter_none.
    + rewrite filter_cons_True; [reflexivity|]. simpl.
      split; [reflexivity|]. intros (_ & _ & Hne). apply Hne. reflexivity.
    + intros r Hr [Hk _].
      eapply (filter_nil_not_elem_of _ _ r Hnone); [exact Hk|exact Hr].
  - rewrite filter_app, Hnone. rewrite filter_cons_True by reflexivity.
    reflexivity.
Qed.

(** The name the scanner finds for a selection that was voted and then
    confirmed. *)
Lemma voted_name_found (pid oid uid : Z) (username : option string)
    (full_name : string) (cts t : Z) (yn : string) (st : state) :
  (pid, oid, uid) ∉ response_selection <$> PollResponse (DB st) ->
  username_of
    (select_username
       (DB (confirm_handler pid oid yn uid t
              (vote_handler pid oid uid username full_name cts st).1))
       (pid, oid, uid))
  = Some (display_name username full_name uid).
Proof.
  intros Hnew. unfold select_username.
  assert (PollResponse
            (DB (confirm_handler pid oid yn uid t
                   (vote_handler pid oid uid username full_name cts st).1))
          = update_confirmed (if String.eqb yn "1" then 1 else 0) pid oid uid
              (PollResponse (DB (vote_handler pid oid uid username full_name
                                   cts st).1))) as ->.
  { unfold confirm_handler. destruct (decide _); [|reflexivity].
    simpl. destruct (pending_exists _ _); reflexivity. }
  unfold update_confirmed.
  rewrite (filter_fmap_comm
             (fun r => (r_poll_id r, r_option_id r, r_user_id r) = (pid, oid, uid))).
  2: { intros r. destruct (decide _); simpl; tauto. }
  rewrite (list_filter_iff _ (fun r => response_selection r = (pid, oid, uid)))
    by (intros r; reflexivity).
  rewrite (vote_recorded_rows pid oid uid username full_name cts st Hnew).
  simpl. rewrite decide_True by auto. simpl.
  rewrite decide_False by apply display_name_nonempty. reflexivity.
Qed.

Section PassNames.

Variables (E : env) (f : Z -> Z -> bool) (now cts : Z).

(** The names on the rows a pass adds to [UploadToken]. *)
Lemma scan_loop_names (items : list item) :
  forall (idx : nat) (a a' : scan_acc),
  scan_loop E f now cts idx items a = ScanDone a' ->
  exists rows : list token_row,
    scan_db a' = set_UploadToken (UploadToken (scan_db a) ++ rows) (scan_db a) /\
    Forall2
      (fun it r =>
         token_selection r = item_selection it /\
         t_username r =
           username_of (select_username (scan_db a) (item_selection it)))
      (filter (fun it => delivered now (scan_db a) it = true) items) rows.
Proof.
  induction items as [|it rest IH]; intros idx a a' Hrun; simpl in Hrun.
  - injection Hrun as <-. exists []. rewrite app_nil_r, set_UploadToken_same.
    split; [reflexivity|constructor].
  - destruct (stale now it) eqn:Hst.
    { apply IH in Hrun as (rows & Hdb & Hrows). exists rows.
      rewrite filter_cons_False
        by (unfold delivered; rewrite Hst; discriminate).
      auto. }
    destruct (f (poll_id it) (option_id it)); [discriminate|].
    destruct (select_trade (scan_db a) (poll_id it) (option_id it))
      as [[[url q] o]|] eqn:Hsel.
    + destruct (decide (url = "")) as [Hu|Hu].
      * apply IH in Hrun as (rows & Hdb & Hrows). exists rows.
        rewrite filter_cons_False; [auto|].
        unfold delivered, deliverable. rewrite Hst, Hsel.
        rewrite bool_decide_eq_true_2 by exact Hu. discriminate.
      * destruct (insert_token _ (scan_db a)) as [d'|] eqn:Hins;
          [|discriminate].
        apply insert_token_Some in Hins as [-> _].
        apply IH in Hrun as (rows & Hdb & Hrows). simpl in Hdb, Hrows.
        exists (mint_row E now cts it a :: rows).
        rewrite filter_cons_True.
        2: { unfold delivered, deliverable. rewrite Hst, Hsel.
             rewrite bool_decide_eq_false_2 by exact Hu. reflexivity. }
        split; [rewrite Hdb, <- app_assoc; reflexivity|].
        constructor; [split; reflexivity|exact Hrows].
    + apply IH in Hrun as (rows & Hdb & Hrows). exists rows.
      rewrite filter_cons_False; [auto|].
      unfold delivered, deliverable. rewrite Hst, Hsel. discriminate.
Qed.

End PassNames.

(** X16.  The name a token carries is the name of the voter: when a user
    votes for an option (a vote that is recorded) and then answers the
    confirmation, a pass that delivers the pending item of that selection
    adds a row to [UploadToken] whose [username] is
    [user.username or user.full_name or str(user.id)] as it was at the
    vote. *)
Theorem token_carries_voter_name (E : env) (pid oid uid : Z)
    (username : option string) (full_name : string) (vcts t : Z) (yn : string)
    (st : state) (f : Z -> Z -> bool) (now cts : Z) (a : scan_acc) (it : item) :
  (pid, oid, uid) ∉ response_selection <$> PollResponse (DB st) ->
  it ∈ PENDING_DELIVERY
         (confirm_handler pid oid yn uid t
            (vote_handler pid oid uid username full_name vcts st).1) ->
  item_selection it = (pid, oid, uid) ->
  delivered now
    (DB (confirm_handler pid oid yn uid t
           (vote_handler pid oid uid username full_name vcts st).1)) it = true ->
  scan_pass E f now cts
    (confirm_handler pid oid yn uid t
       (vote_handler pid oid uid username full_name vcts st).1) = ScanDone a ->
  exists r : token_row,
    r ∈ UploadToken
          (DB (trade_delivery_iteration E f now cts
                 (confirm_handler pid oid yn uid t
                    (vote_handler pid oid uid username full_name vcts st).1))) /\
    token_selection r = (pid, oid, uid) /\
    t_username r = Some (display_name username full_name uid).
Proof.
  intros Hnew Hin Hsel Hdel Hpass.
  set (st2 := confirm_handler pid oid yn uid t
                (vote_handler pid oid uid username full_name vcts st).1) in *.
  pose proof Hpass as Hnames. unfold scan_pass in Hnames.
  apply scan_loop_names in Hnames as (rows & Hdb & Hrows).
  simpl in Hdb, Hrows.
  assert (it ∈ filter (fun it => delivered now (DB st2) it = true)
                (PENDING_DELIVERY st2)) as Hit
    by (apply list_elem_of_filter; auto).
  apply list_elem_of_lookup in Hit as [i Hi].
  destruct (Forall2_lookup_l _ _ _ _ _ Hrows Hi) as (r & Hr & Hk & Hname).
  exists r. split; [|split].
  - unfold trade_delivery_iteration, scan_put_all, scan_locked.
    rewrite Hpass. simpl. rewrite Hdb. simpl.
    apply elem_of_app. right. apply list_elem_of_lookup. eauto.
  - rewrite Hk. exact Hsel.
  - rewrite Hname, Hsel.
    exact (voted_name_found pid oid uid username full_name vcts t yn st Hnew).
Qed.

Lemma token_carries_voter_name_witness :
  t_username <$>
    UploadToken
      (DB (trade_delivery_iteration demo_env no_fault one_day 86400
             (confirm_handler 1 2 "1" 100 7
                (vote_handler 1 2 100 None "Ann" 5 demo_start).1)))
  = [Some "Ann"].
Proof.
  assert (exists a,
            scan_pass demo_env no_fault one_day 86400
              (confirm_handler 1 2 "1" 100 7
                 (vote_handler 1 2 100 None "Ann" 5 demo_start).1)
            = ScanDone a) as [a Ha] by (eexists; vm_compute; reflexivity).
  destruct (token_carries_voter_name demo_env 1 2 100 None "Ann" 5 7 "1"
              demo_start no_fault one_day 86400 a (demo_item 1 2 100 7))
    as (r & _ & _ & _).
  - intros Hin. inversion Hin.
  - vm_compute. apply list_elem_of_here.
  - reflexivity.
  - vm_compute. reflexivity.
  - exact Ha.
  - vm_compute. reflexivity.
Defined.

(** ** Listing polls *)

#[global] Instance by_poll_id_desc_trans : Transitive by_poll_id_desc.
Proof. unfold by_poll_id_desc. intros a b c. lia. Qed.

#[global] Instance by_poll_id_desc_total : Total by_poll_id_desc.
Proof. unfold by_poll_id_desc. intros a b. lia. Qed.

#[global] Instance by_option_id_trans : Transitive by_option_id.
Proof. unfold by_option_id. intros a b c. lia. Qed.

#[global] Instance by_option_id_total : Total by_option_id.
Proof. unfold by_option_id. intros a b. lia. Qed.

Lemma StronglySorted_sublist {A : Type} (R : relation A) (k l : list A) :
  sublist k l -> StronglySorted R l -> StronglySorted R k.
Proof.
  induction 1 as [|x k l Hsub IH|x k l Hsub IH]; intros Hl.
  - constructor.
  - apply StronglySorted_inv in Hl as [Hl Hx]. constructor; [auto|].
    eapply Forall_forall. intros y Hy. rewrite Forall_forall in Hx.
    apply Hx. eapply elem_of_sublist; eassumption.
  - apply StronglySorted_inv in Hl as [Hl _]. auto.
Qed.

Lemma options_of_spec (d : db) (pid : Z) :
  options_of d pid ≡ₚ filter (fun o => o_poll_id o = pid) (PollOption d) /\
  Sorted by_option_id (options_of d pid).
Proof.
  unfold options_of. split.
  - apply merge_sort_Permutation.
  - apply Sorted_merge_sort. apply _.
Qed.

(** X17.  [list_polls] answers 500 exactly when the offset, once negative
    values are raised to 0, is beyond SQLite's 64-bit integers, and 200
    otherwise.  The limit it works with is between 1 and 200, so a limit of
    0 or less still shows one poll, and a negative offset counts as 0; a
    limit or an offset that is not an integer resets both to 50 and 0.
    With 200 the page is cut out of the polls ordered newest first (by
    decreasing [poll_id]): the poll at place [i] of the page, for [i] below
    the limit, is the one at place [offset + i] of that order, and the page
    ends with the limit or with the table.  Each poll of the page is a row
    of [Poll] and comes with exactly its options, by increasing
    [option_id]. *)
Theorem list_polls_page (limit offset : query_arg) (st : state) :
  ((list_polls limit offset st).1 = 500 <->
   2 ^ 63 <= clamp_offset (parse_paging limit offset).2) /\
  ((list_polls limit offset st).1 = 500 \/
   (list_polls limit offset st).1 = 200) /\
  (1 <= Z.to_nat (clamp_limit (parse_paging limit offset).1) <= 200)%nat /\
  (limit = OtherText \/ offset = OtherText ->
   parse_paging limit offset = (50, 0)) /\
  merge_sort by_poll_id_desc (Poll (DB st)) ≡ₚ Poll (DB st) /\
  StronglySorted by_poll_id_desc (merge_sort by_poll_id_desc (Poll (DB st))) /\
  ((list_polls limit offset st).1 = 200 ->
   length (list_polls limit offset st).2 =
     Nat.min (Z.to_nat (clamp_limit (parse_paging limit offset).1))
             (length (Poll (DB st)) -
              Z.to_nat (clamp_offset (parse_paging limit offset).2)) /\
   (forall i : nat,
      (i < Z.to_nat (clamp_limit (parse_paging limit offset).1))%nat ->
      (list_polls limit offset st).2.*1 !! i =
      merge_sort by_poll_id_desc (Poll (DB st)) !!
        (Z.to_nat (clamp_offset (parse_paging limit offset).2) + i)%nat) /\
   forall p opts, (p, opts) ∈ (list_polls limit offset st).2 ->
     p ∈ Poll (DB st) /\
     opts ≡ₚ filter (fun o => o_poll_id o = p_poll_id p) (PollOption (DB st)) /\
     Sorted by_option_id opts).
Proof.
  unfold list_polls.
  set (l := Z.to_nat (clamp_limit (parse_paging limit offset).1)).
  set (o := Z.to_nat (clamp_offset (parse_paging limit offset).2)).
  set (sorted := merge_sort by_poll_id_desc (Poll (DB st))).
  assert (0 <= clamp_offset (parse_paging limit offset).2) as Hpos
    by (unfold clamp_offset; lia).
  split; [|split; [|split; [|split; [|split; [|split]]]]].
  - destruct (decide (sqlite_int _)) as [Hin|Hout]; unfold sqlite_int in *;
      simpl; split; try discriminate; lia.
  - destruct (decide (sqlite_int _)); simpl; auto.
  - unfold l, clamp_limit. lia.
  - intros [-> | ->]; [reflexivity|]. destruct limit; reflexivity.
  - apply merge_sort_Permutation.
  - apply StronglySorted_merge_sort; apply _.
  - destruct (decide (sqlite_int _)) as [Hin|Hout]; simpl; [intros _|discriminate].
    assert (((fun p => (p, options_of (DB st) (p_poll_id p))) <$>
               take l (drop o sorted)).*1 = take l (drop o sorted)) as Hfst.
    { rewrite <- list_fmap_compose. apply list_fmap_id. }
    split; [|split].
    + rewrite length_fmap, length_take, length_drop. unfold sorted.
      rewrite (Permutation_length (merge_sort_Permutation _ _)). reflexivity.
    + intros i Hi. rewrite Hfst, lookup_take_lt by exact Hi.
      apply lookup_drop.
    + intros p opts Hin'.
      apply list_elem_of_fmap in Hin' as (p' & [= -> ->] & Hp').
      split.
      * assert ((take l (drop o sorted)) `sublist_of` sorted) as Hsub
          by (etransitivity; [apply sublist_take|apply sublist_drop]).
        eapply elem_of_sublist in Hp'; [|exact Hsub].
        unfold sorted in Hp'. rewrite merge_sort_Permutation in Hp'. exact Hp'.
      * apply options_of_spec.
Qed.

(** ** Creating a poll *)

Lemma foldr_max_ge (ids : list Z) (i : Z) : i ∈ ids -> i <= foldr Z.max 0 ids.
Proof.
  induction ids as [|j ids IH]; intros Hin; [inversion Hin|].
  simpl. apply elem_of_cons in Hin as [->|Hin]; [lia|].
  specialize (IH Hin). lia.
Qed.

(** A new row id is above the sequence and above every id of the table. *)
Lemma next_rowid_fresh (seq : Z) (ids : list Z) :
  seq < next_rowid seq ids /\ forall i, i ∈ ids -> i < next_rowid seq ids.
Proof.
  unfold next_rowid. split; [lia|].
  intros i Hi. apply foldr_max_ge in Hi. lia.
Qed.

(** What the loop over the options inserts. *)
Lemma insert_options_Some (T : text_lib) (pid : Z) (opts : list option_json) :
  forall (rows : list option_row) (seq : Z) (rows' : list option_row) (seq' : Z),
  insert_options T pid opts rows seq = Some (rows', seq') ->
  exists new : list option_row,
    rows' = rows ++ new /\
    o_option_text <$> new = option_text_of T <$> opts /\
    Forall (fun o => o_poll_id o = pid /\ o_option_text o <> "") new /\
    StronglySorted Z.lt (o_option_id <$> new) /\
    Forall (fun o => seq < o_option_id o /\
                     forall r, r ∈ rows -> o_option_id r < o_option_id o) new /\
    seq <= seq'.
Proof.
  induction opts as [|opt rest IH]; intros rows seq rows' seq' Hins;
    simpl in Hins.
  - injection Hins as <- <-. exists []. rewrite app_nil_r.
    repeat split; try constructor. lia.
  - destruct (decide (option_text_of T opt = "")) as [|Htxt]; [discriminate|].
    destruct (next_rowid_fresh seq (o_option_id <$> rows)) as [Hseq Hids].
    set (oid := next_rowid seq (o_option_id <$> rows)) in *.
    apply IH in Hins as (new & -> & Htexts & Hpid & Hsorted & Hfresh & Hle).
    eexists (_ :: new). rewrite <- app_assoc. simpl.
    split; [reflexivity|]. split; [f_equal; exact Htexts|].
    split; [constructor; [split; [reflexivity|exact Htxt]|exact Hpid]|].
    assert (Forall (fun i => oid < i) (o_option_id <$> new)) as Habove.
    { apply Forall_fmap. eapply Forall_impl; [exact Hfresh|].
      simpl. intros o [Ho _]. exact Ho. }
    split; [constructor; [exact Hsorted|exact Habove]|].
    split; [|lia].
    constructor.
    + simpl. split; [exact Hseq|]. intros r Hr. apply Hids.
      apply list_elem_of_fmap. eauto.
    + eapply Forall_impl; [exact Hfresh|]. simpl. intros o [Ho Hrows].
      split; [lia|]. intros r Hr. apply Hrows.
      apply elem_of_app. left. exact Hr.
Qed.

Lemma insert_options_None (T : text_lib) (pid : Z) (opts : list option_json) :
  forall (rows : list option_row) (seq : Z),
  insert_options T pid opts rows seq = None <->
  exists opt, opt ∈ opts /\ option_text_of T opt = "".
Proof.
  induction opts as [|opt rest IH]; intros rows seq; simpl.
  - split; [discriminate|]. intros (opt & Hin & _). inversion Hin.
  - destruct (decide (option_text_of T opt = "")) as [Htxt|Htxt].
    + split; [|reflexivity]. intros _. exists opt.
      split; [apply list_elem_of_here|exact Htxt].
    + rewrite IH. split.
      * intros (o & Hin & Ho). exists o.
        split; [apply list_elem_of_further; exact Hin|exact Ho].
      * intros (o & Hin & Ho). apply elem_of_cons in Hin as [->|Hin];
          [contradiction|eauto].
Qed.

(** The three ways the handler ends. *)
Lemma create_poll_cases (T : text_lib) (body : poll_json) (cts : Z)
    (sq : sequences) (st : state) :
  ((stored_question T body = "" \/ pj_options body = [] \/
    exists opt, opt ∈ pj_options body /\ option_text_of T opt = "") /\
   create_poll T body cts sq st = (sq, st, 400, None)) \/
  (stored_question T body <> "" /\ pj_options body <> [] /\
   (forall opt, opt ∈ pj_options body -> option_text_of T opt <> "") /\
   exists (rows : list option_row) (seq : Z),
     insert_options T (next_rowid (seq_Poll sq) (p_poll_id <$> Poll (DB st)))
       (pj_options body) (PollOption (DB st)) (seq_PollOption sq)
     = Some (rows, seq) /\
     create_poll T body cts sq st =
       ({| seq_Poll := next_rowid (seq_Poll sq) (p_poll_id <$> Poll (DB st));
           seq_PollOption := seq |},
        set_POLL_QUEUE
          (POLL_QUEUE st ++
             [next_rowid (seq_Poll sq) (p_poll_id <$> Poll (DB st))])
          (set_DB (created_db T body cts sq st rows) st),
        201,
        match head (filter
                      (fun p => p_poll_id p =
                                next_rowid (seq_Poll sq) (p_poll_id <$> Poll (DB st)))
                      (Poll (created_db T body cts sq st rows))) with
        | Some p =>
            Some (p, options_of (created_db T body cts sq st rows)
                       (next_rowid (seq_Poll sq) (p_poll_id <$> Poll (DB st))))
        | None => None
        end)).
Proof.
  unfold create_poll. fold (stored_question T body).
  destruct (decide (stored_question T body = "")) as [Hq|Hq].
  { left. split; [left; exact Hq|reflexivity]. }
  destruct (pj_options body) as [|opt opts] eqn:Hopts.
  { left. split; [right; left; reflexivity|reflexivity]. }
  destruct (insert_options T _ (opt :: opts) (PollOption (DB st))
              (seq_PollOption sq)) as [[rows seq]|] eqn:Hins.
  - right. split; [exact Hq|]. split; [discriminate|]. split.
    + intros o Ho Htxt.
      assert (insert_options T
                (next_rowid (seq_Poll sq) (p_poll_id <$> Poll (DB st)))
                (opt :: opts) (PollOption (DB st)) (seq_PollOption sq) = None)
        as Habs by (apply insert_options_None; eauto).
      congruence.
    + exists rows, seq. split; [reflexivity|reflexivity].
  - left. split; [|reflexivity]. right. right.
    apply insert_options_None in Hins. exact Hins.
Qed.

(** X18.  For a body of the shape [poll_json] (a question and a poll type
    that are texts or absent, a list of options that are dictionaries with
    a text or no [option_text], or other values), [create_poll] answers
    400 exactly when the question is empty once stripped, or there is no
    option, or some option, at any place in the list, has no text once
    stripped.  In each of these cases nothing remains of the request: the
    rollback undoes the poll and the options inserted before the empty
    one, the row id sequences are as they were, and no announcement is
    queued.  (A field of another JSON type makes a string method raise;
    such bodies are not of this shape.) *)
Theorem create_poll_rejects_without_trace (T : text_lib) (body : poll_json)
    (cts : Z) (sq : sequences) (st : state) :
  ((create_poll T body cts sq st).1.2 = 400 <->
   stored_question T body = "" \/ pj_options body = [] \/
   exists opt, opt ∈ pj_options body /\ option_text_of T opt = "") /\
  ((create_poll T body cts sq st).1.2 = 400 ->
   create_poll T body cts sq st = (sq, st, 400, None)).
Proof.
  destruct (create_poll_cases T body cts sq st)
    as [[Hwhy Heq]|(Hq & Ho & Htxt & rows & seq & _ & Heq)]; rewrite Heq; simpl.
  - split; [tauto|reflexivity].
  - split; [|discriminate].
    split; [discriminate|].
    intros [H|[H|(opt & Hin & H)]]; [contradiction|contradiction|].
    exfalso. exact (Htxt opt Hin H).
Qed.

(** What a request answered 201 leaves behind. *)
Lemma create_poll_created (T : text_lib) (body : poll_json)
    (cts : Z) (sq : sequences) (st : state) :
  (create_poll T body cts sq st).1.2 = 201 ->
  exists new : list option_row,
    (seq_Poll sq < p_poll_id (new_poll_row T body cts sq st) /\
     forall p, p ∈ Poll (DB st) ->
       p_poll_id p < p_poll_id (new_poll_row T body cts sq st)) /\
    Poll (DB (create_poll T body cts sq st).1.1.2) =
      Poll (DB st) ++ [new_poll_row T body cts sq st] /\
    p_question (new_poll_row T body cts sq st) <> "" /\
    (p_poll_type (new_poll_row T body cts sq st) = "single" \/
     p_poll_type (new_poll_row T body cts sq st) = "multi") /\
    POLL_QUEUE (create_poll T body cts sq st).1.1.2 =
      POLL_QUEUE st ++ [p_poll_id (new_poll_row T body cts sq st)] /\
    PollOption (DB (create_poll T body cts sq st).1.1.2) =
      PollOption (DB st) ++ new /\
    o_option_text <$> new = option_text_of T <$> pj_options body /\
    Forall (fun o =>
              o_poll_id o = p_poll_id (new_poll_row T body cts sq st) /\
              o_option_text o <> "") new /\
    StronglySorted Z.lt (o_option_id <$> new) /\
    Forall (fun o => seq_PollOption sq < o_option_id o /\
                     forall r, r ∈ PollOption (DB st) ->
                               o_option_id r < o_option_id o) new /\
    seq_Poll (create_poll T body cts sq st).1.1.1 =
      p_poll_id (new_poll_row T body cts sq st) /\
    PENDING_DELIVERY (create_poll T body cts sq st).1.1.2 = PENDING_DELIVERY st /\
    SEND_QUEUE (create_poll T body cts sq st).1.1.2 = SEND_QUEUE st /\
    PollOptionTrade (DB (create_poll T body cts sq st).1.1.2) =
      PollOptionTrade (DB st) /\
    UploadToken (DB (create_poll T body cts sq st).1.1.2) = UploadToken (DB st).
Proof.
  intros Hok.
  destruct (create_poll_cases T body cts sq st)
    as [[_ Heq]|(Hq & _ & _ & rows & seq & Hins & Heq)];
    rewrite Heq in Hok |- *; simpl in Hok; [discriminate|]. clear Hok.
  apply insert_options_Some in Hins
    as (new & -> & Htexts & Hpid & Hsorted & Hfresh & _).
  destruct (next_rowid_fresh (seq_Poll sq) (p_poll_id <$> Poll (DB st)))
    as [Hseq Hids].
  exists new. cbn [fst snd].
  split.
  { split; [exact Hseq|]. intros p Hp. apply Hids.
    apply list_elem_of_fmap. eauto. }
  split; [reflexivity|]. split; [exact Hq|]. split.
  { unfold new_poll_row, stored_poll_type. simpl.
    repeat (destruct (decide _)); auto. }
  repeat (split; [first [reflexivity|assumption]|]). reflexivity.
Qed.


Lemma sorted_by_ids (rows : list option_row) :
  StronglySorted Z.lt (o_option_id <$> rows) -> Sorted by_option_id rows.
Proof.
  induction rows as [|o rows IH]; intros Hs; [constructor|].
  rewrite fmap_cons in Hs. apply StronglySorted_inv in Hs as [Hs Ho].
  constructor; [auto|].
  destruct rows as [|o' rows]; constructor.
  rewrite fmap_cons in Ho. apply Forall_cons in Ho as [Ho _].
  unfold by_option_id. lia.
Qed.

Lemma strictly_sorted_NoDup (ids : list Z) :
  StronglySorted Z.lt ids -> NoDup ids.
Proof.
  induction 1 as [|i ids Hs IH Hi]; constructor; [|exact IH].
  intros Hin. rewrite Forall_forall in Hi. specialize (Hi i Hin). lia.
Qed.

(** Sorting rows whose ids already increase changes nothing. *)
Lemma merge_sort_sorted_ids (rows : list option_row) :
  StronglySorted Z.lt (o_option_id <$> rows) ->
  merge_sort by_option_id rows = rows.
Proof.
  intros Hs. apply (Sorted_unique_strong by_option_id).
  - intros x1 x2 H1 H2 H12 H21.
    rewrite merge_sort_Permutation in H1.
    apply (NoDup_fmap_elem_eq o_option_id rows x1 x2);
      [apply strictly_sorted_NoDup; exact Hs|exact H1|exact H2|].
    unfold by_option_id in *. lia.
  - apply Sorted_merge_sort. apply _.
  - apply sorted_by_ids. exact Hs.
  - apply merge_sort_Permutation.
Qed.

(** X20.  When every option row belongs to a poll of the table, a poll
    that was just created is found by [get_poll] with exactly the options
    of the request, in the order of the request; this is also what the
    answer of [create_poll] shows.  So the announcement made for the queued
    id carries the question and one button per option, in that order, each
    voting for this poll and that option; and when the sender accepts it,
    a drain tick on the queued id dispatches exactly this message. *)
Theorem created_poll_is_announced_with_its_options (T : text_lib)
    (body : poll_json) (cts : Z) (sq : sequences) (st : state) :
  (create_poll T body cts sq st).1.2 = 201 ->
  (forall o, o ∈ PollOption (DB st) ->
     exists p, p ∈ Poll (DB st) /\ p_poll_id p = o_poll_id o) ->
  exists new : list option_row,
    PollOption (DB (create_poll T body cts sq st).1.1.2) =
      PollOption (DB st) ++ new /\
    o_option_text <$> new = option_text_of T <$> pj_options body /\
    (create_poll T body cts sq st).2 =
      Some (new_poll_row T body cts sq st, new) /\
    get_poll (DB (create_poll T body cts sq st).1.1.2)
      (p_poll_id (new_poll_row T body cts sq st)) =
      Some (new_poll_row T body cts sq st, new) /\
    sm_text (poll_message (new_poll_row T body cts sq st) new) =
      "🗳️ " +:+ stored_question T body /\
    sm_buttons (poll_message (new_poll_row T body cts sq st) new) =
      (fun o => (o_option_text o,
                 p_poll_id (new_poll_row T body cts sq st),
                 o_option_id o)) <$> new /\
    forall W : outside,
      send_message_raises W
        (poll_message (new_poll_row T body cts sq st) new) = false ->
      drain_poll_queue W (DB (create_poll T body cts sq st).1.1.2)
        [p_poll_id (new_poll_row T body cts sq st)] [] =
      {| remaining := [];
         dispatched := [poll_message (new_poll_row T body cts sq st) new];
         raised := false |}.
Proof.
  intros Hok Href.
  destruct (create_poll_created T body cts sq st Hok)
    as (new & [_ Hids] & Hpolls & _ & _ & _ & Hopts & Htexts & Hpid & Hsorted & _).
  exists new. split; [exact Hopts|]. split; [exact Htexts|].
  set (row := new_poll_row T body cts sq st) in *.
  set (pid := p_poll_id row) in *.
  set (st' := (create_poll T body cts sq st).1.1.2) in *.
  assert (head (filter (fun p => p_poll_id p = pid) (Poll (DB st'))) = Some row)
    as Hhead.
  { rewrite Hpolls, filter_app, filter_none.
    - rewrite filter_cons_True by reflexivity. reflexivity.
    - intros p Hp Heq. specialize (Hids p Hp). fold pid in Hids. lia. }
  assert (options_of (DB st') pid = new) as Hoptions.
  { unfold options_of. rewrite Hopts, filter_app, filter_none.
    - simpl. rewrite filter_all.
      + apply merge_sort_sorted_ids. exact Hsorted.
      + intros o Ho. rewrite Forall_forall in Hpid.
        destruct (Hpid o Ho) as [Hp _]. exact Hp.
    - intros o Ho Heq. destruct (Href o Ho) as (p & Hp & Hpo).
      specialize (Hids p Hp). fold pid in Hids. lia. }
  assert (get_poll (DB st') pid = Some (row, new)) as Hget.
  { unfold get_poll. rewrite Hhead. fold (options_of (DB st') pid).
    rewrite Hoptions. reflexivity. }
  split.
  { destruct (create_poll_cases T body cts sq st)
      as [[_ Heq]|(_ & _ & _ & rows & seq & _ & Heq)].
    - rewrite Heq in Hok. simpl in Hok. discriminate.
    - assert (created_db T body cts sq st rows = DB st') as Hdb
        by (unfold st'; rewrite Heq; reflexivity).
      rewrite Heq. cbn [snd]. rewrite Hdb.
      change (next_rowid (seq_Poll sq) (p_poll_id <$> Poll (DB st))) with pid.
      rewrite Hhead, Hoptions. reflexivity. }
  split; [exact Hget|]. split; [reflexivity|]. split; [reflexivity|].
  intros W Hsend. simpl. unfold post_poll_to_group.
  rewrite Hget, Hsend. reflexivity.
Qed.


Lemma created_poll_is_announced_with_its_options_witness :
  (sm_buttons <$>
     dispatched
       (drain_poll_queue willing_sender
          (DB (create_poll plain_text demo_body 50 demo_sequences
                 demo_start).1.1.2) [5] []))
  = [[("Buy", 5, 3); ("Sell", 5, 4)]].
Proof.
  destruct (created_poll_is_announced_with_its_options plain_text demo_body 50
              demo_sequences demo_start)
    as (new & Hopts & _ & _ & _ & _ & _ & Hdrain).
  - vm_compute. reflexivity.
  - intros o Ho. apply list_elem_of_singleton in Ho. subst o.
    eexists. split; [apply list_elem_of_here|reflexivity].
  - assert (new = [{| o_option_id := 3; o_poll_id := 5; o_option_text := "Buy" |};
                   {| o_option_id := 4; o_poll_id := 5; o_option_text := "Sell" |}])
      as Hnew.
    { vm_compute in Hopts. injection Hopts as <-. reflexivity. }
    specialize (Hdrain willing_sender eq_refl).
    change (p_poll_id (new_poll_row plain_text demo_body 50 demo_sequences
                         demo_start)) with 5 in Hdrain.
    rewrite Hdrain, Hnew. vm_compute. reflexivity.
Defined.

(** ** Announcing a poll *)

Lemma get_poll_None (d : db) (pid : Z) :
  get_poll d pid = None <-> forall p, p ∈ Poll d -> p_poll_id p <> pid.
Proof.
  unfold get_poll.
  destruct (head (filter _ (Poll d))) as [p|] eqn:Hp.
  - split; [discriminate|]. intros Hnone. exfalso.
    apply head_elem_of, list_elem_of_filter in Hp as [Hk Hin].
    exact (Hnone p Hin Hk).
  - split; [|reflexivity]. intros _ p Hin Hk.
    apply head_None in Hp.
    exact (filter_nil_not_elem_of _ _ p Hp Hk Hin).
Qed.

(** X21.  [get_poll] finds a poll exactly when [Poll] has a row of that
    id.  Then the announcement shows the question of that row and one
    button per option row of the poll, no other, by increasing
    [option_id], each carrying the ids of this poll and of its option. *)
Theorem announcement_offers_exactly_the_options (d : db) (pid : Z) :
  (get_poll d pid = None <-> forall p, p ∈ Poll d -> p_poll_id p <> pid) /\
  forall p opts, get_poll d pid = Some (p, opts) ->
    p ∈ Poll d /\ p_poll_id p = pid /\
    opts ≡ₚ filter (fun o => o_poll_id o = pid) (PollOption d) /\
    Sorted by_option_id opts /\
    sm_text (poll_message p opts) = "🗳️ " +:+ p_question p /\
    sm_buttons (poll_message p opts) =
      (fun o => (o_option_text o, pid, o_option_id o)) <$> opts.
Proof.
  split; [apply get_poll_None|].
  unfold get_poll. intros p opts Hget.
  {
    destruct (head (filter _ (Poll d))) as [p'|] eqn:Hp; [|discriminate].
    injection Hget as -> <-.
    apply head_elem_of, list_elem_of_filter in Hp as [Hk Hin].
    fold (options_of d pid).
    destruct (options_of_spec d pid) as [Hperm Hsorted].
    repeat split; try assumption.
    unfold poll_message. simpl. rewrite Hk. reflexivity.
  }
Qed.

Lemma drain_poll_fails (W : outside) (d : db) (pre : list Z) (pid : Z)
    (post : list Z) :
  forall done : list send_message_call,
  (forall p, p ∈ pre -> is_Some (post_poll_to_group W d p)) ->
  post_poll_to_group W d pid = None ->
  exists calls : list send_message_call,
    drain_poll_queue W d (pre ++ pid :: post) done =
      {| remaining := post; dispatched := done ++ calls; raised := true |} /\
    Forall2 (fun p c => post_poll_to_group W d p = Some c) pre calls.
Proof.
  induction pre as [|p pre IH]; intros done Hok Hbad; simpl.
  - rewrite Hbad. exists []. rewrite app_nil_r.
    split; [reflexivity|constructor].
  - destruct (Hok p) as [c Hc]; [apply list_elem_of_here|].
    rewrite Hc.
    destruct (IH (done ++ [c])) as (calls & Hrun & Hall);
      [intros p' Hp'; apply Hok, list_elem_of_further, Hp'|exact Hbad|].
    exists (c :: calls). rewrite Hrun, <- app_assoc.
    split; [reflexivity|constructor; assumption].
Qed.

(** X22.  An announce job for a poll that is not in [Poll] makes
    [get_poll] raise, whatever the sender would do.  The drain tick ends
    there: the job has been taken off [POLL_QUEUE] and is not put back, the
    jobs in front of it have been announced, and the jobs behind it stay
    on the queue, unannounced in this tick. *)
Theorem missing_poll_ends_announce_tick (W : outside) (d : db)
    (pre : list Z) (pid : Z) (post : list Z) :
  (forall p, p ∈ Poll d -> p_poll_id p <> pid) ->
  (forall p, p ∈ pre -> is_Some (post_poll_to_group W d p)) ->
  post_poll_to_group W d pid = None /\
  exists calls : list send_message_call,
    drain_poll_queue W d (pre ++ pid :: post) [] =
      {| remaining := post; dispatched := calls; raised := true |} /\
    Forall2 (fun p c => post_poll_to_group W d p = Some c) pre calls.
Proof.
  intros Hmissing Hok.
  assert (post_poll_to_group W d pid = None) as Hbad.
  { unfold post_poll_to_group.
    destruct (get_poll_None d pid) as [_ Hnone].
    rewrite (Hnone Hmissing). reflexivity. }
  split; [exact Hbad|].
  exact (drain_poll_fails W d pre pid post [] Hok Hbad).
Qed.

Lemma missing_poll_ends_announce_tick_witness :
  remaining (drain_poll_queue willing_sender demo_db ([1] ++ 9 :: [1; 1]) [])
  = [1; 1].
Proof.
  destruct (missing_poll_ends_announce_tick willing_sender demo_db [1] 9 [1; 1])
    as (_ & calls & Hrun & _).
  - intros p Hp. apply list_elem_of_singleton in Hp. subst p. discriminate.
  - intros p Hp. apply list_elem_of_singleton in Hp. subst p.
    vm_compute. eauto.
  - rewrite Hrun. reflexivity.
Defined.

(** ** From a pass to the photos sent *)

Lemma upload_url_nonempty (E : env) (token : string) : upload_url E token <> "".
Proof.
  unfold upload_url. destruct (PUBLIC_BASE_URL E); discriminate.
Qed.

(** X23.  When [SEND_QUEUE] is empty, an iteration of the scanner that
    runs to its end, followed by a drain tick in which no dispatch of a job
    of that iteration raises (neither the opening of the file nor the call
    of [send_photo]), sends exactly one photo per delivered item, in the
    order of the pending list: to the user of the item, with the button
    that opens the upload link of a token, and with the path [uploads/]
    followed by the last component of the stored URL, opened as a file
    when [os.path.exists] finds it and passed as it is otherwise.  The
    queue is empty afterwards. *)
Theorem delivered_items_get_their_photo (E : env) (f : Z -> Z -> bool)
    (now cts : Z) (st : state) (a : scan_acc) (W : outside) :
  scan_pass E f now cts st = ScanDone a ->
  SEND_QUEUE st = [] ->
  (forall j, j ∈ SEND_QUEUE (trade_delivery_iteration E f now cts st) ->
             send_photo_raises W (photo_call W j) = false) ->
  remaining (drain_send_queue W
               (SEND_QUEUE (trade_delivery_iteration E f now cts st)) []) = [] /\
  raised (drain_send_queue W
            (SEND_QUEUE (trade_delivery_iteration E f now cts st)) []) = false /\
  Forall2
    (fun it c =>
       sp_chat_id c = user_id it /\
       (exists token, sp_reply_markup c = Some (upload_url E token)) /\
       exists url question option_text : string,
         select_trade (DB st) (poll_id it) (option_id it) =
           Some (url, question, option_text) /\
         sp_photo c = if path_exists W ("uploads/" +:+ basename url)
                      then PhotoFile ("uploads/" +:+ basename url)
                      else PhotoRef ("uploads/" +:+ basename url))
    (filter (fun it => delivered now (DB st) it = true) (PENDING_DELIVERY st))
    (dispatched (drain_send_queue W
                   (SEND_QUEUE (trade_delivery_iteration E f now cts st)) [])).
Proof.
  intros Hpass Hempty Hsend.
  destruct (iteration_jobs E f now cts st a Hpass) as (js & Hq & _ & Hjobs).
  rewrite Hq, Hempty in Hsend |- *. simpl in Hsend |- *.
  rewrite (drain_send_all W js [] Hsend). simpl.
  split; [reflexivity|]. split; [reflexivity|].
  apply Forall2_fmap_r. eapply Forall2_impl; [exact Hjobs|].
  simpl. intros it j (url & q & o & tok & Hsel & _ & ->).
  unfold photo_call. simpl. split; [reflexivity|]. split.
  - exists tok.
    rewrite decide_False by apply upload_url_nonempty. reflexivity.
  - exists url, q, o. split; [exact Hsel|].
    assert (count_slash (basename url) = 0%nat) as Hb
      by (apply basename_from_no_slash; reflexivity).
    rewrite (path_join_plain _ Hb). reflexivity.
Qed.

Lemma delivered_items_get_their_photo_witness :
  sp_chat_id <$>
    dispatched
      (drain_send_queue willing_sender
         (SEND_QUEUE
            (trade_delivery_iteration demo_env no_fault one_day 86400
               (set_pending [demo_item 1 2 100 0; demo_item 1 2 101 5]
                  demo_start))) [])
  = [100; 101].
Proof.
  assert (exists a,
            scan_pass demo_env no_fault one_day 86400
              (set_pending [demo_item 1 2 100 0; demo_item 1 2 101 5] demo_start)
            = ScanDone a) as [a Ha] by (eexists; vm_compute; reflexivity).
  destruct (delivered_items_get_their_photo demo_env no_fault one_day 86400
              (set_pending [demo_item 1 2 100 0; demo_item 1 2 101 5] demo_start)
              a willing_sender Ha) as (_ & _ & Hcalls).
  - reflexivity.
  - intros j _. reflexivity.
  - vm_compute. reflexivity.
Defined.

(** ** Tokens over a run *)

Lemma run_spent (E : env) (evs : list event) (token : string) :
  forall st st' : state,
  run E evs st = Some st' -> spent (DB st) token -> spent (DB st') token.
Proof.
  induction evs as [|ev evs IH]; intros st st' Hrun Hsp; simpl in Hrun.
  - injection Hrun as <-. exact Hsp.
  - destruct (step E ev st) as [st1|] eqn:Hstep; [|discriminate].
    eapply IH; [exact Hrun|]. eapply step_spent; eassumption.
Qed.

(** Requests that overlap, once the token is spent. *)
Lemma upload_step_spent (E : env) (now cts : Z) (pc : upload_pc) (st : state)
    (token : string) :
  spent (DB st) token ->
  spent (DB (upload_step E now cts pc st).2) token /\
  forall file, pc = Received token file \/ pc = Responded 410 ->
    (upload_step E now cts pc st).1 = Responded 410.
Proof.
  intros Hsp. destruct pc as [token' file'|token' row filename|status]; simpl.
  - split.
    + destruct (upload_validate token' file' cts st) as [status|[row filename]];
        exact Hsp.
    + intros file [[= -> ->]|?]; [|discriminate].
      unfold upload_validate. rewrite select_valid_token_None; [reflexivity|].
      destruct Hsp as [_ Hused]. intros r Hr Ht. left. auto.
  - split.
    + apply mark_used_spent. destruct Hsp as [Hex Hused]. auto.
    + intros file [?|?]; discriminate.
  - split; [exact Hsp|]. intros file [?|[= ->]]; [discriminate|reflexivity].
Qed.

Lemma upload_schedule_spent (E : env) (token : string)
    (sched : list (nat * Z * Z)) :
  forall (pcs : list upload_pc) (st : state),
  spent (DB st) token ->
  spent (DB (upload_schedule E sched (pcs, st)).2) token /\
  forall (i : nat) (file : option string),
    pcs !! i = Some (Received token file) \/ pcs !! i = Some (Responded 410) ->
    (upload_schedule E sched (pcs, st)).1 !! i = Some (Received token file) \/
    (upload_schedule E sched (pcs, st)).1 !! i = Some (Responded 410).
Proof.
  induction sched as [|[[k now] cts] sched IH]; intros pcs st Hsp.
  - simpl. split; [exact Hsp|]. intros i file H. exact H.
  - unfold upload_schedule. simpl. fold (upload_schedule E sched).
    unfold upload_move. simpl.
    destruct (pcs !! k) as [pc|] eqn:Hk; [|apply IH; exact Hsp].
    destruct (upload_step E now cts pc st) as [pc' st1] eqn:Hstep.
    destruct (upload_step_spent E now cts pc st token Hsp) as [Hsp1 Hpc].
    rewrite Hstep in Hsp1, Hpc. simpl in Hsp1, Hpc.
    destruct (IH (<[k:=pc']> pcs) st1 Hsp1) as [Hsp2 Hlate].
    split; [exact Hsp2|]. intros i file Hi.
    destruct (decide (i = k)) as [->|Hne].
    + rewrite Hk in Hi.
      assert (pc' = Responded 410) as ->.
      { apply (Hpc file). destruct Hi as [[= ->]|[= ->]]; auto. }
      apply Hlate. right. apply list_lookup_insert_eq.
      apply lookup_lt_is_Some. eauto.
    + apply Hlate. rewrite list_lookup_insert_ne by congruence. exact Hi.
Qed.

(** X24.  A used token stays used.  Along any run of the pipeline in which
    every submission is handled as one step (confirmations, passes of the
    scanner, drains, submissions, the writes of the other handlers), every
    row of a token that was spent is still used, the scanner does not mint
    the same token again, and a submission with it gets status 410 and
    changes nothing.  From then on this also holds of requests that
    overlap: however the moves of any number of requests interleave, the
    token stays spent, and every request that presents it and has yet to
    run its validity query ends with 410.  (Requests that had passed
    their validity query before the token was spent are not among
    these.) *)
Theorem spent_token_is_never_redeemed (E : env) (evs : list event)
    (token : string) (st st' : state) :
  spent (DB st) token ->
  run E evs st = Some st' ->
  spent (DB st') token /\
  (forall (file : option string) (now cts : Z),
     ui_upload_submit E token file now cts st' = (st', 410)) /\
  forall (pcs : list upload_pc) (sched : list (nat * Z * Z)),
    spent (DB (upload_schedule E sched (pcs, st')).2) token /\
    forall (i : nat) (file : option string),
      pcs !! i = Some (Received token file) ->
      (upload_schedule E sched (pcs, st')).1 !! i = Some (Received token file) \/
      (upload_schedule E sched (pcs, st')).1 !! i = Some (Responded 410).
Proof.
  intros Hsp Hrun.
  pose proof (run_spent E evs token st st' Hrun Hsp) as Hsp'.
  split; [exact Hsp'|]. split.
  - intros file now cts. apply spent_rejected. exact Hsp'.
  - intros pcs sched.
    destruct (upload_schedule_spent E token sched pcs st' Hsp') as [Hsp2 Hlate].
    split; [exact Hsp2|]. intros i file Hi. apply Hlate. left. exact Hi.
Qed.

Lemma spent_token_is_never_redeemed_witness :
  (ui_upload_submit demo_env "tok0" (Some "b.png") 0 172801
     (default demo_start
        (run demo_env [Confirm 1 2 "1" 100 (2 * one_day);
                       ScanLocked no_fault (2 * one_day) 172800; ScanPut]
           (ui_upload_submit demo_env "tok0" (Some "a.png") 0 90000
              (demo_after demo_delivery)).1))).2 = 410.
Proof.
  destruct (spent_token_is_never_redeemed demo_env
              [Confirm 1 2 "1" 100 (2 * one_day);
               ScanLocked no_fault (2 * one_day) 172800; ScanPut]
              "tok0"
              (ui_upload_submit demo_env "tok0" (Some "a.png") 0 90000
                 (demo_after demo_delivery)).1
              (default demo_start
                 (run demo_env [Confirm 1 2 "1" 100 (2 * one_day);
                                ScanLocked no_fault (2 * one_day) 172800; ScanPut]
                    (ui_upload_submit demo_env "tok0" (Some "a.png") 0 90000
                       (demo_after demo_delivery)).1))) as (_ & Hrej & _).
  - apply success_spends. vm_compute. reflexivity.
  - vm_compute. reflexivity.
  - rewrite Hrej. reflexivity.
Defined.

(** X25.  In every reachable state the tokens of [UploadToken] are
    pairwise distinct: a pass that draws a token the table already has is
    ended by the [IntegrityError] of the insert instead of adding a second
    row, and no other step adds or renames a token. *)
Theorem tokens_stay_distinct (E : env) (st : state) :
  reachable E st -> NoDup (t_token <$> UploadToken (DB st)).
Proof.
  intros Hreach. destruct (reachable_inv E st Hreach) as [_ [Ht _]]. exact Ht.
Qed.

Lemma tokens_stay_distinct_witness :
  NoDup (t_token <$> UploadToken (DB (demo_after demo_delivered_twice))).
Proof.
  apply (tokens_stay_distinct demo_env).
  apply (demo_after_reachable demo_delivered_twice). vm_compute. reflexivity.
Defined.

(** ** The other handlers as steps of the pipeline *)

Lemma run_snoc (E : env) (ev : event) (evs : list event) :
  forall st st' st'' : state,
  run E evs st = Some st' -> step E ev st' = Some st'' ->
  run E (evs ++ [ev]) st = Some st''.
Proof.
  induction evs as [|e evs IH]; intros st st' st'' Hrun Hstep; simpl in *.
  - injection Hrun as ->. rewrite Hstep. reflexivity.
  - destruct (step E e st) as [st1|]; [|discriminate].
    eapply IH; eassumption.
Qed.

Lemma other_writes_reachable (E : env) (st : state) (polls : list poll_row)
    (options : list option_row) (responses : list response_row)
    (trades : list trade_row) (announce : list Z) :
  reachable E st ->
  reachable E (other_writes polls options responses trades announce st).
Proof.
  intros (st0 & evs & Hinit & Hrun).
  exists st0, (evs ++ [OtherWrites polls options responses trades announce]).
  split; [exact Hinit|]. eapply run_snoc; [exact Hrun|reflexivity].
Qed.

Lemma other_writes_same (st : state) :
  other_writes (Poll (DB st)) (PollOption (DB st)) (PollResponse (DB st))
    (PollOptionTrade (DB st)) [] st = st.
Proof.
  destruct st as [p s q [] f dr b al]. unfold other_writes. simpl.
  rewrite app_nil_r. reflexivity.
Qed.

Lemma vote_handler_other_writes (pid oid uid : Z) (username : option string)
    (full_name : string) (cts : Z) (st : state) :
  exists responses : list response_row,
    (vote_handler pid oid uid username full_name cts st).1 =
    other_writes (Poll (DB st)) (PollOption (DB st)) responses
      (PollOptionTrade (DB st)) [] st.
Proof.
  unfold vote_handler.
  destruct (head (filter _ (PollResponse (DB st)))) as [r|].
  - exists (PollResponse (DB st)). simpl. symmetry. apply other_writes_same.
  - eexists. cbn [fst]. unfold other_writes, set_DB, set_PollResponse.
    rewrite app_nil_r. reflexivity.
Qed.

Lemma create_poll_other_writes (T : text_lib) (body : poll_json) (cts : Z)
    (sq : sequences) (st : state) :
  exists (polls : list poll_row) (options : list option_row) (announce : list Z),
    (create_poll T body cts sq st).1.1.2 =
    other_writes polls options (PollResponse (DB st)) (PollOptionTrade (DB st))
      announce st.
Proof.
  destruct (create_poll_cases T body cts sq st)
    as [[_ Heq]|(_ & _ & _ & rows & seq & _ & Heq)]; rewrite Heq; cbn [fst snd].
  - exists (Poll (DB st)), (PollOption (DB st)), [].
    symmetry. apply other_writes_same.
  - eexists _, _, _. unfold other_writes, set_POLL_QUEUE, set_DB, created_db.
    simpl. reflexivity.
Qed.

(** X26.  A vote and the creation of a poll write only [Poll],
    [PollOption] and [PollResponse] and the tail of [POLL_QUEUE]: a state
    they lead to from a reachable state is reachable, so what holds of
    every reachable state holds after them.  The admin's screenshot upload
    writes only [PollOptionTrade] and the upload directory: it leaves the
    pending list, both queues, [UploadToken] and [OptionExecution] as they
    are, and the keys of these tables and of the pending list stay
    distinct. *)
Theorem other_handlers_keep_pipeline (E : env) (st : state) :
  reachable E st ->
  (forall (pid oid uid : Z) (username : option string) (full_name : string)
          (cts : Z),
     reachable E (vote_handler pid oid uid username full_name cts st).1) /\
  (forall (T : text_lib) (body : poll_json) (cts : Z) (sq : sequences),
     reachable E (create_poll T body cts sq st).1.1.2) /\
  (forall (pid oid : Z) (content_type file : option string) (now cts : Z),
     pipeline_inv
       (upload_option_screenshot E pid oid content_type file now cts st).1 /\
     PENDING_DELIVERY
       (upload_option_screenshot E pid oid content_type file now cts st).1
     = PENDING_DELIVERY st /\
     SEND_QUEUE
       (upload_option_screenshot E pid oid content_type file now cts st).1
     = SEND_QUEUE st /\
     POLL_QUEUE
       (upload_option_screenshot E pid oid content_type file now cts st).1
     = POLL_QUEUE st /\
     UploadToken
       (DB (upload_option_screenshot E pid oid content_type file now cts st).1)
     = UploadToken (DB st) /\
     OptionExecution
       (DB (upload_option_screenshot E pid oid content_type file now cts st).1)
     = OptionExecution (DB st)).
Proof.
  intros Hreach. split; [|split].
  - intros pid oid uid username full_name cts.
    destruct (vote_handler_other_writes pid oid uid username full_name cts st)
      as [responses ->].
    apply other_writes_reachable. exact Hreach.
  - intros T body cts sq.
    destruct (create_poll_other_writes T body cts sq st)
      as (polls & options & announce & ->).
    apply other_writes_reachable. exact Hreach.
  - intros pid oid content_type file now cts.
    pose proof (reachable_inv E st Hreach) as Hinv.
    unfold upload_option_screenshot.
    destruct (head (filter _ (Poll (DB st)))); [|simpl; auto 10].
    destruct (head (filter _ (PollOption (DB st)))); [|simpl; auto 10].
    destruct (negb _); [simpl; auto 10|].
    destruct file as [filename|]; [|simpl; auto 10].
    destruct (decide (filename = "")); simpl; auto 10.
Qed.

Lemma other_handlers_keep_pipeline_witness :
  reachable demo_env
    (vote_handler 1 2 100 None "Ann" 90000 (demo_after demo_delivery)).1.
Proof.
  destruct (other_handlers_keep_pipeline demo_env (demo_after demo_delivery))
    as [Hvote _].
  - apply (demo_after_reachable demo_delivery). vm_compute. reflexivity.
  - apply Hvote.
Defined.
